(** * ThePathOfOsu: the player character's state logic and the Transporter

    A shallow embedding of [Source/ThePathOfOsu/PlayerCharacter.cpp] and of
    the component declared in [Source/ThePathOfOsu/Transporter.h].

    Conventions.
    - [int32] values are integers of [Z]; the arithmetic of the code wraps
      around ([add_int32], [sub_int32]).
    - [float] and [double] values are binary64 floats ([PrimFloat]); the
      player code only copies and compares them, and adds and multiplies
      them when it builds the sphere trace.  Where the code passes a
      [double] for a [float] parameter the value is rounded to single
      precision ([double_to_float]).
    - A pointer is an [option]: [None] is [nullptr].  Dereferencing
      [nullptr] ends the call with [Crashed NullDereference].
    - A method of [APlayerCharacter] is a function from the state before the
      call to an [Outcome]: the returned value with the state after the
      call, or a crash.
    - Calls into the engine that only produce output (montage playback,
      delegates, on-screen messages) are recorded, in order, in the
      state's [Log].  So are the calls into the base class and the
      timeline whose effect lies outside this file ([Heal], [Super::Tick],
      [TickTimeline]): the model records that they are made, and says
      nothing about the members they write. *)

From Stdlib Require Import ZArith QArith Floats Ascii String List Lia Lqa.
From stdpp Require Import gmap strings list functions.

Local Open Scope Z_scope.

(** ** Integers of the code *)

Definition MAX_int32 : Z := 2147483647.
Definition MIN_int32 : Z := -2147483648.

Definition is_int32 (z : Z) : Prop := MIN_int32 <= z <= MAX_int32.

(** Two's complement wrap-around of a 32-bit signed integer. *)
Definition wrap_int32 (z : Z) : Z := (z + 2147483648) mod 4294967296 - 2147483648.

Definition add_int32 (a b : Z) : Z := wrap_int32 (a + b).
Definition sub_int32 (a b : Z) : Z := wrap_int32 (a - b).

(** [FMath::Min], [FMath::Max] and [FMath::Clamp] of the engine
    ([UnrealMathUtility.h]): [Min(A,B) = (A < B) ? A : B],
    [Max(A,B) = (B < A) ? A : B] and
    [Clamp(X,Min,Max) = Max(Min(X,Max),Min)]. *)
Definition FMath_Min (A B : Z) : Z := if A <? B then A else B.
Definition FMath_Max (A B : Z) : Z := if B <? A then A else B.
Definition FMath_Clamp (X MinValue MaxValue : Z) : Z :=
  FMath_Max (FMath_Min X MaxValue) MinValue.

(** The older form of [FMath::Clamp]: [X < Min ? Min : X < Max ? X : Max].
    The two forms differ only when [Max < Min]. *)
Definition FMath_Clamp_ternary (X MinValue MaxValue : Z) : Z :=
  if X <? MinValue then MinValue else if X <? MaxValue then X else MaxValue.

(** ** Single precision

    The conversion of a [double] to a [float]: the nearest binary32 value,
    ties to even, infinite beyond the binary32 range. *)
Definition double_to_float (x : float) : float :=
  match Prim2SF x with
  | S754_finite s m e => SF2Prim (binary_round 24 128 s m e)
  | _ => x
  end.

(** ** Engine value types *)

Module FVector2D.
Record t := mk { X : float; Y : float }.
End FVector2D.

Module FVector.
Record t := mk { X : float; Y : float; Z : float }.
End FVector.

Module FRotator.
Record t := mk { Pitch : float; Yaw : float; Roll : float }.
End FRotator.

Inductive EAnimationState := Unarmed | Pistol | Rifle.

Global Instance EAnimationState_eq_dec : EqDecision EAnimationState.
Proof. solve_decision. Defined.

(** An animation montage asset; [GetName] is its object name. *)
Record UAnimMontage := { GetName : string }.

(** ** Items

    [UItem] is declared outside this file; the player code reads only its
    [MaxCount].  [ItemId] stands for the identity of the object: the
    inventory is keyed by [UItem*], so two items are the same key exactly
    when they are the same object. *)
Record UItem := { ItemId : positive; MaxCount : Z }.

Global Instance UItem_eq_dec : EqDecision UItem.
Proof. solve_decision. Defined.

Global Instance UItem_countable : Countable UItem.
Proof.
  apply (inj_countable' (fun i => (ItemId i, MaxCount i))
                        (fun p => {| ItemId := p.1; MaxCount := p.2 |})).
  by intros [].
Defined.

(** [UItem*]: [None] is [nullptr]. *)
Abbreviation UItemPtr := (option UItem).

(** ** Enemies and actors

    [AEnemyCharacter] is declared outside this file.  The record holds what
    the player code reads from an enemy: the [IsExecutable] flag, whether
    its [TargetWidget] is visible, the answer of [IsDead()], [MaxHp], its
    location and its distance to the player ([GetDistanceTo(this)]).  Every
    enemy has a target widget, and a non-null enemy pointer points to a
    live enemy: the only bad pointer of the model is [nullptr]. *)
Record AEnemyCharacter := {
  IsExecutable : bool;
  TargetWidget_IsVisible : bool;
  IsDead : bool;
  MaxHp : float;
  EnemyLocation : FVector.t;
  DistanceToPlayer : float
}.

(** Modelled from the spec: [AEnemyCharacter::ShowTargetWidget] and
    [HideTargetWidget] are not part of the sources; as their names and the
    test [TargetWidget->IsVisible()] in [Tick] say, they make the enemy's
    target widget visible and hidden. *)
Definition ShowTargetWidget (e : AEnemyCharacter) : AEnemyCharacter :=
  {| IsExecutable := IsExecutable e; TargetWidget_IsVisible := true;
     IsDead := IsDead e; MaxHp := MaxHp e; EnemyLocation := EnemyLocation e;
     DistanceToPlayer := DistanceToPlayer e |}.

Definition HideTargetWidget (e : AEnemyCharacter) : AEnemyCharacter :=
  {| IsExecutable := IsExecutable e; TargetWidget_IsVisible := false;
     IsDead := IsDead e; MaxHp := MaxHp e; EnemyLocation := EnemyLocation e;
     DistanceToPlayer := DistanceToPlayer e |}.

(** An actor of the world, by its dynamic class; the number identifies the
    object. *)
Inductive AActor :=
| EnemyCharacterActor (id : positive)
| OtherActor (id : positive).

(** [AEnemyCharacter*] and [AActor*]. *)
Abbreviation AEnemyCharacterPtr := (option positive).
Abbreviation AActorPtr := (option AActor).

(** [Cast<AEnemyCharacter>(Actor)]: the same object when it is an enemy
    character, [nullptr] otherwise (also for [nullptr]). *)
Definition Cast_AEnemyCharacter (a : AActorPtr) : AEnemyCharacterPtr :=
  match a with
  | Some (EnemyCharacterActor id) => Some id
  | _ => None
  end.

(** The request [SearchEnemyInFront] hands to
    [UKismetSystemLibrary::SphereTraceSingleForObjects]: start, end, radius
    and the actors to ignore.  The object types traced for and the
    debug-drawing arguments are constants of the call and left out. *)
Record SphereTrace := {
  TraceStart : FVector.t;
  TraceEnd : FVector.t;
  TraceRadius : float;
  IgnoredActors : list AActor
}.

(** ** Output of a call, in order *)
Inductive Event :=
| AddOnScreenDebugMessage (msg : string)
| UE_LOG_Error (msg : string)
| Montage_Play (m : UAnimMontage) (rate : float)
| Montage_Stop (blend_out : float)
| OnPlayerAddItem_Broadcast (item : UItem)
| OnPlayerUseItem_Broadcast
| OnBeginPush_Broadcast
| Heal_HalfMaxHp
| ApplyDamage (target : positive) (amount : float)
| SetControlRotation (r : FRotator.t)
| WeaponSystem_StartSprint
| WeaponSystem_EndSprint
| Super_Tick (DeltaSeconds : float)
| GunCameraZoomTimeline_TickTimeline (DeltaSeconds : float).

(** ** The player character *)

Record UCharacterMovementComponent := {
  MaxWalkSpeed : float;
  bOrientRotationToMovement : bool
}.

Record APlayerCharacter := {
  Self : positive;
  ActorLocation : FVector.t;
  FollowCamera_Rotation : FRotator.t;
  PlayerController : bool;
  CharacterMovementComponent : UCharacterMovementComponent;
  bUseControllerRotationYaw : bool;
  CurrentAnimationState : EAnimationState;
  CurrentMovementVector : FVector2D.t;
  IsTargetLocking : bool;
  LockTargetEnemy : AEnemyCharacterPtr;
  ExecutingTarget : AEnemyCharacterPtr;
  IsMeleeAttackInputReceived : bool;
  IsSprinting : bool;
  IsCrouching : bool;
  WalkSpeed : float;
  SprintSpeed : float;
  FistAttackMontages : list UAnimMontage;
  ExecutePunchAttackMontage : UAnimMontage;
  DodgeRollForwardMontage : UAnimMontage;
  DodgeRollRightMontage : UAnimMontage;
  DodgeRollLeftMontage : UAnimMontage;
  DodgeRollBackwardMontage : UAnimMontage;
  InventoryData : gmap UItemPtr Z
}.

(** The state a call runs in: the player object, the enemies of the world
    (by object), and the output so far. *)
Record State := {
  Player : APlayerCharacter;
  Enemies : positive -> AEnemyCharacter;
  Log : list Event
}.

(** ** Assignments to the members the code writes *)

Definition set_MaxWalkSpeed (v : float) (c : UCharacterMovementComponent) :
  UCharacterMovementComponent :=
  {| MaxWalkSpeed := v; bOrientRotationToMovement := bOrientRotationToMovement c |}.

Definition set_bOrientRotationToMovement (v : bool) (c : UCharacterMovementComponent) :
  UCharacterMovementComponent :=
  {| MaxWalkSpeed := MaxWalkSpeed c; bOrientRotationToMovement := v |}.

Definition set_CharacterMovementComponent (v : UCharacterMovementComponent) (p : APlayerCharacter) : APlayerCharacter :=
  {| Self := Self p; ActorLocation := ActorLocation p;
     FollowCamera_Rotation := FollowCamera_Rotation p;
     PlayerController := PlayerController p; CharacterMovementComponent := v;
     bUseControllerRotationYaw := bUseControllerRotationYaw p;
     CurrentAnimationState := CurrentAnimationState p;
     CurrentMovementVector := CurrentMovementVector p;
     IsTargetLocking := IsTargetLocking p;
     LockTargetEnemy := LockTargetEnemy p;
     ExecutingTarget := ExecutingTarget p;
     IsMeleeAttackInputReceived := IsMeleeAttackInputReceived p;
     IsSprinting := IsSprinting p; IsCrouching := IsCrouching p;
     WalkSpeed := WalkSpeed p; SprintSpeed := SprintSpeed p;
     FistAttackMontages := FistAttackMontages p;
     ExecutePunchAttackMontage := ExecutePunchAttackMontage p;
     DodgeRollForwardMontage := DodgeRollForwardMontage p;
     DodgeRollRightMontage := DodgeRollRightMontage p;
     DodgeRollLeftMontage := DodgeRollLeftMontage p;
     DodgeRollBackwardMontage := DodgeRollBackwardMontage p;
     InventoryData := InventoryData p |}.

Definition set_bUseControllerRotationYaw (v : bool) (p : APlayerCharacter) : APlayerCharacter :=
  {| Self := Self p; ActorLocation := ActorLocation p;
     FollowCamera_Rotation := FollowCamera_Rotation p;
     PlayerController := PlayerController p;
     CharacterMovementComponent := CharacterMovementComponent p;
     bUseControllerRotationYaw := v;
     CurrentAnimationState := CurrentAnimationState p;
     CurrentMovementVector := CurrentMovementVector p;
     IsTargetLocking := IsTargetLocking p;
     LockTargetEnemy := LockTargetEnemy p;
     ExecutingTarget := ExecutingTarget p;
     IsMeleeAttackInputReceived := IsMeleeAttackInputReceived p;
     IsSprinting := IsSprinting p; IsCrouching := IsCrouching p;
     WalkSpeed := WalkSpeed p; SprintSpeed := SprintSpeed p;
     FistAttackMontages := FistAttackMontages p;
     ExecutePunchAttackMontage := ExecutePunchAttackMontage p;
     DodgeRollForwardMontage := DodgeRollForwardMontage p;
     DodgeRollRightMontage := DodgeRollRightMontage p;
     DodgeRollLeftMontage := DodgeRollLeftMontage p;
     DodgeRollBackwardMontage := DodgeRollBackwardMontage p;
     InventoryData := InventoryData p |}.

Definition set_CurrentMovementVector (v : FVector2D.t) (p : APlayerCharacter) : APlayerCharacter :=
  {| Self := Self p; ActorLocation := ActorLocation p;
     FollowCamera_Rotation := FollowCamera_Rotation p;
     PlayerController := PlayerController p;
     CharacterMovementComponent := CharacterMovementComponent p;
     bUseControllerRotationYaw := bUseControllerRotationYaw p;
     CurrentAnimationState := CurrentAnimationState p;
     CurrentMovementVector := v; IsTargetLocking := IsTargetLocking p;
     LockTargetEnemy := LockTargetEnemy p;
     ExecutingTarget := ExecutingTarget p;
     IsMeleeAttackInputReceived := IsMeleeAttackInputReceived p;
     IsSprinting := IsSprinting p; IsCrouching := IsCrouching p;
     WalkSpeed := WalkSpeed p; SprintSpeed := SprintSpeed p;
     FistAttackMontages := FistAttackMontages p;
     ExecutePunchAttackMontage := ExecutePunchAttackMontage p;
     DodgeRollForwardMontage := DodgeRollForwardMontage p;
     DodgeRollRightMontage := DodgeRollRightMontage p;
     DodgeRollLeftMontage := DodgeRollLeftMontage p;
     DodgeRollBackwardMontage := DodgeRollBackwardMontage p;
     InventoryData := InventoryData p |}.

Definition set_CurrentAnimationState (v : EAnimationState) (p : APlayerCharacter) : APlayerCharacter :=
  {| Self := Self p; ActorLocation := ActorLocation p;
     FollowCamera_Rotation := FollowCamera_Rotation p;
     PlayerController := PlayerController p;
     CharacterMovementComponent := CharacterMovementComponent p;
     bUseControllerRotationYaw := bUseControllerRotationYaw p;
     CurrentAnimationState := v;
     CurrentMovementVector := CurrentMovementVector p;
     IsTargetLocking := IsTargetLocking p;
     LockTargetEnemy := LockTargetEnemy p;
     ExecutingTarget := ExecutingTarget p;
     IsMeleeAttackInputReceived := IsMeleeAttackInputReceived p;
     IsSprinting := IsSprinting p; IsCrouching := IsCrouching p;
     WalkSpeed := WalkSpeed p; SprintSpeed := SprintSpeed p;
     FistAttackMontages := FistAttackMontages p;
     ExecutePunchAttackMontage := ExecutePunchAttackMontage p;
     DodgeRollForwardMontage := DodgeRollForwardMontage p;
     DodgeRollRightMontage := DodgeRollRightMontage p;
     DodgeRollLeftMontage := DodgeRollLeftMontage p;
     DodgeRollBackwardMontage := DodgeRollBackwardMontage p;
     InventoryData := InventoryData p |}.

Definition set_IsTargetLocking (v : bool) (p : APlayerCharacter) : APlayerCharacter :=
  {| Self := Self p; ActorLocation := ActorLocation p;
     FollowCamera_Rotation := FollowCamera_Rotation p;
     PlayerController := PlayerController p;
     CharacterMovementComponent := CharacterMovementComponent p;
     bUseControllerRotationYaw := bUseControllerRotationYaw p;
     CurrentAnimationState := CurrentAnimationState p;
     CurrentMovementVector := CurrentMovementVector p; IsTargetLocking := v;
     LockTargetEnemy := LockTargetEnemy p;
     ExecutingTarget := ExecutingTarget p;
     IsMeleeAttackInputReceived := IsMeleeAttackInputReceived p;
     IsSprinting := IsSprinting p; IsCrouching := IsCrouching p;
     WalkSpeed := WalkSpeed p; SprintSpeed := SprintSpeed p;
     FistAttackMontages := FistAttackMontages p;
     ExecutePunchAttackMontage := ExecutePunchAttackMontage p;
     DodgeRollForwardMontage := DodgeRollForwardMontage p;
     DodgeRollRightMontage := DodgeRollRightMontage p;
     DodgeRollLeftMontage := DodgeRollLeftMontage p;
     DodgeRollBackwardMontage := DodgeRollBackwardMontage p;
     InventoryData := InventoryData p |}.

Definition set_LockTargetEnemy (v : AEnemyCharacterPtr) (p : APlayerCharacter) : APlayerCharacter :=
  {| Self := Self p; ActorLocation := ActorLocation p;
     FollowCamera_Rotation := FollowCamera_Rotation p;
     PlayerController := PlayerController p;
     CharacterMovementComponent := CharacterMovementComponent p;
     bUseControllerRotationYaw := bUseControllerRotationYaw p;
     CurrentAnimationState := CurrentAnimationState p;
     CurrentMovementVector := CurrentMovementVector p;
     IsTargetLocking := IsTargetLocking p; LockTargetEnemy := v;
     ExecutingTarget := ExecutingTarget p;
     IsMeleeAttackInputReceived := IsMeleeAttackInputReceived p;
     IsSprinting := IsSprinting p; IsCrouching := IsCrouching p;
     WalkSpeed := WalkSpeed p; SprintSpeed := SprintSpeed p;
     FistAttackMontages := FistAttackMontages p;
     ExecutePunchAttackMontage := ExecutePunchAttackMontage p;
     DodgeRollForwardMontage := DodgeRollForwardMontage p;
     DodgeRollRightMontage := DodgeRollRightMontage p;
     DodgeRollLeftMontage := DodgeRollLeftMontage p;
     DodgeRollBackwardMontage := DodgeRollBackwardMontage p;
     InventoryData := InventoryData p |}.

Definition set_ExecutingTarget (v : AEnemyCharacterPtr) (p : APlayerCharacter) : APlayerCharacter :=
  {| Self := Self p; ActorLocation := ActorLocation p;
     FollowCamera_Rotation := FollowCamera_Rotation p;
     PlayerController := PlayerController p;
     CharacterMovementComponent := CharacterMovementComponent p;
     bUseControllerRotationYaw := bUseControllerRotationYaw p;
     CurrentAnimationState := CurrentAnimationState p;
     CurrentMovementVector := CurrentMovementVector p;
     IsTargetLocking := IsTargetLocking p;
     LockTargetEnemy := LockTargetEnemy p; ExecutingTarget := v;
     IsMeleeAttackInputReceived := IsMeleeAttackInputReceived p;
     IsSprinting := IsSprinting p; IsCrouching := IsCrouching p;
     WalkSpeed := WalkSpeed p; SprintSpeed := SprintSpeed p;
     FistAttackMontages := FistAttackMontages p;
     ExecutePunchAttackMontage := ExecutePunchAttackMontage p;
     DodgeRollForwardMontage := DodgeRollForwardMontage p;
     DodgeRollRightMontage := DodgeRollRightMontage p;
     DodgeRollLeftMontage := DodgeRollLeftMontage p;
     DodgeRollBackwardMontage := DodgeRollBackwardMontage p;
     InventoryData := InventoryData p |}.

Definition set_IsMeleeAttackInputReceived (v : bool) (p : APlayerCharacter) : APlayerCharacter :=
  {| Self := Self p; ActorLocation := ActorLocation p;
     FollowCamera_Rotation := FollowCamera_Rotation p;
     PlayerController := PlayerController p;
     CharacterMovementComponent := CharacterMovementComponent p;
     bUseControllerRotationYaw := bUseControllerRotationYaw p;
     CurrentAnimationState := CurrentAnimationState p;
     CurrentMovementVector := CurrentMovementVector p;
     IsTargetLocking := IsTargetLocking p;
     LockTargetEnemy := LockTargetEnemy p;
     ExecutingTarget := ExecutingTarget p; IsMeleeAttackInputReceived := v;
     IsSprinting := IsSprinting p; IsCrouching := IsCrouching p;
     WalkSpeed := WalkSpeed p; SprintSpeed := SprintSpeed p;
     FistAttackMontages := FistAttackMontages p;
     ExecutePunchAttackMontage := ExecutePunchAttackMontage p;
     DodgeRollForwardMontage := DodgeRollForwardMontage p;
     DodgeRollRightMontage := DodgeRollRightMontage p;
     DodgeRollLeftMontage := DodgeRollLeftMontage p;
     DodgeRollBackwardMontage := DodgeRollBackwardMontage p;
     InventoryData := InventoryData p |}.

Definition set_IsSprinting (v : bool) (p : APlayerCharacter) : APlayerCharacter :=
  {| Self := Self p; ActorLocation := ActorLocation p;
     FollowCamera_Rotation := FollowCamera_Rotation p;
     PlayerController := PlayerController p;
     CharacterMovementComponent := CharacterMovementComponent p;
     bUseControllerRotationYaw := bUseControllerRotationYaw p;
     CurrentAnimationState := CurrentAnimationState p;
     CurrentMovementVector := CurrentMovementVector p;
     IsTargetLocking := IsTargetLocking p;
     LockTargetEnemy := LockTargetEnemy p;
     ExecutingTarget := ExecutingTarget p;
     IsMeleeAttackInputReceived := IsMeleeAttackInputReceived p;
     IsSprinting := v; IsCrouching := IsCrouching p;
     WalkSpeed := WalkSpeed p; SprintSpeed := SprintSpeed p;
     FistAttackMontages := FistAttackMontages p;
     ExecutePunchAttackMontage := ExecutePunchAttackMontage p;
     DodgeRollForwardMontage := DodgeRollForwardMontage p;
     DodgeRollRightMontage := DodgeRollRightMontage p;
     DodgeRollLeftMontage := DodgeRollLeftMontage p;
     DodgeRollBackwardMontage := DodgeRollBackwardMontage p;
     InventoryData := InventoryData p |}.

Definition set_InventoryData (v : gmap UItemPtr Z) (p : APlayerCharacter) : APlayerCharacter :=
  {| Self := Self p; ActorLocation := ActorLocation p;
     FollowCamera_Rotation := FollowCamera_Rotation p;
     PlayerController := PlayerController p;
     CharacterMovementComponent := CharacterMovementComponent p;
     bUseControllerRotationYaw := bUseControllerRotationYaw p;
     CurrentAnimationState := CurrentAnimationState p;
     CurrentMovementVector := CurrentMovementVector p;
     IsTargetLocking := IsTargetLocking p;
     LockTargetEnemy := LockTargetEnemy p;
     ExecutingTarget := ExecutingTarget p;
     IsMeleeAttackInputReceived := IsMeleeAttackInputReceived p;
     IsSprinting := IsSprinting p; IsCrouching := IsCrouching p;
     WalkSpeed := WalkSpeed p; SprintSpeed := SprintSpeed p;
     FistAttackMontages := FistAttackMontages p;
     ExecutePunchAttackMontage := ExecutePunchAttackMontage p;
     DodgeRollForwardMontage := DodgeRollForwardMontage p;
     DodgeRollRightMontage := DodgeRollRightMontage p;
     DodgeRollLeftMontage := DodgeRollLeftMontage p;
     DodgeRollBackwardMontage := DodgeRollBackwardMontage p;
     InventoryData := v |}.

(** ** Calls: state passing with crashes *)

Inductive Fault :=
| NullDereference   (* a member is read or called through [nullptr] *)
| CheckFailed.      (* [TMap::operator[]] on a missing key, [TArray] index out of range *)

Inductive Outcome (A : Type) :=
| Returned (a : A) (s : State)
| Crashed (f : Fault).
Arguments Returned {A} a s.
Arguments Crashed {A} f.

Definition Method (A : Type) : Type := State -> Outcome A.

Definition ret {A} (a : A) : Method A := fun s => Returned a s.

Definition bind {A B} (m : Method A) (k : A -> Method B) : Method B :=
  fun s => match m s with
           | Returned a s' => k a s'
           | Crashed f => Crashed f
           end.

Notation "x <- m ;; k" := (bind m (fun x => k))
  (at level 100, m at next level, right associativity).
Notation "m ;; k" := (bind m (fun _ => k))
  (at level 100, right associativity).

Definition crash {A} (f : Fault) : Method A := fun _ => Crashed f.

(** [this]: the members of the player as they are now. *)
Definition this : Method APlayerCharacter := fun s => Returned (Player s) s.

Definition with_Player (p : APlayerCharacter) (s : State) : State :=
  {| Player := p; Enemies := Enemies s; Log := Log s |}.

Definition with_Enemies (es : positive -> AEnemyCharacter) (s : State) : State :=
  {| Player := Player s; Enemies := es; Log := Log s |}.

Definition logged (e : Event) (s : State) : State :=
  {| Player := Player s; Enemies := Enemies s; Log := Log s ++ [e] |}.

(** An assignment to a member of the player. *)
Definition assign (f : APlayerCharacter -> APlayerCharacter) : Method unit :=
  fun s => Returned tt (with_Player (f (Player s)) s).

(** A call that only produces output. *)
Definition call (e : Event) : Method unit :=
  fun s => Returned tt (logged e s).

(** [p->...]: the object behind a pointer, or a crash on [nullptr]. *)
Definition deref {A} (p : option A) : Method A :=
  match p with
  | Some a => ret a
  | None => crash NullDereference
  end.

(** The enemy object [id], read and updated in place. *)
Definition enemy (id : positive) : Method AEnemyCharacter :=
  fun s => Returned (Enemies s id) s.

Definition update_enemy (id : positive) (f : AEnemyCharacter -> AEnemyCharacter) : Method unit :=
  fun s => Returned tt (with_Enemies (<[id := f (Enemies s id)]> (Enemies s)) s).

(** A query answered outside this file. *)
Definition query {A} (f : State -> A) : Method A := fun s => Returned (f s) s.

(** ** What the file calls and does not define

    The queries of the base character class ([Super::...] and inherited
    helpers) and the engine functions whose results the code branches on.
    They are parameters of the model. *)
Record Externals := {
  (* base character class *)
  CanDodgeRoll : State -> bool;
  IsDodging : State -> bool;
  CanMove : State -> bool;
  IsJumping : State -> bool;
  IsPlayingFistAttackMontage : State -> bool;
  Super_OnMontageEnded : UAnimMontage -> bool -> State -> State;
  (* engine *)
  UObject_GetName : APlayerCharacter -> string;
  SphereTraceSingleForObjects : State -> SphereTrace -> bool * AActorPtr;
  FRotator_Vector : FRotator.t -> FVector.t;
  FindLookAtRotation : FVector.t -> FVector.t -> FRotator.t;
  RandRange : State -> Z -> Z -> Z
}.

(** ** Engine strings *)

Definition to_lower (c : ascii) : ascii :=
  let n := nat_of_ascii c in
  if ((65 <=? n)%nat && (n <=? 90)%nat)%bool then ascii_of_nat (n + 32) else c.

Fixpoint lower (s : string) : string :=
  match s with
  | EmptyString => EmptyString
  | String c s' => String (to_lower c) (lower s')
  end.

(** [FName == "literal"]: names compare without regard to case. *)
Definition FName_eq (a b : string) : bool := String.eqb (lower a) (lower b).

(** Does [s] start with [pat], case ignored? *)
Fixpoint StartsWith (pat s : string) : bool :=
  match pat, s with
  | EmptyString, _ => true
  | String _ _, EmptyString => false
  | String a pat', String b s' => (Ascii.eqb (to_lower a) (to_lower b) && StartsWith pat' s')%bool
  end.

(** [FString::Contains(SubStr)] with its default [ESearchCase::IgnoreCase]. *)
Fixpoint FString_Contains (s SubStr : string) : bool :=
  (StartsWith SubStr s ||
   match s with
   | EmptyString => false
   | String _ s' => FString_Contains s' SubStr
   end)%bool.

(** ** Containers of the engine *)

(** [Map[Key]] as an rvalue: the stored value; the key must be present. *)
Definition TMap_at (m : gmap UItemPtr Z) (Key : UItemPtr) : Method Z :=
  match m !! Key with
  | Some v => ret v
  | None => crash CheckFailed
  end.

(** [Array[Index]]: the index must be in range. *)
Definition TArray_at {A} (l : list A) (Index : Z) : Method A :=
  if Index <? 0 then crash CheckFailed
  else match l !! Z.to_nat Index with
       | Some a => ret a
       | None => crash CheckFailed
       end.

(** [FVector] arithmetic used by the trace. *)
Definition FVector_add (a b : FVector.t) : FVector.t :=
  FVector.mk (FVector.X a + FVector.X b)%float (FVector.Y a + FVector.Y b)%float
             (FVector.Z a + FVector.Z b)%float.

Definition FVector_scale (a : FVector.t) (k : float) : FVector.t :=
  FVector.mk (FVector.X a * k)%float (FVector.Y a * k)%float (FVector.Z a * k)%float.

Definition FVector_set_Z (a : FVector.t) (z : float) : FVector.t :=
  FVector.mk (FVector.X a) (FVector.Y a) z.

(** ** The methods of [APlayerCharacter] *)

Section Methods.
Variable E : Externals.

Definition SearchEnemyInFront : Method (bool * AActorPtr) :=
  p <- this ;;
  let StartLocation := ActorLocation p in
  let CameraRotation := FollowCamera_Rotation p in
  let EndLocation :=
    FVector_add StartLocation (FVector_scale (FRotator_Vector E CameraRotation) 1300) in
  let EndLocation := FVector_set_Z EndLocation (FVector.Z StartLocation) in
  let IgnoredActors := [OtherActor (Self p)] in
  query (fun s => SphereTraceSingleForObjects E s
                    {| TraceStart := StartLocation; TraceEnd := EndLocation;
                       TraceRadius := 500; IgnoredActors := IgnoredActors |}).

Definition CanSprint : Method bool :=
  can_move <- query (CanMove E) ;;
  p <- this ;;
  jumping <- query (IsJumping E) ;;
  ret (can_move && negb (IsCrouching p) && negb jumping)%bool.

Definition OnSprintStart : Method unit :=
  p <- this ;;
  if IsSprinting p then ret tt else
  can_sprint <- CanSprint ;;
  if negb can_sprint then ret tt else
  assign (set_IsSprinting true) ;;
  assign (fun p => set_CharacterMovementComponent
                     (set_MaxWalkSpeed (SprintSpeed p) (CharacterMovementComponent p)) p) ;;
  call WeaponSystem_StartSprint.

Definition OnSprintEnd : Method unit :=
  p <- this ;;
  if negb (IsSprinting p) then ret tt else
  assign (set_IsSprinting false) ;;
  assign (fun p => set_CharacterMovementComponent
                     (set_MaxWalkSpeed (WalkSpeed p) (CharacterMovementComponent p)) p) ;;
  call WeaponSystem_EndSprint.

Definition TryDodgeRoll : Method unit :=
  can_dodge <- query (CanDodgeRoll E) ;;
  if negb can_dodge then ret tt else
  dodging <- query (IsDodging E) ;;
  if dodging then ret tt else
  p <- this ;;
  if (negb (IsTargetLocking p) && bool_decide (CurrentAnimationState p = Unarmed))%bool
  then call (Montage_Play (DodgeRollForwardMontage p) 1)
  else if (0 <? FVector2D.X (CurrentMovementVector p))%float
  then call (Montage_Play (DodgeRollRightMontage p) 1)
  else if (FVector2D.X (CurrentMovementVector p) <? 0)%float
  then call (Montage_Play (DodgeRollLeftMontage p) 1)
  else if (FVector2D.Y (CurrentMovementVector p) <? 0)%float
  then call (Montage_Play (DodgeRollBackwardMontage p) 1)
  else call (Montage_Play (DodgeRollForwardMontage p) 1).

Definition UnlockTarget : Method unit :=
  assign (set_IsTargetLocking false) ;;
  p <- this ;;
  target <- deref (LockTargetEnemy p) ;;
  update_enemy target HideTargetWidget ;;
  assign (fun p => set_CharacterMovementComponent
                     (set_bOrientRotationToMovement true (CharacterMovementComponent p)) p) ;;
  assign (set_bUseControllerRotationYaw false).

Definition TryTargetLock : Method unit :=
  p <- this ;;
  if negb (bool_decide (CurrentAnimationState p = Unarmed)) then ret tt else
  if IsTargetLocking p then UnlockTarget
  else
    hit <- SearchEnemyInFront ;;
    let '(IsHit, OutHit_Actor) := hit in
    if IsHit then
      assign (set_LockTargetEnemy (Cast_AEnemyCharacter OutHit_Actor)) ;;
      p <- this ;;
      match LockTargetEnemy p with
      | Some target =>
          update_enemy target ShowTargetWidget ;;
          assign (fun p => set_CharacterMovementComponent
                     (set_bOrientRotationToMovement false (CharacterMovementComponent p)) p) ;;
          assign (set_bUseControllerRotationYaw true) ;;
          assign (set_IsTargetLocking true)
      | None => ret tt
      end
    else ret tt.

Definition Tick (DeltaSeconds : float) : Method unit :=
  call (Super_Tick DeltaSeconds) ;;
  p <- this ;;
  (if IsTargetLocking p then
     match LockTargetEnemy p with
     | Some target =>
         e <- enemy target ;;
         let LookAtRotation := FindLookAtRotation E (ActorLocation p) (EnemyLocation e) in
         (if PlayerController p then call (SetControlRotation LookAtRotation) else ret tt) ;;
         e <- enemy target ;;
         (if (IsExecutable e && TargetWidget_IsVisible e)%bool
          then update_enemy target HideTargetWidget else ret tt) ;;
         e <- enemy target ;;
         (if (negb (IsExecutable e) && negb (TargetWidget_IsVisible e))%bool
          then update_enemy target ShowTargetWidget else ret tt)
     | None => ret tt
     end ;;
     p <- this ;;
     target <- deref (LockTargetEnemy p) ;;
     e <- enemy target ;;
     if IsDead e then UnlockTarget else ret tt
   else ret tt) ;;
  call (GunCameraZoomTimeline_TickTimeline DeltaSeconds).

(** The part of [TryFistAttack] that looks for an enemy to execute; [true]
    when the execution montage was started (the method then returns). *)
Definition TryFistAttack_execute : Method bool :=
  hit <- SearchEnemyInFront ;;
  let '(IsHit, OutHit_Actor) := hit in
  if IsHit then
    match Cast_AEnemyCharacter OutHit_Actor with
    | Some InFrontEnemy =>
        e <- enemy InFrontEnemy ;;
        let IsInAttackRange := (DistanceToPlayer e <=? 130)%float in
        if (IsInAttackRange && IsExecutable e)%bool then
          assign (set_ExecutingTarget (Some InFrontEnemy)) ;;
          p <- this ;;
          call (Montage_Play (ExecutePunchAttackMontage p) 1) ;;
          ret true
        else ret false
    | None => ret false
    end
  else ret false.

Definition TryFistAttack : Method unit :=
  p <- this ;;
  match FistAttackMontages p with
  | [] =>
      call (AddOnScreenDebugMessage
              (String.append "FistAttackMontages is empty, " (UObject_GetName E p))) ;;
      call (UE_LOG_Error
              (String.append "FistAttackMontages is empty! " (UObject_GetName E p)))
  | _ :: _ =>
      executed <- TryFistAttack_execute ;;
      if executed then ret tt else
      playing <- query (IsPlayingFistAttackMontage E) ;;
      if negb playing then
        RandomIndex <- query (fun s => RandRange E s 0 (Z.of_nat (length (FistAttackMontages p)) - 1)) ;;
        RandomFistAttackMontage <- TArray_at (FistAttackMontages p) RandomIndex ;;
        call (Montage_Play RandomFistAttackMontage 1)
      else
        assign (set_IsMeleeAttackInputReceived true)
  end.

Definition OnPlayMontageNotifyBegin (NotifyName : string) : Method unit :=
  p <- this ;;
  (if (negb (IsMeleeAttackInputReceived p) && FName_eq NotifyName "ComboContinue")%bool
   then call (Montage_Stop 0x1.666666p-2) else ret tt) ;;
  (if FName_eq NotifyName "ComboContinue"
   then assign (set_IsMeleeAttackInputReceived false) else ret tt) ;;
  (if FName_eq NotifyName "Execute"
   then p <- this ;;
        target <- deref (ExecutingTarget p) ;;
        e <- enemy target ;;
        call (ApplyDamage target (MaxHp e))
   else ret tt) ;;
  (if FName_eq NotifyName "BeginPush"
   then call OnBeginPush_Broadcast else ret tt).

(** The engine hands [OnMontageEnded] the montage that ended, never
    [nullptr]. *)
Definition OnMontageEnded (Montage : UAnimMontage) (bInterrupted : bool) : Method unit :=
  (fun s => Returned tt (Super_OnMontageEnded E Montage bInterrupted s)) ;;
  if FString_Contains (GetName Montage) "Combo"
  then assign (set_IsMeleeAttackInputReceived false)
  else ret tt.

(** *** Inventory *)

Definition GetInventoryItemCount (Item : UItemPtr) : Method Z :=
  p <- this ;;
  match InventoryData p !! Item with
  | Some FoundItemCount => ret FoundItemCount
  | None => ret 0
  end.

Definition HasItem (Item : UItemPtr) : Method bool :=
  p <- this ;;
  ret (bool_decide (is_Some (InventoryData p !! Item))).

Definition AddInventoryItem (NewItem : UItemPtr) (ItemCount : Z) : Method bool :=
  match NewItem with
  | None =>
      call (AddOnScreenDebugMessage "AddInventoryItem: Failed trying to add null item!") ;;
      ret false
  | Some item =>
      if ItemCount <=? 0 then
        call (AddOnScreenDebugMessage "AddInventoryItem: ItemCount must be greater than 0!") ;;
        ret false
      else
        let MaxCount := MaxCount item in
        let MaxCount := if MaxCount <=? 0 then MAX_int32 else MaxCount in
        p <- this ;;
        if bool_decide (is_Some (InventoryData p !! NewItem)) then
          OldItemCount <- TMap_at (InventoryData p) NewItem ;;
          assign (fun p => set_InventoryData
                    (<[NewItem := FMath_Clamp (add_int32 OldItemCount ItemCount) 1 MaxCount]>
                       (InventoryData p)) p) ;;
          ret true
        else
          assign (fun p => set_InventoryData (<[NewItem := ItemCount]> (InventoryData p)) p) ;;
          call (OnPlayerAddItem_Broadcast item) ;;
          ret true
  end.

Definition RemoveInventoryItem (RemovedItem : UItemPtr) (RemoveCount : Z) : Method bool :=
  match RemovedItem with
  | None =>
      call (AddOnScreenDebugMessage "RemoveInventoryItem: Failed trying to remove null item!") ;;
      ret false
  | Some item =>
      ItemCount <- GetInventoryItemCount RemovedItem ;;
      if ItemCount <=? 0 then
        call (AddOnScreenDebugMessage
                "RemoveInventoryItem: Failed trying to remove item with 0 count!") ;;
        ret false
      else
        let ItemCount :=
          if RemoveCount <=? 0 then 0
          else FMath_Clamp (sub_int32 ItemCount RemoveCount) 0 (MaxCount item) in
        if 0 <? ItemCount then
          p <- this ;;
          _ <- TMap_at (InventoryData p) RemovedItem ;;
          assign (fun p => set_InventoryData (<[RemovedItem := ItemCount]> (InventoryData p)) p) ;;
          ret true
        else
          assign (fun p => set_InventoryData (delete RemovedItem (InventoryData p)) p) ;;
          ret true
  end.

Definition UseItem (Item : UItemPtr) : Method bool :=
  count <- GetInventoryItemCount Item ;;
  if count <=? 0 then
    call (AddOnScreenDebugMessage "No Item in Inventory") ;;
    ret false
  else
    IsRemoveItemSuccessful <- RemoveInventoryItem Item 1 ;;
    (if IsRemoveItemSuccessful : bool then
       call Heal_HalfMaxHp ;;
       call OnPlayerUseItem_Broadcast
     else ret tt) ;;
    ret IsRemoveItemSuccessful.

End Methods.

(** The count [RemoveInventoryItem] computes for an item held [c] times. *)
Definition remaining (item : UItem) (c RemoveCount : Z) : Z :=
  if RemoveCount <=? 0 then 0
  else FMath_Clamp (sub_int32 c RemoveCount) 0 (MaxCount item).

(** *** Sequences of inventory calls *)

Inductive InventoryCall :=
| Call_AddInventoryItem (NewItem : UItemPtr) (ItemCount : Z)
| Call_RemoveInventoryItem (RemovedItem : UItemPtr) (RemoveCount : Z)
| Call_UseItem (Item : UItemPtr).

Definition run_call (c : InventoryCall) : Method bool :=
  match c with
  | Call_AddInventoryItem NewItem ItemCount => AddInventoryItem NewItem ItemCount
  | Call_RemoveInventoryItem RemovedItem RemoveCount => RemoveInventoryItem RemovedItem RemoveCount
  | Call_UseItem Item => UseItem Item
  end.

Fixpoint run_calls (cs : list InventoryCall) : Method unit :=
  match cs with
  | [] => ret tt
  | c :: cs' => run_call c ;; run_calls cs'
  end.

(** Every stored count is at least 1. *)
Definition counts_positive (m : gmap UItemPtr Z) : Prop :=
  forall (Item : UItemPtr) (c : Z), m !! Item = Some c -> 1 <= c.

(** *** Target lock *)

(** While the player is target-locking, the locked enemy is not [nullptr]. *)
Definition lock_has_target (p : APlayerCharacter) : Prop :=
  IsTargetLocking p = true -> LockTargetEnemy p <> None.

(** The calls that write [IsTargetLocking] or [LockTargetEnemy]. *)
Inductive LockCall :=
| Call_TryTargetLock
| Call_UnlockTarget
| Call_Tick (DeltaSeconds : float).

Definition run_lock_call (E : Externals) (c : LockCall) : Method unit :=
  match c with
  | Call_TryTargetLock => TryTargetLock E
  | Call_UnlockTarget => UnlockTarget
  | Call_Tick DeltaSeconds => Tick E DeltaSeconds
  end.

Fixpoint run_lock_calls (E : Externals) (cs : list LockCall) : Method unit :=
  match cs with
  | [] => ret tt
  | c :: cs' => run_lock_call E c ;; run_lock_calls E cs'
  end.

(** *** Fist attack *)

(** The enemy [TryFistAttack] executes, if any: the enemy character the
    trace in front hits, when it is executable and at most 130 units away. *)
Definition InFrontExecutable (E : Externals) (s : State) : AEnemyCharacterPtr :=
  match SearchEnemyInFront E s with
  | Returned (true, Actor) _ =>
      match Cast_AEnemyCharacter Actor with
      | Some id =>
          if ((DistanceToPlayer (Enemies s id) <=? 130)%float && IsExecutable (Enemies s id))%bool
          then Some id else None
      | None => None
      end
  | _ => None
  end.

(** *** Dodge roll: the montage the code picks *)

Inductive DodgeDirection := RollForward | RollRight | RollLeft | RollBackward.

Definition DodgeMontage (p : APlayerCharacter) (d : DodgeDirection) : UAnimMontage :=
  match d with
  | RollForward => DodgeRollForwardMontage p
  | RollRight => DodgeRollRightMontage p
  | RollLeft => DodgeRollLeftMontage p
  | RollBackward => DodgeRollBackwardMontage p
  end.

(** ** The Transporter component

    [Transporter.h] declares the component; [Transporter.cpp] is not part of
    the sources.  The members are those of the header that the movement
    needs. *)

Module Transporter.

Local Open Scope Q_scope.

(** A point of space; coordinates are rationals, so that places on the path
    are exact. *)
Record Point := { PX : Q; PY : Q; PZ : Q }.

Definition Point_eq (a b : Point) : Prop :=
  PX a == PX b /\ PY a == PY b /\ PZ a == PZ b.

(** The point at fraction [a] of the way from [p] to [q]. *)
Definition Lerp (p q : Point) (a : Q) : Point :=
  {| PX := PX p + a * (PX q - PX p);
     PY := PY p + a * (PY q - PY p);
     PZ := PZ p + a * (PZ q - PZ p) |}.

(** Modelled from the spec: the members are those of the header; the
    location of the owner actor, which the missing [TickComponent] moves, is
    kept as its place on the path.  [Travelled] is the time the owner needs
    from [StartPoint] to where it is now, between [0] (at [StartPoint]) and
    [MoveTime] (at [EndPoint]). *)
Record UTransporter := {
  StartPoint : Point;
  EndPoint : Point;
  ArePointsSet : bool;
  MoveTime : Q;
  IsTriggered : bool;
  Travelled : Q
}.


Definition OwnerLocation (t : UTransporter) : Point :=
  Lerp (StartPoint t) (EndPoint t) (Travelled t / MoveTime t).

Definition set_IsTriggered (v : bool) (t : UTransporter) : UTransporter :=
  {| StartPoint := StartPoint t; EndPoint := EndPoint t; ArePointsSet := ArePointsSet t;
     MoveTime := MoveTime t; IsTriggered := v; Travelled := Travelled t |}.

Definition set_Travelled (v : Q) (t : UTransporter) : UTransporter :=
  {| StartPoint := StartPoint t; EndPoint := EndPoint t; ArePointsSet := ArePointsSet t;
     MoveTime := MoveTime t; IsTriggered := IsTriggered t; Travelled := v |}.

(** Modelled from the spec: [UTransporter::OnButtonActivated] and
    [OnButtonDeactivated] are missing; they switch [IsTriggered], the member
    the header declares for "when triggered". *)
Definition OnButtonActivated (t : UTransporter) : UTransporter := set_IsTriggered true t.

(** Modelled from the spec: [UTransporter::TickComponent] is missing.  "Moves
    its owner actor between two fixed points over a configured duration when
    triggered": once the points are set, a tick of [DeltaTime] seconds
    carries the owner [DeltaTime] seconds further along the path, which
    takes [MoveTime] seconds from end to end; towards [EndPoint] while
    triggered and back towards [StartPoint] while not, never past either
    point. *)
Definition TickComponent (DeltaTime : Q) (t : UTransporter) : UTransporter :=
  if ArePointsSet t then
    if IsTriggered t then
      let next := Travelled t + DeltaTime in
      set_Travelled (if Qle_bool (MoveTime t) next then MoveTime t else next) t
    else
      let next := Travelled t - DeltaTime in
      set_Travelled (if Qle_bool next 0 then 0 else next) t
  else t.

Fixpoint run_ticks (DeltaTimes : list Q) (t : UTransporter) : UTransporter :=
  match DeltaTimes with
  | [] => t
  | DeltaTime :: rest => run_ticks rest (TickComponent DeltaTime t)
  end.



End Transporter.

(** ** Concrete data for the examples *)

Module Sample.

Definition origin : FVector.t := FVector.mk 0 0 0.
Definition level : FRotator.t := FRotator.mk 0 0 0.
Definition montage (name : string) : UAnimMontage := {| GetName := name |}.

(** An item capped at five, and an item without a cap ([MaxCount] 0). *)
Definition vinegar : UItem := {| ItemId := 1; MaxCount := 5 |}.
Definition pebble : UItem := {| ItemId := 2; MaxCount := 0 |}.

Definition player : APlayerCharacter :=
  {| Self := 1;
     ActorLocation := origin;
     FollowCamera_Rotation := level;
     PlayerController := true;
     CharacterMovementComponent := {| MaxWalkSpeed := 500; bOrientRotationToMovement := true |};
     bUseControllerRotationYaw := false;
     CurrentAnimationState := Unarmed;
     CurrentMovementVector := FVector2D.mk 0 0;
     IsTargetLocking := false;
     LockTargetEnemy := None;
     ExecutingTarget := None;
     IsMeleeAttackInputReceived := false;
     IsSprinting := false;
     IsCrouching := false;
     WalkSpeed := 500;
     SprintSpeed := 800;
     FistAttackMontages := [montage "FistCombo_A"; montage "FistCombo_B"];
     ExecutePunchAttackMontage := montage "ExecutePunch";
     DodgeRollForwardMontage := montage "DodgeRollForward";
     DodgeRollRightMontage := montage "DodgeRollRight";
     DodgeRollLeftMontage := montage "DodgeRollLeft";
     DodgeRollBackwardMontage := montage "DodgeRollBackward";
     InventoryData := ∅ |}.

(** The same player without fist-attack montages. *)
Definition unprepared : APlayerCharacter :=
  {| Self := 1;
     ActorLocation := origin;
     FollowCamera_Rotation := level;
     PlayerController := true;
     CharacterMovementComponent := {| MaxWalkSpeed := 500; bOrientRotationToMovement := true |};
     bUseControllerRotationYaw := false;
     CurrentAnimationState := Unarmed;
     CurrentMovementVector := FVector2D.mk 0 0;
     IsTargetLocking := false;
     LockTargetEnemy := None;
     ExecutingTarget := None;
     IsMeleeAttackInputReceived := false;
     IsSprinting := false;
     IsCrouching := false;
     WalkSpeed := 500;
     SprintSpeed := 800;
     FistAttackMontages := [];
     ExecutePunchAttackMontage := montage "ExecutePunch";
     DodgeRollForwardMontage := montage "DodgeRollForward";
     DodgeRollRightMontage := montage "DodgeRollRight";
     DodgeRollLeftMontage := montage "DodgeRollLeft";
     DodgeRollBackwardMontage := montage "DodgeRollBackward";
     InventoryData := ∅ |}.

Definition grunt : AEnemyCharacter :=
  {| IsExecutable := false; TargetWidget_IsVisible := false; IsDead := false;
     MaxHp := 100; EnemyLocation := FVector.mk 300 0 0; DistanceToPlayer := 300 |}.

(** An enemy that can be executed, within punching distance. *)
Definition staggered : AEnemyCharacter :=
  {| IsExecutable := true; TargetWidget_IsVisible := false; IsDead := false;
     MaxHp := 100; EnemyLocation := FVector.mk 100 0 0; DistanceToPlayer := 100 |}.

(** A world of enemies like [e], nothing logged yet. *)
Definition arena (e : AEnemyCharacter) (p : APlayerCharacter) : State :=
  {| Player := p; Enemies := fun _ => e; Log := [] |}.

Definition state (p : APlayerCharacter) : State := arena grunt p.

(** The player locked on enemy 7. *)
Definition locked_player : APlayerCharacter :=
  set_IsTargetLocking true (set_LockTargetEnemy (Some 7%positive) player).

Definition state_with (inventory : gmap UItemPtr Z) : State :=
  state (set_InventoryData inventory player).

(** A world in which the trace finds what [hit] says, the character may move
    and dodge, and [playing] tells whether a fist-attack montage plays. *)
Definition world (hit : bool * AActorPtr) (playing : bool) : Externals :=
  {| CanDodgeRoll := fun _ => true;
     IsDodging := fun _ => false;
     CanMove := fun _ => true;
     IsJumping := fun _ => false;
     IsPlayingFistAttackMontage := fun _ => playing;
     Super_OnMontageEnded := fun _ _ s => s;
     UObject_GetName := fun _ => "BP_PlayerCharacter_C_0"%string;
     SphereTraceSingleForObjects := fun _ _ => hit;
     FRotator_Vector := fun _ => FVector.mk 1 0 0;
     FindLookAtRotation := fun _ _ => level;
     RandRange := fun _ Min _ => Min |}.

Definition lift : Transporter.UTransporter :=
  {| Transporter.StartPoint := {| Transporter.PX := 0; Transporter.PY := 0; Transporter.PZ := 0 |};
     Transporter.EndPoint := {| Transporter.PX := 0; Transporter.PY := 0; Transporter.PZ := 10 |};
     Transporter.ArePointsSet := true;
     Transporter.MoveTime := 2;
     Transporter.IsTriggered := false;
     Transporter.Travelled := 0 |}.

End Sample.

(** ** Further definitions for the inventory *)

(** The item a call is about. *)
Definition call_item (c : InventoryCall) : UItemPtr :=
  match c with
  | Call_AddInventoryItem NewItem _ => NewItem
  | Call_RemoveInventoryItem RemovedItem _ => RemovedItem
  | Call_UseItem Item => Item
  end.

(** What a call about [Item] leaves alone in the inventory: the entries of
    the other items. *)
Definition inventory_frame (Item : UItemPtr) (s s' : State) : Prop :=
  forall Other : UItemPtr,
    Other <> Item ->
    InventoryData (Player s') !! Other = InventoryData (Player s) !! Other.

(** No stored count of an item with a positive [MaxCount] is above it. *)
Definition within_caps (m : gmap UItemPtr Z) : Prop :=
  forall (item : UItem) (c : Z),
    m !! Some item = Some c -> 0 < MaxCount item -> c <= MaxCount item.

(** A call that does not ask to add more of a capped item than its
    [MaxCount]. *)
Definition asks_within_cap (c : InventoryCall) : Prop :=
  match c with
  | Call_AddInventoryItem (Some item) ItemCount =>
      0 < MaxCount item -> ItemCount <= MaxCount item
  | _ => True
  end.

(** ** Further definitions for the target lock *)

(** [p] with the four members the target-lock code writes taken from [q]. *)
Definition lock_members_of (q p : APlayerCharacter) : APlayerCharacter :=
  set_IsTargetLocking (IsTargetLocking q)
    (set_LockTargetEnemy (LockTargetEnemy q)
       (set_bUseControllerRotationYaw (bUseControllerRotationYaw q)
          (set_CharacterMovementComponent
             (set_bOrientRotationToMovement
                (bOrientRotationToMovement (CharacterMovementComponent q))
                (CharacterMovementComponent p)) p))).

(** Two states of an enemy that differ at most in whether the target widget
    is visible. *)
Definition same_but_widget (e e' : AEnemyCharacter) : Prop :=
  IsExecutable e' = IsExecutable e /\
  IsDead e' = IsDead e /\
  MaxHp e' = MaxHp e /\
  EnemyLocation e' = EnemyLocation e /\
  DistanceToPlayer e' = DistanceToPlayer e.

(** What a target-lock call may change: the four lock members of the
    player, and the target widget of the enemy that was or becomes the
    lock target. *)
Definition lock_frame (s s' : State) : Prop :=
  Player s' = lock_members_of (Player s') (Player s) /\
  (forall id : positive, same_but_widget (Enemies s id) (Enemies s' id)) /\
  (forall id : positive,
     LockTargetEnemy (Player s) <> Some id ->
     LockTargetEnemy (Player s') <> Some id ->
     Enemies s' id = Enemies s id).

(** ** The rest of the player character

    The members and methods of [APlayerCharacter] that the definitions above
    do not use.  They form a second layer: a [World] is a [State] together
    with the further members and the further calls into the engine, and an
    [Action] is a method over a [World].  A method of the first layer runs
    in a [World] through [lift]; its output stays in the [Log] of the
    [State], the output of this layer goes to [Calls]. *)

Inductive ESlateVisibility :=
| Visible | Collapsed | Hidden | HitTestInvisible | SelfHitTestInvisible.

(** The further members.  [Controller], [CrosshairWidgetClass] and
    [GameInstance] tell whether the pointer is set; [CrosshairWidget] is
    [nullptr] or the widget with its visibility. *)
Record APlayerCharacter_rest := {
  Controller : bool;
  GameInstance : bool;
  CrouchSpeed : float;
  CurrentSlotItem : UItemPtr;
  IsGunZooming : bool;
  IsMovingInputPressing : bool;
  CrosshairWidgetClass : bool;
  CrosshairWidget : option ESlateVisibility;
  BlockMontage : UAnimMontage;
  BlockMontagePlayRate : float;
  FocusActor : AActorPtr;
  CloseActors : list AActor
}.

Definition set_IsGunZooming (v : bool) (r : APlayerCharacter_rest) : APlayerCharacter_rest :=
  {| Controller := Controller r; GameInstance := GameInstance r;
     CrouchSpeed := CrouchSpeed r; CurrentSlotItem := CurrentSlotItem r;
     IsGunZooming := v; IsMovingInputPressing := IsMovingInputPressing r;
     CrosshairWidgetClass := CrosshairWidgetClass r; CrosshairWidget := CrosshairWidget r;
     BlockMontage := BlockMontage r; BlockMontagePlayRate := BlockMontagePlayRate r;
     FocusActor := FocusActor r; CloseActors := CloseActors r |}.

Definition set_IsMovingInputPressing (v : bool) (r : APlayerCharacter_rest) :
  APlayerCharacter_rest :=
  {| Controller := Controller r; GameInstance := GameInstance r;
     CrouchSpeed := CrouchSpeed r; CurrentSlotItem := CurrentSlotItem r;
     IsGunZooming := IsGunZooming r; IsMovingInputPressing := v;
     CrosshairWidgetClass := CrosshairWidgetClass r; CrosshairWidget := CrosshairWidget r;
     BlockMontage := BlockMontage r; BlockMontagePlayRate := BlockMontagePlayRate r;
     FocusActor := FocusActor r; CloseActors := CloseActors r |}.

Definition set_CrosshairWidget (v : option ESlateVisibility) (r : APlayerCharacter_rest) :
  APlayerCharacter_rest :=
  {| Controller := Controller r; GameInstance := GameInstance r;
     CrouchSpeed := CrouchSpeed r; CurrentSlotItem := CurrentSlotItem r;
     IsGunZooming := IsGunZooming r; IsMovingInputPressing := IsMovingInputPressing r;
     CrosshairWidgetClass := CrosshairWidgetClass r; CrosshairWidget := v;
     BlockMontage := BlockMontage r; BlockMontagePlayRate := BlockMontagePlayRate r;
     FocusActor := FocusActor r; CloseActors := CloseActors r |}.

Definition set_FocusActor (v : AActorPtr) (r : APlayerCharacter_rest) : APlayerCharacter_rest :=
  {| Controller := Controller r; GameInstance := GameInstance r;
     CrouchSpeed := CrouchSpeed r; CurrentSlotItem := CurrentSlotItem r;
     IsGunZooming := IsGunZooming r; IsMovingInputPressing := IsMovingInputPressing r;
     CrosshairWidgetClass := CrosshairWidgetClass r; CrosshairWidget := CrosshairWidget r;
     BlockMontage := BlockMontage r; BlockMontagePlayRate := BlockMontagePlayRate r;
     FocusActor := v; CloseActors := CloseActors r |}.

Definition set_CloseActors (v : list AActor) (r : APlayerCharacter_rest) :
  APlayerCharacter_rest :=
  {| Controller := Controller r; GameInstance := GameInstance r;
     CrouchSpeed := CrouchSpeed r; CurrentSlotItem := CurrentSlotItem r;
     IsGunZooming := IsGunZooming r; IsMovingInputPressing := IsMovingInputPressing r;
     CrosshairWidgetClass := CrosshairWidgetClass r; CrosshairWidget := CrosshairWidget r;
     BlockMontage := BlockMontage r; BlockMontagePlayRate := BlockMontagePlayRate r;
     FocusActor := FocusActor r; CloseActors := v |}.

Definition set_IsCrouching (v : bool) (p : APlayerCharacter) : APlayerCharacter :=
  {| Self := Self p; ActorLocation := ActorLocation p;
     FollowCamera_Rotation := FollowCamera_Rotation p;
     PlayerController := PlayerController p;
     CharacterMovementComponent := CharacterMovementComponent p;
     bUseControllerRotationYaw := bUseControllerRotationYaw p;
     CurrentAnimationState := CurrentAnimationState p;
     CurrentMovementVector := CurrentMovementVector p;
     IsTargetLocking := IsTargetLocking p;
     LockTargetEnemy := LockTargetEnemy p;
     ExecutingTarget := ExecutingTarget p;
     IsMeleeAttackInputReceived := IsMeleeAttackInputReceived p;
     IsSprinting := IsSprinting p; IsCrouching := v;
     WalkSpeed := WalkSpeed p; SprintSpeed := SprintSpeed p;
     FistAttackMontages := FistAttackMontages p;
     ExecutePunchAttackMontage := ExecutePunchAttackMontage p;
     DodgeRollForwardMontage := DodgeRollForwardMontage p;
     DodgeRollRightMontage := DodgeRollRightMontage p;
     DodgeRollLeftMontage := DodgeRollLeftMontage p;
     DodgeRollBackwardMontage := DodgeRollBackwardMontage p;
     InventoryData := InventoryData p |}.

(** The further calls into the engine and into other objects, in order. *)
Inductive EngineCall :=
| Crouch
| UnCrouch
| Jump
| AddMovementInput (WorldDirection : FVector.t) (ScaleValue : float)
| OnPlayerFire_Broadcast
| WeaponSystem_TryFire
| WeaponSystem_OnFireActionEnd
| GunCameraZoomTimeline_Stop
| GunCameraZoomTimeline_PlayFromStart
| GunCameraZoomTimeline_ReverseFromEnd
| GunCameraZoomTimeline_SetPlaybackPosition (NewPosition : float) (bFireEvents : bool)
| OnGunZoomIn_Broadcast
| OnGunZoomOut_Broadcast
| CrosshairWidget_AddToViewport
| GameInstance_TogglePauseGame
| Execute_Interact (Actor : AActor)
| Execute_ToggleOutline (Actor : AActor) (bValue : bool)
| Execute_StartCheckAndUpdateWidgetVisibleTimer (Actor : AActor).

Record World := {
  Core : State;
  Rest : APlayerCharacter_rest;
  Calls : list EngineCall
}.

Definition with_Core (s : State) (w : World) : World :=
  {| Core := s; Rest := Rest w; Calls := Calls w |}.

Definition with_Rest (r : APlayerCharacter_rest) (w : World) : World :=
  {| Core := Core w; Rest := r; Calls := Calls w |}.

Definition called (c : EngineCall) (w : World) : World :=
  {| Core := Core w; Rest := Rest w; Calls := Calls w ++ [c] |}.

Inductive Result (A : Type) :=
| Done (a : A) (w : World)
| Failed (f : Fault).
Arguments Done {A} a w.
Arguments Failed {A} f.

Definition Action (A : Type) : Type := World -> Result A.

Global Instance Action_ret : MRet Action := fun A a w => Done a w.

Global Instance Action_bind : MBind Action :=
  fun A B k m w => match m w with
                   | Done a w' => k a w'
                   | Failed f => Failed f
                   end.

(** A method of the first layer, run on the [State] of the world. *)
Definition lift {A} (m : Method A) : Action A :=
  fun w => match m (Core w) with
           | Returned a s => Done a (with_Core s w)
           | Crashed f => Failed f
           end.

(** The members of the player as they are now. *)
Definition player : Action APlayerCharacter := fun w => Done (Player (Core w)) w.
Definition rest : Action APlayerCharacter_rest := fun w => Done (Rest w) w.

Definition assign_rest (f : APlayerCharacter_rest -> APlayerCharacter_rest) : Action unit :=
  fun w => Done tt (with_Rest (f (Rest w)) w).

Definition emit (c : EngineCall) : Action unit := fun w => Done tt (called c w).

Definition ask {A} (f : World -> A) : Action A := fun w => Done (f w) w.

(** A method of the base class that may change anything. *)
Definition super (f : World -> World) : Action unit := fun w => Done tt (f w).

Definition fail {A} (f : Fault) : Action A := fun _ => Failed f.

Definition skip : Action unit := mret tt.

(** What this layer calls and the file does not define. *)
Record RestExternals := {
  Base : Externals;
  (* base character class *)
  Super_CanUseItem : World -> bool;
  Super_CanOsu : World -> bool;
  Super_CanAttack : World -> bool;
  Super_CanPunch : World -> bool;
  Super_CanFire : World -> bool;
  Super_CanGuard : World -> bool;
  Super_CanCharacterJump : World -> bool;
  IsMoving : World -> bool;
  Super_TryGuard : World -> World;
  Super_SetAnimationState : EAnimationState -> World -> World;
  (* engine *)
  LineTraceUp_bBlockingHit : World -> bool;
  CreateWidget : World -> option ESlateVisibility;
  SphereOverlapActors : World -> bool * list AActor;
  GetDistanceTo : World -> AActor -> float;
  GetControlRotation : World -> FRotator.t;
  GetUnitAxis_X : FRotator.t -> FVector.t;
  GetUnitAxis_Y : FRotator.t -> FVector.t;
  GunCameraZoomTimeline_GetPlaybackPosition : World -> float;
  (* interactable objects *)
  Cast_IInteractableInterface : AActor -> bool;
  Execute_IsEnable : World -> AActor -> bool;
  Execute_IsInteractiveHUDVisible : World -> AActor -> bool
}.

Section RestMethods.
Variable E : RestExternals.

Definition CanUseItem : Action bool :=
  super_can ← ask (Super_CanUseItem E);
  p ← player;
  r ← rest;
  has ← lift (HasItem (CurrentSlotItem r));
  mret (super_can && (0 <? Z.of_nat (size (InventoryData p))) && has
        && negb (IsCrouching p))%bool.

Definition CanOsu : Action bool :=
  super_can ← ask (Super_CanOsu E);
  p ← player;
  mret (super_can && negb (IsCrouching p))%bool.

Definition CanCrouch : Action bool :=
  can_move ← lift (query (CanMove (Base E)));
  jumping ← lift (query (IsJumping (Base E)));
  mret (can_move && negb jumping)%bool.

(** The line trace from the player 100 units along its up vector, on the
    visibility channel, ignoring the player: only whether it is blocked
    matters. *)
Definition CanUncrouch : Action bool :=
  IsSomethingAbovePlayer ← ask (LineTraceUp_bBlockingHit E);
  jumping ← lift (query (IsJumping (Base E)));
  mret (negb IsSomethingAbovePlayer && negb jumping)%bool.

Definition CanAttack : Action bool :=
  super_can ← ask (Super_CanAttack E);
  p ← player;
  mret (super_can && negb (IsSprinting p))%bool.

Definition CanPunch : Action bool :=
  super_can ← ask (Super_CanPunch E);
  p ← player;
  mret (super_can && negb (IsCrouching p))%bool.

Definition CanFire : Action bool :=
  p ← player;
  if IsCrouching p then
    super_can ← ask (Super_CanFire E);
    moving ← ask (IsMoving E);
    mret (super_can && negb moving)%bool
  else ask (Super_CanFire E).

Definition CanGuard : Action bool :=
  super_can ← ask (Super_CanGuard E);
  p ← player;
  mret (super_can && negb (IsCrouching p))%bool.

Definition CanCharacterJump : Action bool :=
  super_can ← ask (Super_CanCharacterJump E);
  p ← player;
  dodging ← lift (query (IsDodging (Base E)));
  mret (super_can && negb (IsCrouching p) && negb dodging)%bool.

Definition TryJump : Action unit :=
  can ← CanCharacterJump;
  if negb can then skip else emit Jump.

Definition OnMoveActionStart : Action unit := assign_rest (set_IsMovingInputPressing true).
Definition OnMoveActionRelease : Action unit := assign_rest (set_IsMovingInputPressing false).

Definition IsMoveInputBeingPressed : Action bool :=
  r ← rest; mret (IsMovingInputPressing r).

Definition Move (Value : FVector2D.t) : Action unit :=
  can_move ← lift (query (CanMove (Base E)));
  if negb can_move then skip else
  _ ← lift (assign (set_CurrentMovementVector Value));
  r ← rest;
  if Controller r then
    Rotation ← ask (GetControlRotation E);
    let YawRotation := FRotator.mk 0 (FRotator.Yaw Rotation) 0 in
    let ForwardDirection := GetUnitAxis_X E YawRotation in
    let RightDirection := GetUnitAxis_Y E YawRotation in
    p ← player;
    _ ← emit (AddMovementInput ForwardDirection
                (double_to_float (FVector2D.Y (CurrentMovementVector p))));
    emit (AddMovementInput RightDirection
            (double_to_float (FVector2D.X (CurrentMovementVector p))))
  else skip.

Definition TryCrouch : Action unit :=
  can ← CanCrouch;
  if negb can then skip else
  p ← player;
  if IsCrouching p then
    can_uncrouch ← CanUncrouch;
    if negb can_uncrouch then skip else
    _ ← emit UnCrouch;
    _ ← lift (assign (fun p => set_CharacterMovementComponent
                        (set_MaxWalkSpeed (WalkSpeed p) (CharacterMovementComponent p)) p));
    lift (assign (set_IsCrouching false))
  else
    _ ← emit Crouch;
    r ← rest;
    _ ← lift (assign (fun p => set_CharacterMovementComponent
                        (set_MaxWalkSpeed (CrouchSpeed r) (CharacterMovementComponent p)) p));
    lift (assign (set_IsCrouching true)).

Definition ShowCrosshair : Action unit :=
  r ← rest;
  match CrosshairWidget r with
  | Some _ => assign_rest (set_CrosshairWidget (Some Visible))
  | None => fail NullDereference
  end.

Definition HideCrosshair : Action unit :=
  r ← rest;
  match CrosshairWidget r with
  | Some _ => assign_rest (set_CrosshairWidget (Some Hidden))
  | None => fail NullDereference
  end.

Definition SetupCrosshairWidget : Action unit :=
  r ← rest;
  if negb (CrosshairWidgetClass r) then
    lift (call (AddOnScreenDebugMessage "CrosshairWidgetClass is null"))
  else
    widget ← ask (CreateWidget E);
    _ ← assign_rest (set_CrosshairWidget widget);
    match widget with
    | Some _ => _ ← emit CrosshairWidget_AddToViewport; HideCrosshair
    | None => skip
    end.

Definition SetAnimationState (NewAnimationState : EAnimationState) : Action unit :=
  _ ← super (Super_SetAnimationState E NewAnimationState);
  p ← player;
  match CurrentAnimationState p with
  | Unarmed =>
      _ ← lift (assign (fun p => set_CharacterMovementComponent
                  (set_bOrientRotationToMovement true (CharacterMovementComponent p)) p));
      _ ← lift (assign (set_bUseControllerRotationYaw false));
      HideCrosshair
  | Pistol =>
      _ ← lift (assign (fun p => set_CharacterMovementComponent
                  (set_bOrientRotationToMovement false (CharacterMovementComponent p)) p));
      _ ← lift (assign (set_bUseControllerRotationYaw true));
      ShowCrosshair
  | Rifle =>
      _ ← lift (assign (fun p => set_CharacterMovementComponent
                  (set_bOrientRotationToMovement false (CharacterMovementComponent p)) p));
      _ ← lift (assign (set_bUseControllerRotationYaw true));
      ShowCrosshair
  end.

Definition OnAttackActionEnd : Action unit :=
  p ← player;
  if negb (bool_decide (CurrentAnimationState p = Unarmed))
  then emit WeaponSystem_OnFireActionEnd else skip.

Definition TryAttack : Action unit :=
  can ← CanAttack;
  if negb can then skip else
  p ← player;
  if bool_decide (CurrentAnimationState p = Unarmed) then
    can_punch ← CanPunch;
    if can_punch : bool then lift (TryFistAttack (Base E)) else skip
  else
    can_fire ← CanFire;
    if can_fire : bool then
      _ ← emit OnPlayerFire_Broadcast;
      emit WeaponSystem_TryFire
    else skip.

Definition TryGuard : Action unit :=
  can ← CanGuard;
  if negb can then skip else
  _ ← super (Super_TryGuard E);
  r ← rest;
  lift (call (Montage_Play (BlockMontage r) (BlockMontagePlayRate r))).

Definition GunZoomInCamera : Action unit :=
  _ ← assign_rest (set_IsGunZooming true);
  CurrentPlaybackPosition ← ask (GunCameraZoomTimeline_GetPlaybackPosition E);
  _ ← emit GunCameraZoomTimeline_PlayFromStart;
  _ ← emit (GunCameraZoomTimeline_SetPlaybackPosition CurrentPlaybackPosition true);
  emit OnGunZoomIn_Broadcast.

Definition GunZoomOutCamera : Action unit :=
  _ ← assign_rest (set_IsGunZooming false);
  CurrentPlaybackPosition ← ask (GunCameraZoomTimeline_GetPlaybackPosition E);
  _ ← emit GunCameraZoomTimeline_ReverseFromEnd;
  _ ← emit (GunCameraZoomTimeline_SetPlaybackPosition CurrentPlaybackPosition true);
  emit OnGunZoomOut_Broadcast.

Definition TryGuardOrZoom : Action unit :=
  p ← player;
  if bool_decide (CurrentAnimationState p = Unarmed) then TryGuard
  else
    r ← rest;
    if negb (IsGunZooming r) then
      _ ← emit GunCameraZoomTimeline_Stop;
      GunZoomInCamera
    else skip.

Definition TryZoomOut : Action unit :=
  p ← player;
  if bool_decide (CurrentAnimationState p = Unarmed) then skip else
  r ← rest;
  if IsGunZooming r then
    _ ← emit GunCameraZoomTimeline_Stop;
    GunZoomOutCamera
  else skip.

Definition Interact : Action unit :=
  r ← rest;
  match FocusActor r with
  | Some Actor =>
      if Cast_IInteractableInterface E Actor then
        enabled ← ask (fun w => Execute_IsEnable E w Actor);
        if enabled : bool then emit (Execute_Interact Actor) else skip
      else skip
  | None => skip
  end.

(** One round of the loop of [FindAndHighlightInteractableObjectNearPlayer]
    over [CloseActors]: the state is [(MinDistance, ClosestInteractableObject)]. *)
Definition closer (w : World) (acc : float * AActorPtr) (OverlappingActor : AActor) :
  float * AActorPtr :=
  let Distance := GetDistanceTo E w OverlappingActor in
  if (Distance <? fst acc)%float then (Distance, Some OverlappingActor) else acc.

Definition closest (w : World) (actors : list AActor) : float * AActorPtr :=
  foldl (closer w) (1000000%float, None) actors.

Definition FindAndHighlightInteractableObjectNearPlayer : Action unit :=
  overlap ← ask (SphereOverlapActors E);
  let '(IsHit, OutActors) := overlap in
  _ ← assign_rest (set_CloseActors OutActors);
  if IsHit : bool then
    r ← rest;
    found ← ask (fun w => closest w (CloseActors r));
    let ClosestInteractableObject := snd found in
    _ ← assign_rest (set_FocusActor ClosestInteractableObject);
    match ClosestInteractableObject with
    | Some Actor =>
        if Cast_IInteractableInterface E Actor then
          hud ← ask (fun w => Execute_IsInteractiveHUDVisible E w Actor);
          if negb hud then
            enabled ← ask (fun w => Execute_IsEnable E w Actor);
            if enabled : bool then
              _ ← emit (Execute_ToggleOutline Actor true);
              emit (Execute_StartCheckAndUpdateWidgetVisibleTimer Actor)
            else skip
          else skip
        else skip
    | None => skip
    end
  else skip.

Definition TogglePauseGame : Action unit :=
  r ← rest;
  if GameInstance r then emit GameInstance_TogglePauseGame else fail NullDereference.

Definition UseSlotItem : Action bool :=
  r ← rest;
  lift (UseItem (CurrentSlotItem r)).

End RestMethods.

(** ** Concrete data for the examples of the second layer *)

Module SampleRest.

Definition members : APlayerCharacter_rest :=
  {| Controller := true;
     GameInstance := true;
     CrouchSpeed := 200;
     CurrentSlotItem := Some Sample.vinegar;
     IsGunZooming := false;
     IsMovingInputPressing := false;
     CrosshairWidgetClass := true;
     CrosshairWidget := Some Hidden;
     BlockMontage := Sample.montage "Block";
     BlockMontagePlayRate := 1;
     FocusActor := None;
     CloseActors := [] |}.

Definition world_of (s : State) : World :=
  {| Core := s; Rest := members; Calls := [] |}.

(** A door 300 units away, a chest 120 units away and a lever 120 units
    away, found in this order; everything else is far away. *)
Definition door : AActor := OtherActor 11.
Definition chest : AActor := OtherActor 12.
Definition lever : AActor := OtherActor 13.

Definition distance (a : AActor) : float :=
  match a with
  | OtherActor 11 => 300
  | OtherActor 12 => 120
  | OtherActor 13 => 120
  | _ => 2000000
  end%float.

(** A world where the base class allows everything, nothing is above the
    player, widgets can be created and the overlap finds [found]. *)
Definition externals (found : list AActor) : RestExternals :=
  {| Base := Sample.world (false, None) false;
     Super_CanUseItem := fun _ => true;
     Super_CanOsu := fun _ => true;
     Super_CanAttack := fun _ => true;
     Super_CanPunch := fun _ => true;
     Super_CanFire := fun _ => true;
     Super_CanGuard := fun _ => true;
     Super_CanCharacterJump := fun _ => true;
     IsMoving := fun _ => false;
     Super_TryGuard := fun w => w;
     Super_SetAnimationState :=
       fun New w => with_Core (with_Player (set_CurrentAnimationState New (Player (Core w)))
                                           (Core w)) w;
     LineTraceUp_bBlockingHit := fun _ => false;
     CreateWidget := fun _ => Some Visible;
     SphereOverlapActors := fun _ => (bool_decide (found <> []), found);
     GetDistanceTo := fun _ => distance;
     GetControlRotation := fun _ => Sample.level;
     GetUnitAxis_X := fun _ => FVector.mk 1 0 0;
     GetUnitAxis_Y := fun _ => FVector.mk 0 1 0;
     GunCameraZoomTimeline_GetPlaybackPosition := fun _ => 0%float;
     Cast_IInteractableInterface := fun _ => true;
     Execute_IsEnable := fun _ _ => true;
     Execute_IsInteractiveHUDVisible := fun _ _ => false |}.

End SampleRest.

(** [p] walking at most at speed [v]. *)
Definition with_MaxWalkSpeed (v : float) (p : APlayerCharacter) : APlayerCharacter :=
  set_CharacterMovementComponent (set_MaxWalkSpeed v (CharacterMovementComponent p)) p.

(** What the search for the closest actor promises about its result
    [(MinDistance, ClosestInteractableObject)] over the actors [l] with
    distances [d]: the result is an actor of [l] nearer than 1000000 that no
    actor of [l] is nearer than, or nothing when no actor of [l] is nearer
    than 1000000. *)
Definition is_closest (d : AActor -> float) (l : list AActor) (r : float * AActorPtr) : Prop :=
  match snd r with
  | Some a =>
      a ∈ l /\ fst r = d a /\ (d a <? 1000000)%float = true /\
      forall b : AActor, b ∈ l -> (d b <? d a)%float = false
  | None =>
      fst r = 1000000%float /\
      forall b : AActor, b ∈ l -> (d b <? 1000000)%float = false
  end.

(** * Properties *)

(** ** Arithmetic of the code *)

Lemma wrap_int32_id (z : Z) : is_int32 z -> wrap_int32 z = z.
Proof.
  unfold is_int32, MIN_int32, MAX_int32, wrap_int32. intros Hz.
  rewrite Z.mod_small; lia.
Qed.

Lemma FMath_Min_spec (A B : Z) : FMath_Min A B = Z.min A B.
Proof. unfold FMath_Min. destruct (Z.ltb_spec A B); lia. Qed.

Lemma FMath_Max_spec (A B : Z) : FMath_Max A B = Z.max A B.
Proof. unfold FMath_Max. destruct (Z.ltb_spec B A); lia. Qed.

Lemma FMath_Clamp_spec (X MinValue MaxValue : Z) :
  FMath_Clamp X MinValue MaxValue = Z.max MinValue (Z.min X MaxValue).
Proof. unfold FMath_Clamp. rewrite FMath_Max_spec, FMath_Min_spec. lia. Qed.

(** Both forms of the engine's clamp agree when the bounds are in order, and
    both are below [MinValue + 1] when they are not. *)
Lemma FMath_Clamp_forms_agree (X MinValue MaxValue : Z) :
  MinValue <= MaxValue ->
  FMath_Clamp_ternary X MinValue MaxValue = FMath_Clamp X MinValue MaxValue.
Proof.
  intros Hb. rewrite FMath_Clamp_spec. unfold FMath_Clamp_ternary.
  destruct (Z.ltb_spec X MinValue), (Z.ltb_spec X MaxValue); lia.
Qed.

Lemma FMath_Clamp_forms_inverted (X MinValue MaxValue : Z) :
  MaxValue < MinValue ->
  FMath_Clamp X MinValue MaxValue = MinValue /\
  FMath_Clamp_ternary X MinValue MaxValue <= MinValue.
Proof.
  intros Hb. rewrite FMath_Clamp_spec. unfold FMath_Clamp_ternary.
  destruct (Z.ltb_spec X MinValue), (Z.ltb_spec X MaxValue); lia.
Qed.

(** What the inventory code does with a clamped count does not depend on the
    form: [AddInventoryItem] clamps between 1 and a cap of at least 1, and
    [RemoveInventoryItem] keeps the count clamped from 0 only when it is
    positive. *)
Lemma FMath_Clamp_from_zero (X MaxValue : Z) :
  (0 <? FMath_Clamp X 0 MaxValue) = (0 <? FMath_Clamp_ternary X 0 MaxValue) /\
  (0 < FMath_Clamp X 0 MaxValue ->
   FMath_Clamp_ternary X 0 MaxValue = FMath_Clamp X 0 MaxValue).
Proof.
  rewrite FMath_Clamp_spec. unfold FMath_Clamp_ternary.
  destruct (Z.ltb_spec X 0), (Z.ltb_spec X MaxValue);
    repeat match goal with |- context [?a <? ?b] => destruct (Z.ltb_spec a b) end;
    split; try reflexivity; try lia.
Qed.

(** ** Running a call *)

Ltac run_method :=
  repeat (unfold bind, ret, this, assign, call, query, crash, deref, enemy,
            update_enemy, TMap_at; simpl).

Lemma bind_Returned {A B} (m : Method A) (k : A -> Method B) (s s' : State) (a : A) :
  m s = Returned a s' -> bind m k s = k a s'.
Proof. intros H. unfold bind. now rewrite H. Qed.

(** ** Inventory *)

Lemma GetInventoryItemCount_run (Item : UItemPtr) (s : State) :
  GetInventoryItemCount Item s = Returned (default 0 (InventoryData (Player s) !! Item)) s.
Proof.
  unfold GetInventoryItemCount. run_method.
  destruct (InventoryData (Player s) !! Item) as [c|]; reflexivity.
Qed.

(** C2.  [GetInventoryItemCount(Item)] returns the count stored for [Item]
    when the inventory holds one and 0 when it holds none, and the state
    after the call is the state before it: the inventory is not modified. *)
Theorem GetInventoryItemCount_spec (Item : UItemPtr) (s : State) :
  exists count : Z,
    GetInventoryItemCount Item s = Returned count s /\
    (forall c : Z, InventoryData (Player s) !! Item = Some c -> count = c) /\
    (InventoryData (Player s) !! Item = None -> count = 0).
Proof.
  exists (default 0 (InventoryData (Player s) !! Item)).
  split; [apply GetInventoryItemCount_run|].
  split.
  - intros c Hc. now rewrite Hc.
  - intros Hnone. now rewrite Hnone.
Qed.

Example GetInventoryItemCount_present :
  GetInventoryItemCount (Some Sample.vinegar) (Sample.state_with {[Some Sample.vinegar := 3]})
  = Returned 3 (Sample.state_with {[Some Sample.vinegar := 3]}).
Proof. vm_compute. reflexivity. Qed.

Example GetInventoryItemCount_absent :
  GetInventoryItemCount (Some Sample.pebble) (Sample.state_with {[Some Sample.vinegar := 3]})
  = Returned 0 (Sample.state_with {[Some Sample.vinegar := 3]}).
Proof. vm_compute. reflexivity. Qed.

Lemma AddInventoryItem_null (ItemCount : Z) (s : State) :
  AddInventoryItem None ItemCount s =
    Returned false (logged (AddOnScreenDebugMessage
                              "AddInventoryItem: Failed trying to add null item!") s).
Proof. reflexivity. Qed.

Lemma AddInventoryItem_bad_count (item : UItem) (ItemCount : Z) (s : State) :
  ItemCount <= 0 ->
  AddInventoryItem (Some item) ItemCount s =
    Returned false (logged (AddOnScreenDebugMessage
                              "AddInventoryItem: ItemCount must be greater than 0!") s).
Proof.
  intros Hle. unfold AddInventoryItem.
  destruct (Z.leb_spec ItemCount 0); [reflexivity | lia].
Qed.

Lemma AddInventoryItem_new (item : UItem) (ItemCount : Z) (s : State) :
  0 < ItemCount ->
  InventoryData (Player s) !! Some item = None ->
  AddInventoryItem (Some item) ItemCount s =
    Returned true
      (logged (OnPlayerAddItem_Broadcast item)
         (with_Player (set_InventoryData (<[Some item := ItemCount]> (InventoryData (Player s)))
                         (Player s)) s)).
Proof.
  intros Hpos Hnone. unfold AddInventoryItem.
  destruct (Z.leb_spec ItemCount 0); [lia|].
  run_method. rewrite Hnone.
  rewrite bool_decide_eq_false_2 by (intros [? ?]; discriminate).
  reflexivity.
Qed.

Lemma AddInventoryItem_existing (item : UItem) (ItemCount old : Z) (s : State) :
  0 < ItemCount ->
  InventoryData (Player s) !! Some item = Some old ->
  AddInventoryItem (Some item) ItemCount s =
    Returned true
      (with_Player
         (set_InventoryData
            (<[Some item := FMath_Clamp (add_int32 old ItemCount) 1
                              (if MaxCount item <=? 0 then MAX_int32 else MaxCount item)]>
               (InventoryData (Player s)))
            (Player s)) s).
Proof.
  intros Hpos Hold. unfold AddInventoryItem.
  destruct (Z.leb_spec ItemCount 0); [lia|].
  run_method. rewrite Hold.
  rewrite bool_decide_eq_true_2 by eauto.
  reflexivity.
Qed.

(** C4.  [AddInventoryItem(NewItem, ItemCount)] returns false and leaves the
    inventory as it was when [NewItem] is null or [ItemCount <= 0].  In
    every other case it returns true: an absent item is stored with count
    [ItemCount] and [OnPlayerAddItem] is broadcast; the count [old] of an
    item already held becomes [clamp(old + ItemCount, 1, Cap)], where [+] is
    the [int32] addition of the code (the plain sum whenever that fits
    [int32]) and [Cap] is the item's [MaxCount], or [MAX_int32] when
    [MaxCount <= 0]. *)
Theorem AddInventoryItem_spec (NewItem : UItemPtr) (ItemCount : Z) (s : State) :
  (NewItem = None \/ ItemCount <= 0 ->
     exists s' : State,
       AddInventoryItem NewItem ItemCount s = Returned false s' /\
       InventoryData (Player s') = InventoryData (Player s)) /\
  (forall item : UItem, NewItem = Some item -> 0 < ItemCount ->
     exists s' : State,
       AddInventoryItem NewItem ItemCount s = Returned true s' /\
       (InventoryData (Player s) !! NewItem = None ->
          InventoryData (Player s') = <[NewItem := ItemCount]> (InventoryData (Player s)) /\
          Log s' = Log s ++ [OnPlayerAddItem_Broadcast item]) /\
       (forall old : Z, InventoryData (Player s) !! NewItem = Some old ->
          let Cap := if MaxCount item <=? 0 then MAX_int32 else MaxCount item in
          InventoryData (Player s') =
            <[NewItem := Z.max 1 (Z.min (add_int32 old ItemCount) Cap)]>
              (InventoryData (Player s)) /\
          (is_int32 (old + ItemCount) -> add_int32 old ItemCount = old + ItemCount))).
Proof.
  split.
  - intros [-> | Hle].
    + rewrite AddInventoryItem_null. eauto.
    + destruct NewItem as [item|].
      * rewrite AddInventoryItem_bad_count by exact Hle. eauto.
      * rewrite AddInventoryItem_null. eauto.
  - intros item -> Hpos.
    destruct (InventoryData (Player s) !! Some item) as [old|] eqn:Hlook.
    + eexists. split; [apply (AddInventoryItem_existing _ _ old); assumption|].
      split; [discriminate|].
      intros old' [= <-] Cap. simpl. rewrite FMath_Clamp_spec.
      split; [reflexivity|]. apply wrap_int32_id.
    + eexists. split; [apply AddInventoryItem_new; assumption|].
      split; [intros _; split; reflexivity | discriminate].
Qed.

Example AddInventoryItem_fresh :
  exists s', AddInventoryItem (Some Sample.vinegar) 2 (Sample.state_with ∅) = Returned true s' /\
             InventoryData (Player s') = {[Some Sample.vinegar := 2]} /\
             Log s' = [OnPlayerAddItem_Broadcast Sample.vinegar].
Proof. eexists. split; [vm_compute; reflexivity|]. split; reflexivity. Qed.

Example AddInventoryItem_capped :
  exists s', AddInventoryItem (Some Sample.vinegar) 4 (Sample.state_with {[Some Sample.vinegar := 3]})
             = Returned true s' /\
             InventoryData (Player s') !! Some Sample.vinegar = Some 5.
Proof. eexists. split; [vm_compute; reflexivity|]. vm_compute. reflexivity. Qed.

Example AddInventoryItem_uncapped :
  exists s', AddInventoryItem (Some Sample.pebble) 4 (Sample.state_with {[Some Sample.pebble := 3]})
             = Returned true s' /\
             InventoryData (Player s') !! Some Sample.pebble = Some 7.
Proof. eexists. split; [vm_compute; reflexivity|]. vm_compute. reflexivity. Qed.

Lemma RemoveInventoryItem_null (RemoveCount : Z) (s : State) :
  RemoveInventoryItem None RemoveCount s =
    Returned false (logged (AddOnScreenDebugMessage
                              "RemoveInventoryItem: Failed trying to remove null item!") s).
Proof. reflexivity. Qed.

Lemma RemoveInventoryItem_nothing (item : UItem) (RemoveCount : Z) (s : State) :
  default 0 (InventoryData (Player s) !! Some item) <= 0 ->
  RemoveInventoryItem (Some item) RemoveCount s =
    Returned false (logged (AddOnScreenDebugMessage
                              "RemoveInventoryItem: Failed trying to remove item with 0 count!") s).
Proof.
  intros Hle. unfold RemoveInventoryItem.
  rewrite (bind_Returned _ _ _ _ _ (GetInventoryItemCount_run _ _)).
  destruct (Z.leb_spec (default 0 (InventoryData (Player s) !! Some item)) 0); [reflexivity | lia].
Qed.

Lemma RemoveInventoryItem_held (item : UItem) (RemoveCount c : Z) (s : State) :
  InventoryData (Player s) !! Some item = Some c ->
  0 < c ->
  RemoveInventoryItem (Some item) RemoveCount s =
    Returned true
      (with_Player
         (set_InventoryData
            (if 0 <? remaining item c RemoveCount
             then <[Some item := remaining item c RemoveCount]> (InventoryData (Player s))
             else delete (Some item) (InventoryData (Player s)))
            (Player s)) s).
Proof.
  intros Hc Hpos. unfold RemoveInventoryItem.
  rewrite (bind_Returned _ _ _ _ _ (GetInventoryItemCount_run _ _)).
  rewrite Hc. simpl.
  destruct (Z.leb_spec c 0); [lia|].
  fold (remaining item c RemoveCount).
  destruct (0 <? remaining item c RemoveCount).
  - run_method. rewrite Hc. reflexivity.
  - reflexivity.
Qed.

Lemma remaining_partial (item : UItem) (c n : Z) :
  is_int32 c -> 0 < n < c ->
  remaining item c n = Z.max 0 (Z.min (c - n) (MaxCount item)).
Proof.
  intros Hc Hn. unfold remaining.
  destruct (Z.leb_spec n 0); [lia|].
  rewrite FMath_Clamp_spec. unfold sub_int32.
  rewrite wrap_int32_id; [reflexivity|].
  unfold is_int32, MIN_int32, MAX_int32 in *. lia.
Qed.

Lemma remaining_all (item : UItem) (c n : Z) :
  0 < c -> is_int32 c -> is_int32 n -> c <= n \/ n <= 0 ->
  remaining item c n <= 0.
Proof.
  intros Hpos Hc Hn Hall. unfold remaining.
  destruct (Z.leb_spec n 0); [lia|].
  rewrite FMath_Clamp_spec. unfold sub_int32.
  rewrite wrap_int32_id; [lia|].
  unfold is_int32, MIN_int32, MAX_int32 in *. lia.
Qed.

(** The count [RemoveInventoryItem] stores is positive or the entry goes. *)
Lemma RemoveInventoryItem_total (RemovedItem : UItemPtr) (RemoveCount : Z) (s : State) :
  exists (b : bool) (s' : State),
    RemoveInventoryItem RemovedItem RemoveCount s = Returned b s' /\
    (counts_positive (InventoryData (Player s)) -> counts_positive (InventoryData (Player s'))).
Proof.
  destruct RemovedItem as [item|].
  2:{ rewrite RemoveInventoryItem_null. eauto. }
  destruct (InventoryData (Player s) !! Some item) as [c|] eqn:Hc.
  2:{ rewrite RemoveInventoryItem_nothing by (rewrite Hc; simpl; lia). eauto. }
  destruct (Z_le_gt_dec c 0) as [Hle|Hgt].
  { rewrite RemoveInventoryItem_nothing by (rewrite Hc; simpl; lia). eauto. }
  rewrite (RemoveInventoryItem_held item RemoveCount c) by (assumption || lia).
  do 2 eexists. split; [reflexivity|].
  intros Hinv k v. simpl.
  destruct (Z.ltb_spec 0 (remaining item c RemoveCount)) as [Hk|Hk].
  - destruct (decide (k = Some item)) as [->|Hne].
    + rewrite lookup_insert_eq. intros [= <-]. lia.
    + rewrite lookup_insert_ne by congruence. apply Hinv.
  - destruct (decide (k = Some item)) as [->|Hne].
    + rewrite lookup_delete_eq. discriminate.
    + rewrite lookup_delete_ne by congruence. apply Hinv.
Qed.

Lemma AddInventoryItem_total (NewItem : UItemPtr) (ItemCount : Z) (s : State) :
  exists (b : bool) (s' : State),
    AddInventoryItem NewItem ItemCount s = Returned b s' /\
    (counts_positive (InventoryData (Player s)) -> counts_positive (InventoryData (Player s'))).
Proof.
  destruct NewItem as [item|].
  2:{ rewrite AddInventoryItem_null. eauto. }
  destruct (Z_le_gt_dec ItemCount 0) as [Hle|Hgt].
  { rewrite AddInventoryItem_bad_count by exact Hle. eauto. }
  destruct (InventoryData (Player s) !! Some item) as [old|] eqn:Hold.
  - rewrite (AddInventoryItem_existing item ItemCount old) by (assumption || lia).
    do 2 eexists. split; [reflexivity|].
    intros Hinv k v. simpl.
    destruct (decide (k = Some item)) as [->|Hne].
    + rewrite lookup_insert_eq. intros [= <-]. rewrite FMath_Clamp_spec. lia.
    + rewrite lookup_insert_ne by congruence. apply Hinv.
  - rewrite AddInventoryItem_new by (assumption || lia).
    do 2 eexists. split; [reflexivity|].
    intros Hinv k v. simpl.
    destruct (decide (k = Some item)) as [->|Hne].
    + rewrite lookup_insert_eq. intros [= <-]. lia.
    + rewrite lookup_insert_ne by congruence. apply Hinv.
Qed.

Lemma UseItem_total (Item : UItemPtr) (s : State) :
  exists (b : bool) (s' : State),
    UseItem Item s = Returned b s' /\
    (counts_positive (InventoryData (Player s)) -> counts_positive (InventoryData (Player s'))).
Proof.
  unfold UseItem.
  rewrite (bind_Returned _ _ _ _ _ (GetInventoryItemCount_run _ _)).
  destruct (default 0 (InventoryData (Player s) !! Item) <=? 0).
  { do 2 eexists. split; [reflexivity|]. intros H; exact H. }
  destruct (RemoveInventoryItem_total Item 1 s) as (b & s' & Hrun & Hinv).
  rewrite (bind_Returned _ _ _ _ _ Hrun).
  destruct b; do 2 eexists; (split; [reflexivity | exact Hinv]).
Qed.

(** C3, as the code has it.  Let [Item] be held with count [c >= 1].
    - If [Item]'s [MaxCount] is positive and [0 < n < c],
      [RemoveInventoryItem(Item, n)] returns true and leaves the count
      [min(c - n, MaxCount)]: the rest is capped at [MaxCount].
    - If [n >= c] or [n <= 0], it returns true and removes the entry.
    - For a null item, and for an item that is absent or stored with a count
      of 0 or less, it returns false and leaves the inventory as it was. *)
Theorem RemoveInventoryItem_spec (s : State) :
  (forall (item : UItem) (c n : Z),
     InventoryData (Player s) !! Some item = Some c -> is_int32 c ->
     0 < MaxCount item -> 0 < n < c ->
     exists s' : State,
       RemoveInventoryItem (Some item) n s = Returned true s' /\
       InventoryData (Player s') =
         <[Some item := Z.min (c - n) (MaxCount item)]> (InventoryData (Player s))) /\
  (forall (item : UItem) (c n : Z),
     InventoryData (Player s) !! Some item = Some c -> 1 <= c -> is_int32 c ->
     is_int32 n -> c <= n \/ n <= 0 ->
     exists s' : State,
       RemoveInventoryItem (Some item) n s = Returned true s' /\
       InventoryData (Player s') = delete (Some item) (InventoryData (Player s))) /\
  (forall (Item : UItemPtr) (n : Z),
     Item = None \/ default 0 (InventoryData (Player s) !! Item) <= 0 ->
     exists s' : State,
       RemoveInventoryItem Item n s = Returned false s' /\
       InventoryData (Player s') = InventoryData (Player s)).
Proof.
  split; [|split].
  - intros item c n Hc Hint Hmax Hn.
    rewrite (RemoveInventoryItem_held item n c) by (assumption || lia).
    rewrite remaining_partial by assumption.
    eexists. split; [reflexivity|]. simpl.
    destruct (Z.ltb_spec 0 (Z.max 0 (Z.min (c - n) (MaxCount item)))); [|lia].
    f_equal. lia.
  - intros item c n Hc Hpos Hint Hn Hall.
    rewrite (RemoveInventoryItem_held item n c) by (assumption || lia).
    pose proof (remaining_all item c n ltac:(lia) Hint Hn Hall) as Hrem.
    eexists. split; [reflexivity|]. simpl.
    destruct (Z.ltb_spec 0 (remaining item c n)); [lia | reflexivity].
  - intros Item n [-> | Hzero].
    + rewrite RemoveInventoryItem_null. eauto.
    + destruct Item as [item|].
      * rewrite RemoveInventoryItem_nothing by exact Hzero. eauto.
      * rewrite RemoveInventoryItem_null. eauto.
Qed.

(** Ten vinegars are picked up at once (an absent item is stored with the
    count given, above its [MaxCount] of 5); one is then removed.  The count
    left is 5, not 9. *)
Lemma RemoveInventoryItem_counterexample :
  exists s1 s2 : State,
    AddInventoryItem (Some Sample.vinegar) 10 (Sample.state_with ∅) = Returned true s1 /\
    InventoryData (Player s1) !! Some Sample.vinegar = Some 10 /\
    0 < 1 < 10 /\
    RemoveInventoryItem (Some Sample.vinegar) 1 s1 = Returned true s2 /\
    InventoryData (Player s2) !! Some Sample.vinegar = Some 5 /\
    InventoryData (Player s2) !! Some Sample.vinegar <> Some (10 - 1).
Proof.
  do 2 eexists.
  split; [vm_compute; reflexivity|].
  split; [vm_compute; reflexivity|].
  split; [lia|].
  split; [vm_compute; reflexivity|].
  split; [vm_compute; reflexivity|].
  vm_compute. discriminate.
Qed.

(** An item without a cap ([MaxCount] 0, which [AddInventoryItem] reads as
    "no limit") held three times: removing one removes the whole entry,
    because [RemoveInventoryItem] clamps to the [MaxCount] as stored. *)
Lemma RemoveInventoryItem_uncapped_item :
  exists s1 s2 : State,
    AddInventoryItem (Some Sample.pebble) 3 (Sample.state_with ∅) = Returned true s1 /\
    InventoryData (Player s1) !! Some Sample.pebble = Some 3 /\
    RemoveInventoryItem (Some Sample.pebble) 1 s1 = Returned true s2 /\
    InventoryData (Player s2) !! Some Sample.pebble = None.
Proof.
  do 2 eexists.
  split; [vm_compute; reflexivity|].
  split; [vm_compute; reflexivity|].
  split; vm_compute; reflexivity.
Qed.

Example RemoveInventoryItem_one_of_three :
  exists s', RemoveInventoryItem (Some Sample.vinegar) 1
               (Sample.state_with {[Some Sample.vinegar := 3]}) = Returned true s' /\
             InventoryData (Player s') = {[Some Sample.vinegar := 2]}.
Proof. eexists. split; [vm_compute; reflexivity|]. reflexivity. Qed.

Lemma run_calls_total (cs : list InventoryCall) (s : State) :
  counts_positive (InventoryData (Player s)) ->
  exists s' : State,
    run_calls cs s = Returned tt s' /\ counts_positive (InventoryData (Player s')).
Proof.
  revert s. induction cs as [|c cs IH]; intros s Hinv.
  - exists s. split; [reflexivity | exact Hinv].
  - assert (exists (b : bool) (s1 : State),
               run_call c s = Returned b s1 /\
               (counts_positive (InventoryData (Player s)) ->
                counts_positive (InventoryData (Player s1)))) as (b & s1 & Hrun & Hstep).
    { destruct c; simpl.
      - apply AddInventoryItem_total.
      - apply RemoveInventoryItem_total.
      - apply UseItem_total. }
    destruct (IH s1 (Hstep Hinv)) as (s' & Hrest & Hinv').
    exists s'. split; [|exact Hinv'].
    simpl. rewrite (bind_Returned _ _ _ _ _ Hrun). exact Hrest.
Qed.

Lemma HasItem_run (Item : UItemPtr) (s : State) :
  HasItem Item s = Returned (bool_decide (is_Some (InventoryData (Player s) !! Item))) s.
Proof. reflexivity. Qed.

(** C5.  From an empty inventory, after any sequence of
    [AddInventoryItem], [RemoveInventoryItem] and [UseItem] calls (each of
    which returns), every stored count is at least 1; and then [HasItem(Item)]
    is true exactly when [GetInventoryItemCount(Item) > 0]. *)
Theorem inventory_counts_positive (cs : list InventoryCall) (s : State) :
  InventoryData (Player s) = ∅ ->
  exists s' : State,
    run_calls cs s = Returned tt s' /\
    counts_positive (InventoryData (Player s')) /\
    forall Item : UItemPtr,
      exists (has : bool) (count : Z),
        HasItem Item s' = Returned has s' /\
        GetInventoryItemCount Item s' = Returned count s' /\
        (has = true <-> 0 < count).
Proof.
  intros Hempty.
  destruct (run_calls_total cs s) as (s' & Hrun & Hinv).
  { intros k c. rewrite Hempty, lookup_empty. discriminate. }
  exists s'. split; [exact Hrun|]. split; [exact Hinv|].
  intros Item. do 2 eexists.
  split; [apply HasItem_run|]. split; [apply GetInventoryItemCount_run|].
  rewrite bool_decide_eq_true.
  destruct (InventoryData (Player s') !! Item) as [c|] eqn:Hc; simpl.
  - specialize (Hinv Item c Hc). split; [lia | eauto].
  - split; [intros [? ?]; discriminate | lia].
Qed.

Lemma inventory_counts_positive_witness :
  exists s' : State,
    run_calls [Call_AddInventoryItem (Some Sample.vinegar) 2;
               Call_UseItem (Some Sample.vinegar);
               Call_RemoveInventoryItem (Some Sample.pebble) 1]
              (Sample.state_with ∅) = Returned tt s' /\
    counts_positive (InventoryData (Player s')) /\
    forall Item : UItemPtr,
      exists (has : bool) (count : Z),
        HasItem Item s' = Returned has s' /\
        GetInventoryItemCount Item s' = Returned count s' /\
        (has = true <-> 0 < count).
Proof.
  apply (inventory_counts_positive
           [Call_AddInventoryItem (Some Sample.vinegar) 2;
            Call_UseItem (Some Sample.vinegar);
            Call_RemoveInventoryItem (Some Sample.pebble) 1]
           (Sample.state_with ∅)).
  reflexivity.
Defined.

(** ** Target lock *)

Lemma SearchEnemyInFront_run (E : Externals) (s : State) :
  SearchEnemyInFront E s =
    Returned
      (SphereTraceSingleForObjects E s
         {| TraceStart := ActorLocation (Player s);
            TraceEnd :=
              FVector.mk
                (FVector.X (ActorLocation (Player s)) +
                 FVector.X (FRotator_Vector E (FollowCamera_Rotation (Player s))) * 1300)%float
                (FVector.Y (ActorLocation (Player s)) +
                 FVector.Y (FRotator_Vector E (FollowCamera_Rotation (Player s))) * 1300)%float
                (FVector.Z (ActorLocation (Player s)));
            TraceRadius := 500;
            IgnoredActors := [OtherActor (Self (Player s))] |}) s.
Proof. reflexivity. Qed.

Lemma UnlockTarget_run (s : State) (target : positive) :
  LockTargetEnemy (Player s) = Some target ->
  exists s' : State,
    UnlockTarget s = Returned tt s' /\
    IsTargetLocking (Player s') = false /\
    LockTargetEnemy (Player s') = Some target /\
    Enemies s' = <[target := HideTargetWidget (Enemies s target)]> (Enemies s) /\
    bOrientRotationToMovement (CharacterMovementComponent (Player s')) = true /\
    bUseControllerRotationYaw (Player s') = false /\
    Log s' = Log s.
Proof.
  intros Htarget. unfold UnlockTarget. run_method. rewrite Htarget. simpl.
  eexists. split; [reflexivity|]. simpl. rewrite Htarget. repeat split.
Qed.

Lemma UnlockTarget_null (s : State) :
  LockTargetEnemy (Player s) = None -> UnlockTarget s = Crashed NullDereference.
Proof.
  intros Hnull. unfold UnlockTarget. run_method. now rewrite Hnull.
Qed.

Lemma Tick_unlocked (E : Externals) (DeltaSeconds : float) (s : State) :
  IsTargetLocking (Player s) = false ->
  Tick E DeltaSeconds s =
    Returned tt (logged (GunCameraZoomTimeline_TickTimeline DeltaSeconds)
                   (logged (Super_Tick DeltaSeconds) s)).
Proof.
  intros Hlock. unfold Tick. run_method. now rewrite Hlock.
Qed.

Lemma Tick_locked (E : Externals) (DeltaSeconds : float) (s : State) (target : positive) :
  IsTargetLocking (Player s) = true ->
  LockTargetEnemy (Player s) = Some target ->
  exists s' : State,
    Tick E DeltaSeconds s = Returned tt s' /\
    LockTargetEnemy (Player s') = Some target /\
    IsTargetLocking (Player s') = negb (IsDead (Enemies s target)).
Proof.
  intros Hlock Htarget. unfold Tick, UnlockTarget. run_method.
  rewrite Hlock, Htarget. simpl.
  destruct (PlayerController (Player s)); simpl;
  destruct (IsExecutable (Enemies s target)) eqn:Hexe;
  destruct (TargetWidget_IsVisible (Enemies s target)) eqn:Hvis; simpl;
  repeat (rewrite ?fn_lookup_insert, ?Hexe, ?Hvis, ?Htarget; simpl);
  destruct (IsDead (Enemies s target)) eqn:Hdead; simpl;
  repeat (rewrite ?fn_lookup_insert, ?Hexe, ?Hvis, ?Htarget; simpl);
  (eexists; split; [reflexivity|]; simpl; split; [exact Htarget|];
   try reflexivity; try exact Hlock).
Qed.

Lemma TryTargetLock_not_unarmed (E : Externals) (s : State) :
  CurrentAnimationState (Player s) <> Unarmed -> TryTargetLock E s = Returned tt s.
Proof.
  intros Hstate. unfold TryTargetLock. run_method.
  now rewrite bool_decide_eq_false_2 by exact Hstate.
Qed.

Lemma TryTargetLock_locked (E : Externals) (s : State) :
  CurrentAnimationState (Player s) = Unarmed ->
  IsTargetLocking (Player s) = true ->
  TryTargetLock E s = UnlockTarget s.
Proof.
  intros Hstate Hlock. unfold TryTargetLock. run_method.
  rewrite bool_decide_eq_true_2 by exact Hstate. simpl. now rewrite Hlock.
Qed.

(** The search of [TryTargetLock], by what the trace answers. *)
Lemma TryTargetLock_search (E : Externals) (s : State) (IsHit : bool) (Actor : AActorPtr) :
  CurrentAnimationState (Player s) = Unarmed ->
  IsTargetLocking (Player s) = false ->
  SearchEnemyInFront E s = Returned (IsHit, Actor) s ->
  exists s' : State,
    TryTargetLock E s = Returned tt s' /\
    match IsHit, Cast_AEnemyCharacter Actor with
    | true, Some id =>
        IsTargetLocking (Player s') = true /\
        LockTargetEnemy (Player s') = Some id /\
        Enemies s' = <[id := ShowTargetWidget (Enemies s id)]> (Enemies s) /\
        bOrientRotationToMovement (CharacterMovementComponent (Player s')) = false /\
        bUseControllerRotationYaw (Player s') = true
    | true, None =>
        IsTargetLocking (Player s') = false /\ LockTargetEnemy (Player s') = None /\
        Enemies s' = Enemies s
    | false, _ => s' = s
    end.
Proof.
  intros Hstate Hlock Hsearch. unfold TryTargetLock.
  unfold bind at 1. unfold this at 1.
  rewrite bool_decide_eq_true_2 by exact Hstate. rewrite Hlock.
  cbv beta iota delta [negb].
  rewrite (bind_Returned _ _ _ _ _ Hsearch).
  destruct IsHit; [|eauto].
  run_method.
  destruct (Cast_AEnemyCharacter Actor) as [id|]; simpl.
  - eexists. split; [reflexivity|]. repeat split.
  - eexists. split; [reflexivity|]. repeat split. exact Hlock.
Qed.

(** C6.  [TryTargetLock] does nothing unless the animation state is
    [Unarmed].  When the player is target-locking (and, as then always
    holds, the locked enemy is not null) it unlocks: [IsTargetLocking]
    becomes false, the enemy's target widget is hidden and
    orient-rotation-to-movement is switched on again.  Otherwise it runs one
    sphere trace, from the actor's location to the point 1300 units along
    the camera direction with the height of the start, radius 500, ignoring
    the player itself; [IsTargetLocking] is true afterwards exactly when the
    trace hit an enemy character, and that enemy is then [LockTargetEnemy]
    with its target widget shown. *)
Theorem TryTargetLock_spec (E : Externals) (s : State) :
  let p := Player s in
  let Start := ActorLocation p in
  let Forward := FRotator_Vector E (FollowCamera_Rotation p) in
  let trace :=
    {| TraceStart := Start;
       TraceEnd := FVector.mk (FVector.X Start + FVector.X Forward * 1300)%float
                              (FVector.Y Start + FVector.Y Forward * 1300)%float
                              (FVector.Z Start);
       TraceRadius := 500;
       IgnoredActors := [OtherActor (Self p)] |} in
  (CurrentAnimationState p <> Unarmed -> TryTargetLock E s = Returned tt s) /\
  (CurrentAnimationState p = Unarmed -> IsTargetLocking p = true ->
   forall target : positive, LockTargetEnemy p = Some target ->
   exists s' : State,
     TryTargetLock E s = Returned tt s' /\
     IsTargetLocking (Player s') = false /\
     TargetWidget_IsVisible (Enemies s' target) = false /\
     bOrientRotationToMovement (CharacterMovementComponent (Player s')) = true) /\
  (CurrentAnimationState p = Unarmed -> IsTargetLocking p = false ->
   exists s' : State,
     TryTargetLock E s = Returned tt s' /\
     (IsTargetLocking (Player s') = true <->
      exists id : positive,
        SphereTraceSingleForObjects E s trace = (true, Some (EnemyCharacterActor id))) /\
     (forall id : positive,
        SphereTraceSingleForObjects E s trace = (true, Some (EnemyCharacterActor id)) ->
        LockTargetEnemy (Player s') = Some id /\
        TargetWidget_IsVisible (Enemies s' id) = true)).
Proof.
  intros p Start Forward trace. split; [|split].
  - apply TryTargetLock_not_unarmed.
  - intros Hstate Hlock target Htarget.
    rewrite TryTargetLock_locked by assumption.
    destruct (UnlockTarget_run s target Htarget)
      as (s' & Hrun & Hoff & _ & Henemies & Horient & _).
    exists s'. repeat split; try assumption.
    rewrite Henemies, fn_lookup_insert. reflexivity.
  - intros Hstate Hlock.
    pose proof (SearchEnemyInFront_run E s) as Hsearch.
    fold p Start Forward trace in Hsearch.
    destruct (SphereTraceSingleForObjects E s trace) as [IsHit Actor] eqn:Htrace.
    destruct (TryTargetLock_search E s IsHit Actor Hstate Hlock Hsearch) as (s' & Hrun & Hres).
    exists s'. split; [exact Hrun|].
    destruct IsHit.
    + destruct Actor as [[id|id]|]; simpl in Hres.
      * destruct Hres as (Hon & Htarget & Henemies & _).
        split; [split; eauto|].
        intros id' [= <-]. split; [exact Htarget|].
        rewrite Henemies, fn_lookup_insert. reflexivity.
      * destruct Hres as (Hoff & _).
        split; [|intros ? [=]].
        split; [congruence | intros (? & [=])].
      * destruct Hres as (Hoff & _).
        split; [|intros ? [=]].
        split; [congruence | intros (? & [=])].
    + subst s'. split; [|intros ? [=]].
      split; [fold p; congruence | intros (? & [=])].
Qed.

Example TryTargetLock_finds_enemy :
  exists s', TryTargetLock (Sample.world (true, Some (EnemyCharacterActor 7)) false)
               (Sample.state Sample.player) = Returned tt s' /\
             IsTargetLocking (Player s') = true /\
             LockTargetEnemy (Player s') = Some 7%positive /\
             TargetWidget_IsVisible (Enemies s' 7%positive) = true.
Proof. eexists. split; [reflexivity|]. repeat split. Qed.

Example TryTargetLock_hits_wall :
  exists s', TryTargetLock (Sample.world (true, Some (OtherActor 9)) false)
               (Sample.state Sample.player) = Returned tt s' /\
             IsTargetLocking (Player s') = false.
Proof. eexists. split; [reflexivity|]. reflexivity. Qed.

(** C7.  "While target-locking, the locked enemy is not null" is kept by
    [Tick], [TryTargetLock] and [UnlockTarget].  From a state where it
    holds, [Tick] and [TryTargetLock] return (no null pointer is
    dereferenced: with [IsTargetLocking] true, [LockTargetEnemy->IsDead()]
    in [Tick] reads a real enemy) and it holds afterwards.  [UnlockTarget]
    returns whenever the locked enemy is not null, in particular whenever
    the player is target-locking, and it holds afterwards. *)
Theorem lock_has_target_invariant (E : Externals) (s : State) :
  lock_has_target (Player s) ->
  (forall DeltaSeconds : float,
     exists s' : State,
       Tick E DeltaSeconds s = Returned tt s' /\ lock_has_target (Player s')) /\
  (exists s' : State,
     TryTargetLock E s = Returned tt s' /\ lock_has_target (Player s')) /\
  (LockTargetEnemy (Player s) <> None ->
   exists s' : State,
     UnlockTarget s = Returned tt s' /\ lock_has_target (Player s')) /\
  (forall s' : State,
     UnlockTarget s = Returned tt s' -> lock_has_target (Player s')).
Proof.
  intros Hinv.
  assert (Hunlock : LockTargetEnemy (Player s) <> None ->
                    exists s' : State,
                      UnlockTarget s = Returned tt s' /\ lock_has_target (Player s')).
  { intros Hsome.
    destruct (LockTargetEnemy (Player s)) as [target|] eqn:Htarget; [|congruence].
    destruct (UnlockTarget_run s target Htarget) as (s' & Hrun & Hoff & _).
    exists s'. split; [exact Hrun|]. intros Hon. congruence. }
  split; [|split; [|split]].
  - intros DeltaSeconds.
    destruct (IsTargetLocking (Player s)) eqn:Hlock.
    + destruct (LockTargetEnemy (Player s)) as [target|] eqn:Htarget.
      * destruct (Tick_locked E DeltaSeconds s target Hlock Htarget) as (s' & Hrun & Hkeep & _).
        exists s'. split; [exact Hrun|]. intros _. congruence.
      * exfalso. now apply Hinv.
    + rewrite Tick_unlocked by exact Hlock.
      eexists. split; [reflexivity|]. intros Hon. simpl in Hon. congruence.
  - destruct (decide (CurrentAnimationState (Player s) = Unarmed)) as [Hstate|Hstate].
    + destruct (IsTargetLocking (Player s)) eqn:Hlock.
      * rewrite TryTargetLock_locked by assumption.
        apply Hunlock. now apply Hinv.
      * pose proof (SearchEnemyInFront_run E s) as Hsearch.
        match type of Hsearch with _ = Returned ?r _ => destruct r as [IsHit Actor] end.
        destruct (TryTargetLock_search E s IsHit Actor Hstate Hlock Hsearch)
          as (s' & Hrun & Hres).
        exists s'. split; [exact Hrun|].
        destruct IsHit; [destruct (Cast_AEnemyCharacter Actor) as [id|]|].
        -- destruct Hres as (_ & Htarget & _). intros _. congruence.
        -- destruct Hres as (Hoff & _). intros Hon. congruence.
        -- subst s'. exact Hinv.
    + rewrite TryTargetLock_not_unarmed by exact Hstate. eauto.
  - exact Hunlock.
  - intros s' Hrun.
    destruct (LockTargetEnemy (Player s)) as [target|] eqn:Htarget.
    + destruct (UnlockTarget_run s target Htarget) as (s'' & Hrun' & Hoff & _).
      rewrite Hrun in Hrun'. injection Hrun' as <-. intros Hon. congruence.
    + rewrite UnlockTarget_null in Hrun by exact Htarget. discriminate.
Qed.

Lemma lock_has_target_invariant_witness :
  lock_has_target (Player (Sample.state Sample.locked_player)) /\
  ((forall DeltaSeconds : float,
      exists s' : State,
        Tick (Sample.world (false, None) false) DeltaSeconds
             (Sample.state Sample.locked_player) = Returned tt s' /\
        lock_has_target (Player s')) /\
   (exists s' : State,
      TryTargetLock (Sample.world (false, None) false)
                    (Sample.state Sample.locked_player) = Returned tt s' /\
      lock_has_target (Player s')) /\
   (LockTargetEnemy (Player (Sample.state Sample.locked_player)) <> None ->
    exists s' : State,
      UnlockTarget (Sample.state Sample.locked_player) = Returned tt s' /\
      lock_has_target (Player s')) /\
   (forall s' : State,
      UnlockTarget (Sample.state Sample.locked_player) = Returned tt s' ->
      lock_has_target (Player s'))).
Proof.
  split.
  - intros _. discriminate.
  - apply (lock_has_target_invariant (Sample.world (false, None) false)
             (Sample.state Sample.locked_player)).
    intros _. discriminate.
Defined.

(** Without the invariant [Tick] does crash: target-locking with a null
    enemy, [LockTargetEnemy->IsDead()] is a null dereference. *)
Example Tick_needs_target :
  Tick (Sample.world (false, None) false) 0
       (Sample.state (set_IsTargetLocking true Sample.player)) = Crashed NullDereference.
Proof. reflexivity. Qed.

(** Along any run of the three calls that returns, the invariant is kept. *)
Lemma run_lock_calls_invariant (E : Externals) (cs : list LockCall) (s s' : State) :
  lock_has_target (Player s) ->
  run_lock_calls E cs s = Returned tt s' ->
  lock_has_target (Player s').
Proof.
  revert s. induction cs as [|c cs IH]; intros s Hinv Hrun.
  - injection Hrun as <-. exact Hinv.
  - simpl in Hrun. unfold bind in Hrun.
    destruct (run_lock_call E c s) as [[] s1|] eqn:Hstep; [|discriminate].
    apply (IH s1); [|exact Hrun].
    destruct c; simpl in Hstep.
    + destruct (decide (CurrentAnimationState (Player s) = Unarmed)) as [Hstate|Hstate].
      * destruct (IsTargetLocking (Player s)) eqn:Hlock.
        -- rewrite TryTargetLock_locked in Hstep by assumption.
           destruct (LockTargetEnemy (Player s)) as [target|] eqn:Htarget.
           ++ destruct (UnlockTarget_run s target Htarget) as (s2 & Hrun2 & Hoff & _).
              rewrite Hstep in Hrun2. injection Hrun2 as <-. intros Hon. congruence.
           ++ rewrite UnlockTarget_null in Hstep by exact Htarget. discriminate.
        -- pose proof (SearchEnemyInFront_run E s) as Hsearch.
           match type of Hsearch with _ = Returned ?r _ => destruct r as [IsHit Actor] end.
           destruct (TryTargetLock_search E s IsHit Actor Hstate Hlock Hsearch)
             as (s2 & Hrun2 & Hres).
           rewrite Hstep in Hrun2. injection Hrun2 as <-.
           destruct IsHit; [destruct (Cast_AEnemyCharacter Actor) as [id|]|].
           ++ destruct Hres as (_ & Htarget & _). intros _. congruence.
           ++ destruct Hres as (Hoff & _). intros Hon. congruence.
           ++ subst s1. exact Hinv.
      * rewrite TryTargetLock_not_unarmed in Hstep by exact Hstate.
        injection Hstep as <-. exact Hinv.
    + destruct (LockTargetEnemy (Player s)) as [target|] eqn:Htarget.
      * destruct (UnlockTarget_run s target Htarget) as (s2 & Hrun2 & Hoff & _).
        rewrite Hstep in Hrun2. injection Hrun2 as <-. intros Hon. congruence.
      * rewrite UnlockTarget_null in Hstep by exact Htarget. discriminate.
    + destruct (IsTargetLocking (Player s)) eqn:Hlock.
      * destruct (LockTargetEnemy (Player s)) as [target|] eqn:Htarget.
        -- destruct (Tick_locked E DeltaSeconds s target Hlock Htarget) as (s2 & Hrun2 & Hkeep & _).
           rewrite Hstep in Hrun2. injection Hrun2 as <-. intros _. congruence.
        -- exfalso. now apply Hinv.
      * rewrite Tick_unlocked in Hstep by exact Hlock.
        injection Hstep as <-. intros Hon. simpl in Hon. congruence.
Qed.

(** ** Dodge roll *)

(** C8.  [TryDodgeRoll] changes nothing (plays no montage) unless
    [CanDodgeRoll] holds and no dodge is in progress.  When it does play,
    it plays exactly one montage: the forward roll when the player is not
    target-locking and the animation state is [Unarmed]; otherwise the right
    roll when [CurrentMovementVector.X > 0], else the left roll when
    [CurrentMovementVector.X < 0], else the backward roll when
    [CurrentMovementVector.Y < 0], and the forward roll in every remaining
    case. *)
Theorem TryDodgeRoll_spec (E : Externals) (s : State) :
  let p := Player s in
  let v := CurrentMovementVector p in
  (CanDodgeRoll E s = false \/ IsDodging E s = true -> TryDodgeRoll E s = Returned tt s) /\
  (CanDodgeRoll E s = true -> IsDodging E s = false ->
   exists d : DodgeDirection,
     TryDodgeRoll E s = Returned tt (logged (Montage_Play (DodgeMontage p d) 1) s) /\
     (IsTargetLocking p = false /\ CurrentAnimationState p = Unarmed -> d = RollForward) /\
     (~ (IsTargetLocking p = false /\ CurrentAnimationState p = Unarmed) ->
      ((0 <? FVector2D.X v)%float = true -> d = RollRight) /\
      ((0 <? FVector2D.X v)%float = false ->
       ((FVector2D.X v <? 0)%float = true -> d = RollLeft) /\
       ((FVector2D.X v <? 0)%float = false ->
        ((FVector2D.Y v <? 0)%float = true -> d = RollBackward) /\
        ((FVector2D.Y v <? 0)%float = false -> d = RollForward))))).
Proof.
  intros p v. split.
  - intros Hno. unfold TryDodgeRoll. run_method.
    destruct (CanDodgeRoll E s); [|reflexivity].
    destruct Hno as [Hcan|Hdodging]; [discriminate|].
    simpl. now rewrite Hdodging.
  - intros Hcan Hdodging. unfold TryDodgeRoll. run_method.
    rewrite Hcan. simpl. rewrite Hdodging. fold p. fold v.
    destruct (IsTargetLocking p) eqn:Hlock;
      [|destruct (decide (CurrentAnimationState p = Unarmed)) as [Hstate|Hstate]].
    3: rewrite bool_decide_eq_false_2 by exact Hstate.
    2:{ rewrite bool_decide_eq_true_2 by exact Hstate.
        exists RollForward. split; [reflexivity|]. split; [reflexivity|].
        intros Hnot. exfalso. apply Hnot. split; [reflexivity | exact Hstate]. }
    all: simpl;
      (destruct (0 <? FVector2D.X v)%float eqn:Hright;
       [exists RollRight
       |destruct (FVector2D.X v <? 0)%float eqn:Hleft;
        [exists RollLeft
        |destruct (FVector2D.Y v <? 0)%float eqn:Hback;
         [exists RollBackward | exists RollForward]]]);
      (split; [reflexivity|]);
      (split; [intros [? ?]; congruence|]);
      intros _; repeat split; congruence.
Qed.

Example TryDodgeRoll_unlocked_forward :
  TryDodgeRoll (Sample.world (false, None) false) (Sample.state Sample.player)
  = Returned tt (logged (Montage_Play (Sample.montage "DodgeRollForward") 1)
                   (Sample.state Sample.player)).
Proof. reflexivity. Qed.

Example TryDodgeRoll_locked_left :
  TryDodgeRoll (Sample.world (false, None) false)
    (Sample.state (set_CurrentMovementVector (FVector2D.mk (-1) 1) Sample.locked_player))
  = Returned tt (logged (Montage_Play (Sample.montage "DodgeRollLeft") 1)
      (Sample.state (set_CurrentMovementVector (FVector2D.mk (-1) 1) Sample.locked_player))).
Proof. reflexivity. Qed.

(** ** Sprint *)

(** C10.  [OnSprintStart] changes nothing when [IsSprinting] is already true
    or [CanSprint] fails; otherwise it sets [IsSprinting] and sets
    [MaxWalkSpeed] to [SprintSpeed].  [OnSprintEnd] changes nothing when
    [IsSprinting] is false; otherwise it clears [IsSprinting] and sets
    [MaxWalkSpeed] to [WalkSpeed].  So whenever [OnSprintStart] takes effect,
    [OnSprintEnd] right after it leaves [MaxWalkSpeed] at the value
    [WalkSpeed] had before the sprint (which is the [MaxWalkSpeed] from
    before the sprint whenever the two were equal then). *)
Theorem sprint_spec (E : Externals) (s : State) :
  let p := Player s in
  let can_sprint := (CanMove E s && negb (IsCrouching p) && negb (IsJumping E s))%bool in
  (IsSprinting p = true \/ can_sprint = false -> OnSprintStart E s = Returned tt s) /\
  (IsSprinting p = false -> OnSprintEnd s = Returned tt s) /\
  (IsSprinting p = true ->
   exists s' : State,
     OnSprintEnd s = Returned tt s' /\
     IsSprinting (Player s') = false /\
     MaxWalkSpeed (CharacterMovementComponent (Player s')) = WalkSpeed p) /\
  (IsSprinting p = false -> can_sprint = true ->
   exists s1 s2 : State,
     OnSprintStart E s = Returned tt s1 /\
     IsSprinting (Player s1) = true /\
     MaxWalkSpeed (CharacterMovementComponent (Player s1)) = SprintSpeed p /\
     OnSprintEnd s1 = Returned tt s2 /\
     IsSprinting (Player s2) = false /\
     WalkSpeed (Player s2) = WalkSpeed p /\
     MaxWalkSpeed (CharacterMovementComponent (Player s2)) = WalkSpeed p /\
     (MaxWalkSpeed (CharacterMovementComponent p) = WalkSpeed p ->
      MaxWalkSpeed (CharacterMovementComponent (Player s2)) =
      MaxWalkSpeed (CharacterMovementComponent p))).
Proof.
  intros p can_sprint. subst p can_sprint.
  split; [|split; [|split]].
  - intros Hno. unfold OnSprintStart, CanSprint. run_method.
    destruct (IsSprinting (Player s)); [reflexivity|].
    destruct Hno as [Hs|Hcannot]; [discriminate|].
    now rewrite Hcannot.
  - intros Hoff. unfold OnSprintEnd. run_method. now rewrite Hoff.
  - intros Hon. unfold OnSprintEnd. run_method. rewrite Hon. simpl.
    eexists. split; [reflexivity|]. split; reflexivity.
  - intros Hoff Hcan. unfold OnSprintStart, OnSprintEnd, CanSprint. run_method.
    rewrite Hoff, Hcan. simpl.
    do 2 eexists. split; [reflexivity|]. simpl.
    repeat split. intros Heq. symmetry. exact Heq.
Qed.

Example sprint_there_and_back :
  exists s1 s2,
    OnSprintStart (Sample.world (false, None) false) (Sample.state Sample.player)
      = Returned tt s1 /\
    MaxWalkSpeed (CharacterMovementComponent (Player s1)) = 800%float /\
    OnSprintEnd s1 = Returned tt s2 /\
    MaxWalkSpeed (CharacterMovementComponent (Player s2)) = 500%float /\
    Log s2 = [WeaponSystem_StartSprint; WeaponSystem_EndSprint].
Proof. do 2 eexists. repeat split. Qed.

(** ** Fist-attack combo *)

Lemma StartsWith_append (pat rest : string) : StartsWith pat (String.append pat rest) = true.
Proof.
  induction pat as [|c pat IH]; simpl.
  - reflexivity.
  - rewrite Ascii.eqb_refl. exact IH.
Qed.

(** A name that contains [SubStr] as written is found by
    [FString::Contains]. *)
Lemma FString_Contains_substring (pre SubStr post : string) :
  FString_Contains (String.append pre (String.append SubStr post)) SubStr = true.
Proof.
  induction pre as [|c pre IH]; simpl.
  - destruct (String.append SubStr post) eqn:Happ.
    + destruct SubStr; [reflexivity | discriminate].
    + simpl. rewrite <- Happ, StartsWith_append. reflexivity.
  - rewrite IH. apply orb_true_r.
Qed.

Lemma TryFistAttack_execute_none (E : Externals) (s : State) :
  InFrontExecutable E s = None -> TryFistAttack_execute E s = Returned false s.
Proof.
  unfold InFrontExecutable, TryFistAttack_execute. intros Hnone.
  rewrite SearchEnemyInFront_run in Hnone.
  rewrite (bind_Returned _ _ _ _ _ (SearchEnemyInFront_run E s)).
  destruct (SphereTraceSingleForObjects E s _) as [[|] Actor]; [|reflexivity].
  destruct (Cast_AEnemyCharacter Actor) as [id|]; [|reflexivity].
  run_method.
  destruct ((DistanceToPlayer (Enemies s id) <=? 130)%float && IsExecutable (Enemies s id))%bool;
    [discriminate | reflexivity].
Qed.

Lemma TryFistAttack_execute_some (E : Externals) (s : State) (id : positive) :
  InFrontExecutable E s = Some id ->
  TryFistAttack_execute E s =
    Returned true
      (logged (Montage_Play (ExecutePunchAttackMontage (Player s)) 1)
         (with_Player (set_ExecutingTarget (Some id) (Player s)) s)).
Proof.
  unfold InFrontExecutable, TryFistAttack_execute. intros Hsome.
  rewrite SearchEnemyInFront_run in Hsome.
  rewrite (bind_Returned _ _ _ _ _ (SearchEnemyInFront_run E s)).
  destruct (SphereTraceSingleForObjects E s _) as [[|] Actor]; [|discriminate].
  destruct (Cast_AEnemyCharacter Actor) as [id'|]; [|discriminate].
  run_method.
  destruct ((DistanceToPlayer (Enemies s id') <=? 130)%float && IsExecutable (Enemies s id'))%bool;
    [|discriminate].
  injection Hsome as ->. reflexivity.
Qed.

(** With an executable enemy in reach [TryFistAttack] starts the execution
    montage, whether or not a fist-attack montage is playing; the flag
    stays as it was. *)
Lemma TryFistAttack_executes (E : Externals) (s : State) (id : positive) :
  FistAttackMontages (Player s) <> [] ->
  InFrontExecutable E s = Some id ->
  TryFistAttack E s =
    Returned tt
      (logged (Montage_Play (ExecutePunchAttackMontage (Player s)) 1)
         (with_Player (set_ExecutingTarget (Some id) (Player s)) s)).
Proof.
  intros Hmontages Hsome. unfold TryFistAttack.
  unfold bind at 1. unfold this at 1.
  destruct (FistAttackMontages (Player s)) as [|m ms]; [congruence|].
  now rewrite (bind_Returned _ _ _ _ _ (TryFistAttack_execute_some E s id Hsome)).
Qed.

Lemma TryFistAttack_buffers (E : Externals) (s : State) :
  FistAttackMontages (Player s) <> [] ->
  InFrontExecutable E s = None ->
  IsPlayingFistAttackMontage E s = true ->
  TryFistAttack E s =
    Returned tt (with_Player (set_IsMeleeAttackInputReceived true (Player s)) s).
Proof.
  intros Hmontages Hnone Hplaying. unfold TryFistAttack.
  unfold bind at 1. unfold this at 1.
  destruct (FistAttackMontages (Player s)) as [|m ms]; [congruence|].
  rewrite (bind_Returned _ _ _ _ _ (TryFistAttack_execute_none E s Hnone)).
  run_method. now rewrite Hplaying.
Qed.

Lemma OnPlayMontageNotifyBegin_ComboContinue (s : State) :
  OnPlayMontageNotifyBegin "ComboContinue" s =
    Returned tt
      (with_Player (set_IsMeleeAttackInputReceived false (Player s))
         (if IsMeleeAttackInputReceived (Player s) then s
          else logged (Montage_Stop 0x1.666666p-2) s)).
Proof.
  unfold OnPlayMontageNotifyBegin.
  change (FName_eq "ComboContinue" "ComboContinue") with true.
  change (FName_eq "ComboContinue" "Execute") with false.
  change (FName_eq "ComboContinue" "BeginPush") with false.
  run_method.
  destruct (IsMeleeAttackInputReceived (Player s)); reflexivity.
Qed.

(** C9, as the code has it.  [TryFistAttack] sets
    [IsMeleeAttackInputReceived] and starts no montage when a fist-attack
    montage is playing, [FistAttackMontages] is not empty and no executable
    enemy is within reach in front; with one in reach it starts the
    execution montage instead, whether or not a montage is playing, and
    leaves the flag as it is.  At a
    "ComboContinue" notify the montage is stopped exactly when the flag is
    false, and the flag is false afterwards in either case.  When a montage
    whose name contains "Combo" ends, the flag is false afterwards. *)
Theorem combo_input_spec (E : Externals) (s : State) :
  (FistAttackMontages (Player s) <> [] ->
   InFrontExecutable E s = None ->
   IsPlayingFistAttackMontage E s = true ->
   exists s' : State,
     TryFistAttack E s = Returned tt s' /\
     IsMeleeAttackInputReceived (Player s') = true /\
     Log s' = Log s) /\
  (forall id : positive,
     FistAttackMontages (Player s) <> [] ->
     InFrontExecutable E s = Some id ->
     exists s' : State,
       TryFistAttack E s = Returned tt s' /\
       IsMeleeAttackInputReceived (Player s') = IsMeleeAttackInputReceived (Player s) /\
       Log s' = Log s ++ [Montage_Play (ExecutePunchAttackMontage (Player s)) 1]) /\
  (exists s' : State,
     OnPlayMontageNotifyBegin "ComboContinue" s = Returned tt s' /\
     IsMeleeAttackInputReceived (Player s') = false /\
     (IsMeleeAttackInputReceived (Player s) = false ->
      Log s' = Log s ++ [Montage_Stop 0x1.666666p-2]) /\
     (IsMeleeAttackInputReceived (Player s) = true -> Log s' = Log s)) /\
  (forall (Montage : UAnimMontage) (bInterrupted : bool) (pre post : string),
     GetName Montage = String.append pre (String.append "Combo" post) ->
     exists s' : State,
       OnMontageEnded E Montage bInterrupted s = Returned tt s' /\
       IsMeleeAttackInputReceived (Player s') = false).
Proof.
  split; [|split; [|split]].
  - intros Hmontages Hnone Hplaying.
    rewrite TryFistAttack_buffers by assumption.
    eexists. split; [reflexivity|]. split; reflexivity.
  - intros id Hmontages Hsome.
    rewrite (TryFistAttack_executes E s id) by assumption.
    eexists. split; [reflexivity|]. split; reflexivity.
  - rewrite OnPlayMontageNotifyBegin_ComboContinue.
    eexists. split; [reflexivity|]. split; [reflexivity|].
    split; intros Hflag; rewrite Hflag; reflexivity.
  - intros Montage bInterrupted pre post Hname.
    unfold OnMontageEnded. run_method.
    rewrite Hname, FString_Contains_substring.
    eexists. split; reflexivity.
Qed.

(** Mid-combo (a fist-attack montage is playing) with a staggered enemy
    within reach: [TryFistAttack] starts the execution montage and does not
    set the flag. *)
Lemma TryFistAttack_counterexample :
  IsPlayingFistAttackMontage (Sample.world (true, Some (EnemyCharacterActor 7)) true)
    (Sample.arena Sample.staggered Sample.player) = true /\
  exists s' : State,
    TryFistAttack (Sample.world (true, Some (EnemyCharacterActor 7)) true)
      (Sample.arena Sample.staggered Sample.player) = Returned tt s' /\
    IsMeleeAttackInputReceived (Player s') = false /\
    Log s' = [Montage_Play (Sample.montage "ExecutePunch") 1].
Proof.
  split; [reflexivity|].
  eexists. split; [vm_compute; reflexivity|]. split; reflexivity.
Qed.

Example TryFistAttack_buffers_input :
  TryFistAttack (Sample.world (false, None) true) (Sample.state Sample.player)
  = Returned tt (Sample.state (set_IsMeleeAttackInputReceived true Sample.player)).
Proof. reflexivity. Qed.

Example TryFistAttack_starts_combo :
  TryFistAttack (Sample.world (false, None) false) (Sample.state Sample.player)
  = Returned tt (logged (Montage_Play (Sample.montage "FistCombo_A") 1)
                   (Sample.state Sample.player)).
Proof. reflexivity. Qed.

Example OnMontageEnded_ignores_case :
  exists s', OnMontageEnded (Sample.world (false, None) false) (Sample.montage "fist_combo_2") false
               (Sample.state (set_IsMeleeAttackInputReceived true Sample.player))
             = Returned tt s' /\
             IsMeleeAttackInputReceived (Player s') = false.
Proof. eexists. split; reflexivity. Qed.

(** ** The Transporter *)

Module TransporterFacts.
Import Transporter.
Local Open Scope Q_scope.









Lemma Lerp_start (p q : Point) (a : Q) : a == 0 -> Point_eq (Lerp p q a) p.
Proof.
  intros Ha. unfold Point_eq, Lerp. simpl. rewrite Ha. repeat split; ring.
Qed.



Example lift_half_way :
  Travelled (run_ticks [1 # 2; 1 # 2] (OnButtonActivated Sample.lift)) == 1 /\
  Point_eq (OwnerLocation (run_ticks [1 # 2; 1 # 2] (OnButtonActivated Sample.lift)))
           {| PX := 0; PY := 0; PZ := 5 |}.
Proof. split; [reflexivity|]. repeat split. Qed.

Example lift_waits_untriggered :
  Travelled (run_ticks [1 # 2; 1 # 2] Sample.lift) = 0.
Proof. reflexivity. Qed.

End TransporterFacts.

(** ** The statements at concrete inputs *)

Lemma AddInventoryItem_spec_witness :
  (exists s' : State,
     AddInventoryItem None 4 (Sample.state_with {[Some Sample.vinegar := 3]}) = Returned false s' /\
     InventoryData (Player s') = {[Some Sample.vinegar := 3]}) /\
  (exists s' : State,
     AddInventoryItem (Some Sample.vinegar) 4 (Sample.state_with {[Some Sample.vinegar := 3]})
       = Returned true s' /\
     InventoryData (Player s') !! Some Sample.vinegar = Some 5).
Proof.
  destruct (AddInventoryItem_spec None 4 (Sample.state_with {[Some Sample.vinegar := 3]}))
    as [Hrejected _].
  destruct (AddInventoryItem_spec (Some Sample.vinegar) 4
              (Sample.state_with {[Some Sample.vinegar := 3]})) as [_ Hadded].
  split.
  - apply Hrejected. left. reflexivity.
  - destruct (Hadded Sample.vinegar eq_refl ltac:(reflexivity)) as (s' & Hrun & _ & Hheld).
    exists s'. split; [exact Hrun|].
    destruct (Hheld 3 ltac:(reflexivity)) as [Hstored _].
    rewrite Hstored. reflexivity.
Defined.

Lemma RemoveInventoryItem_spec_witness :
  (exists s' : State,
     RemoveInventoryItem (Some Sample.vinegar) 1 (Sample.state_with {[Some Sample.vinegar := 3]})
       = Returned true s' /\
     InventoryData (Player s') = {[Some Sample.vinegar := 2]}) /\
  (exists s' : State,
     RemoveInventoryItem (Some Sample.vinegar) 3 (Sample.state_with {[Some Sample.vinegar := 3]})
       = Returned true s' /\
     InventoryData (Player s') = ∅) /\
  (exists s' : State,
     RemoveInventoryItem (Some Sample.pebble) 1 (Sample.state_with {[Some Sample.vinegar := 3]})
       = Returned false s' /\
     InventoryData (Player s') = {[Some Sample.vinegar := 3]}).
Proof.
  destruct (RemoveInventoryItem_spec (Sample.state_with {[Some Sample.vinegar := 3]}))
    as (Hsome & Hall & Hnone).
  split; [|split].
  - apply (Hsome Sample.vinegar 3 1); [reflexivity | split; discriminate | reflexivity | split; reflexivity].
  - apply (Hall Sample.vinegar 3 3);
      [reflexivity | discriminate | split; discriminate | split; discriminate | left; discriminate].
  - apply (Hnone (Some Sample.pebble) 1). right. discriminate.
Defined.

Lemma TryTargetLock_spec_witness :
  (exists s' : State,
     TryTargetLock (Sample.world (false, None) false) (Sample.state Sample.locked_player)
       = Returned tt s' /\
     IsTargetLocking (Player s') = false /\
     TargetWidget_IsVisible (Enemies s' 7%positive) = false /\
     bOrientRotationToMovement (CharacterMovementComponent (Player s')) = true) /\
  (TryTargetLock (Sample.world (false, None) false)
     (Sample.state (set_CurrentAnimationState Pistol Sample.player))
   = Returned tt (Sample.state (set_CurrentAnimationState Pistol Sample.player))).
Proof.
  destruct (TryTargetLock_spec (Sample.world (false, None) false)
              (Sample.state Sample.locked_player)) as (_ & Hunlock & _).
  destruct (TryTargetLock_spec (Sample.world (false, None) false)
              (Sample.state (set_CurrentAnimationState Pistol Sample.player))) as (Hidle & _).
  split.
  - apply Hunlock; reflexivity.
  - apply Hidle. discriminate.
Defined.

Lemma TryDodgeRoll_spec_witness :
  exists d : DodgeDirection,
    TryDodgeRoll (Sample.world (false, None) false) (Sample.state Sample.locked_player)
    = Returned tt (logged (Montage_Play (DodgeMontage Sample.locked_player d) 1)
                     (Sample.state Sample.locked_player)) /\
    d = RollForward.
Proof.
  destruct (TryDodgeRoll_spec (Sample.world (false, None) false)
              (Sample.state Sample.locked_player)) as [_ Hplays].
  destruct (Hplays eq_refl eq_refl) as (d & Hrun & _ & Hlocked).
  exists d. split; [exact Hrun|].
  apply Hlocked; try reflexivity.
  intros [Hoff _]. discriminate Hoff.
Defined.

Lemma combo_input_spec_witness :
  (exists s' : State,
     TryFistAttack (Sample.world (false, None) true) (Sample.state Sample.player)
       = Returned tt s' /\
     IsMeleeAttackInputReceived (Player s') = true /\
     Log s' = []) /\
  (exists s' : State,
     TryFistAttack (Sample.world (true, Some (EnemyCharacterActor 7)) true)
       (Sample.arena Sample.staggered Sample.player) = Returned tt s' /\
     IsMeleeAttackInputReceived (Player s') = false /\
     Log s' = [Montage_Play (Sample.montage "ExecutePunch") 1]) /\
  (exists s' : State,
     OnMontageEnded (Sample.world (false, None) true) (Sample.montage "FistCombo_A") false
       (Sample.state Sample.player) = Returned tt s' /\
     IsMeleeAttackInputReceived (Player s') = false).
Proof.
  destruct (combo_input_spec (Sample.world (false, None) true) (Sample.state Sample.player))
    as (Hbuffer & _ & _ & Hended).
  destruct (combo_input_spec (Sample.world (true, Some (EnemyCharacterActor 7)) true)
              (Sample.arena Sample.staggered Sample.player))
    as (_ & Hexecute & _ & _).
  split; [|split].
  - apply Hbuffer; [discriminate | reflexivity | reflexivity].
  - apply (Hexecute 7%positive); [discriminate | reflexivity].
  - apply (Hended (Sample.montage "FistCombo_A") false "Fist"%string "_A"%string). reflexivity.
Defined.

Lemma sprint_spec_witness :
  exists s1 s2 : State,
    OnSprintStart (Sample.world (false, None) false) (Sample.state Sample.player)
      = Returned tt s1 /\
    OnSprintEnd s1 = Returned tt s2 /\
    MaxWalkSpeed (CharacterMovementComponent (Player s2)) = 500%float.
Proof.
  destruct (sprint_spec (Sample.world (false, None) false) (Sample.state Sample.player))
    as (_ & _ & _ & Hround).
  destruct (Hround eq_refl eq_refl) as (s1 & s2 & Hstart & _ & _ & Hend & _ & _ & Hspeed & _).
  exists s1, s2. split; [exact Hstart|]. split; [exact Hend | exact Hspeed].
Defined.

(** * Further properties *)

(** ** Inventory: what a call leaves alone *)

Lemma inventory_frame_logged (Item : UItemPtr) (e : Event) (s : State) :
  inventory_frame Item s (logged e s).
Proof. intros Other _. reflexivity. Qed.

Lemma inventory_frame_insert (Item : UItemPtr) (v : Z) (s : State) :
  inventory_frame Item s
    (with_Player (set_InventoryData (<[Item := v]> (InventoryData (Player s))) (Player s)) s).
Proof.
  intros Other Hne. simpl. now rewrite lookup_insert_ne by congruence.
Qed.

Lemma inventory_frame_delete (Item : UItemPtr) (s : State) :
  inventory_frame Item s
    (with_Player (set_InventoryData (delete Item (InventoryData (Player s))) (Player s)) s).
Proof.
  intros Other Hne. simpl. now rewrite lookup_delete_ne by congruence.
Qed.

Lemma inventory_frame_then_logged (Item : UItemPtr) (e : Event) (s s' : State) :
  inventory_frame Item s s' -> inventory_frame Item s (logged e s').
Proof. intros Hother. exact Hother. Qed.

Lemma AddInventoryItem_frame (NewItem : UItemPtr) (ItemCount : Z) (s : State) :
  exists (b : bool) (s' : State),
    AddInventoryItem NewItem ItemCount s = Returned b s' /\
    inventory_frame NewItem s s' /\
    (b = false -> InventoryData (Player s') = InventoryData (Player s)).
Proof.
  destruct NewItem as [item|].
  2:{ rewrite AddInventoryItem_null.
      do 2 eexists. split; [reflexivity|]. split; [apply inventory_frame_logged | reflexivity]. }
  destruct (Z_le_gt_dec ItemCount 0) as [Hle|Hgt].
  { rewrite AddInventoryItem_bad_count by exact Hle.
    do 2 eexists. split; [reflexivity|]. split; [apply inventory_frame_logged | reflexivity]. }
  destruct (InventoryData (Player s) !! Some item) as [old|] eqn:Hold.
  - rewrite (AddInventoryItem_existing item ItemCount old) by (assumption || lia).
    do 2 eexists. split; [reflexivity|]. split; [apply inventory_frame_insert | discriminate].
  - rewrite AddInventoryItem_new by (assumption || lia).
    do 2 eexists. split; [reflexivity|].
    split; [apply inventory_frame_then_logged, inventory_frame_insert | discriminate].
Qed.

Lemma RemoveInventoryItem_frame (RemovedItem : UItemPtr) (RemoveCount : Z) (s : State) :
  exists (b : bool) (s' : State),
    RemoveInventoryItem RemovedItem RemoveCount s = Returned b s' /\
    inventory_frame RemovedItem s s' /\
    (b = false -> InventoryData (Player s') = InventoryData (Player s)).
Proof.
  destruct RemovedItem as [item|].
  2:{ rewrite RemoveInventoryItem_null.
      do 2 eexists. split; [reflexivity|]. split; [apply inventory_frame_logged | reflexivity]. }
  destruct (InventoryData (Player s) !! Some item) as [c|] eqn:Hc.
  2:{ rewrite RemoveInventoryItem_nothing by (rewrite Hc; simpl; lia).
      do 2 eexists. split; [reflexivity|]. split; [apply inventory_frame_logged | reflexivity]. }
  destruct (Z_le_gt_dec c 0) as [Hle|Hgt].
  { rewrite RemoveInventoryItem_nothing by (rewrite Hc; simpl; lia).
    do 2 eexists. split; [reflexivity|]. split; [apply inventory_frame_logged | reflexivity]. }
  rewrite (RemoveInventoryItem_held item RemoveCount c) by (assumption || lia).
  do 2 eexists. split; [reflexivity|]. split; [|discriminate].
  destruct (0 <? remaining item c RemoveCount).
  - apply inventory_frame_insert.
  - apply inventory_frame_delete.
Qed.

Lemma UseItem_frame (Item : UItemPtr) (s : State) :
  exists (b : bool) (s' : State),
    UseItem Item s = Returned b s' /\
    inventory_frame Item s s' /\
    (b = false -> InventoryData (Player s') = InventoryData (Player s)).
Proof.
  unfold UseItem.
  rewrite (bind_Returned _ _ _ _ _ (GetInventoryItemCount_run _ _)).
  destruct (default 0 (InventoryData (Player s) !! Item) <=? 0).
  { do 2 eexists. split; [reflexivity|]. split; [apply inventory_frame_logged | reflexivity]. }
  destruct (RemoveInventoryItem_frame Item 1 s) as (b & s' & Hrun & Hframe & Hfalse).
  rewrite (bind_Returned _ _ _ _ _ Hrun).
  destruct b; do 2 eexists; (split; [reflexivity|]).
  - split; [now do 2 apply inventory_frame_then_logged | discriminate].
  - split; [exact Hframe | exact Hfalse].
Qed.

(** X1.  A call of [AddInventoryItem], [RemoveInventoryItem] or [UseItem]
    always returns and leaves the inventory entry of every other item as
    it was; when it returns false the whole inventory is as before. *)
Theorem inventory_call_frame (c : InventoryCall) (s : State) :
  exists (b : bool) (s' : State),
    run_call c s = Returned b s' /\
    (forall Other : UItemPtr,
       Other <> call_item c ->
       InventoryData (Player s') !! Other = InventoryData (Player s) !! Other) /\
    (b = false -> InventoryData (Player s') = InventoryData (Player s)).
Proof.
  destruct c as [NewItem ItemCount | RemovedItem RemoveCount | Item]; simpl.
  - apply AddInventoryItem_frame.
  - apply RemoveInventoryItem_frame.
  - apply UseItem_frame.
Qed.

(** ** Inventory: the null item is never stored *)

Lemma run_call_keeps_null_out (c : InventoryCall) (s : State) :
  InventoryData (Player s) !! None = None ->
  exists (b : bool) (s' : State),
    run_call c s = Returned b s' /\ InventoryData (Player s') !! None = None.
Proof.
  intros Hnull.
  assert (Hlogged : forall e, InventoryData (Player (logged e s)) !! None = None)
    by (intros e; exact Hnull).
  destruct (call_item c) as [item|] eqn:Hitem.
  - destruct c as [NewItem ItemCount | RemovedItem RemoveCount | Item];
      simpl in Hitem; subst; cbn [run_call].
    + destruct (AddInventoryItem_frame (Some item) ItemCount s) as (b & s' & Hrun & Hother & _).
      exists b, s'. split; [exact Hrun|]. now rewrite Hother.
    + destruct (RemoveInventoryItem_frame (Some item) RemoveCount s)
        as (b & s' & Hrun & Hother & _).
      exists b, s'. split; [exact Hrun|]. now rewrite Hother.
    + destruct (UseItem_frame (Some item) s) as (b & s' & Hrun & Hother & _).
      exists b, s'. split; [exact Hrun|]. now rewrite Hother.
  - destruct c as [NewItem ItemCount | RemovedItem RemoveCount | Item];
      simpl in Hitem; subst; cbn [run_call].
    + rewrite AddInventoryItem_null. eauto.
    + rewrite RemoveInventoryItem_null. eauto.
    + unfold UseItem.
      rewrite (bind_Returned _ _ _ _ _ (GetInventoryItemCount_run _ _)).
      rewrite Hnull. simpl. eauto.
Qed.

(** X2.  When the inventory holds nothing under the null item (as the empty
    inventory does), no sequence of [AddInventoryItem], [RemoveInventoryItem]
    and [UseItem] calls stores anything under it: afterwards
    [HasItem(nullptr)] is false and [GetInventoryItemCount(nullptr)] is 0. *)
Theorem inventory_never_holds_null (cs : list InventoryCall) (s : State) :
  InventoryData (Player s) !! None = None ->
  exists s' : State,
    run_calls cs s = Returned tt s' /\
    InventoryData (Player s') !! None = None /\
    HasItem None s' = Returned false s' /\
    GetInventoryItemCount None s' = Returned 0 s'.
Proof.
  revert s. induction cs as [|c cs IH]; intros s Hnull.
  - exists s. split; [reflexivity|]. split; [exact Hnull|].
    rewrite HasItem_run, GetInventoryItemCount_run, Hnull. split; [|reflexivity].
    now rewrite bool_decide_eq_false_2 by (intros [? ?]; discriminate).
  - destruct (run_call_keeps_null_out c s Hnull) as (b & s1 & Hrun & Hnull1).
    destruct (IH s1 Hnull1) as (s' & Hrest & Hres).
    exists s'. split; [|exact Hres].
    simpl. rewrite (bind_Returned _ _ _ _ _ Hrun). exact Hrest.
Qed.

Lemma inventory_never_holds_null_witness :
  exists s' : State,
    run_calls [Call_AddInventoryItem None 3; Call_AddInventoryItem (Some Sample.pebble) 2;
               Call_UseItem None]
              (Sample.state_with ∅) = Returned tt s' /\
    InventoryData (Player s') !! None = None /\
    HasItem None s' = Returned false s' /\
    GetInventoryItemCount None s' = Returned 0 s'.
Proof.
  apply (inventory_never_holds_null
           [Call_AddInventoryItem None 3; Call_AddInventoryItem (Some Sample.pebble) 2;
            Call_UseItem None] (Sample.state_with ∅)).
  reflexivity.
Defined.

(** ** Inventory: adding and taking back *)

Lemma remaining_same (item : UItem) (n : Z) : 0 < n -> remaining item n n = 0.
Proof.
  intros Hn. unfold remaining, sub_int32.
  destruct (Z.leb_spec n 0); [lia|].
  rewrite Z.sub_diag, FMath_Clamp_spec. change (wrap_int32 0) with 0. lia.
Qed.

(** X3.  Picking up [n > 0] of an item that is not held and then removing
    [n] of it both succeed and leave the inventory exactly as it was,
    whatever the item's [MaxCount]; the only trace is the [OnPlayerAddItem]
    broadcast. *)
Theorem AddInventoryItem_then_RemoveInventoryItem (item : UItem) (n : Z) (s : State) :
  0 < n ->
  InventoryData (Player s) !! Some item = None ->
  exists s1 s2 : State,
    AddInventoryItem (Some item) n s = Returned true s1 /\
    RemoveInventoryItem (Some item) n s1 = Returned true s2 /\
    InventoryData (Player s2) = InventoryData (Player s) /\
    Log s2 = Log s ++ [OnPlayerAddItem_Broadcast item].
Proof.
  intros Hn Hnone.
  rewrite AddInventoryItem_new by assumption.
  eexists. eexists. split; [reflexivity|].
  rewrite (RemoveInventoryItem_held item n n) by (simpl; rewrite ?lookup_insert_eq; auto).
  rewrite remaining_same by exact Hn. simpl.
  split; [reflexivity|]. split; [|reflexivity].
  now apply delete_insert_id.
Qed.

Lemma AddInventoryItem_then_RemoveInventoryItem_witness :
  exists s1 s2 : State,
    AddInventoryItem (Some Sample.pebble) 4 (Sample.state_with {[Some Sample.vinegar := 3]})
      = Returned true s1 /\
    RemoveInventoryItem (Some Sample.pebble) 4 s1 = Returned true s2 /\
    InventoryData (Player s2) = {[Some Sample.vinegar := 3]} /\
    Log s2 = [OnPlayerAddItem_Broadcast Sample.pebble].
Proof.
  exact (AddInventoryItem_then_RemoveInventoryItem Sample.pebble 4
           (Sample.state_with {[Some Sample.vinegar := 3]}) eq_refl eq_refl).
Defined.

(** ** Inventory: items without a cap *)

Lemma remaining_uncapped (item : UItem) (c n : Z) :
  MaxCount item <= 0 -> remaining item c n <= 0.
Proof.
  intros Hcap. unfold remaining.
  destruct (n <=? 0); [lia|]. rewrite FMath_Clamp_spec. lia.
Qed.

Lemma remaining_value (item : UItem) (c n : Z) :
  is_int32 c -> 0 < c -> 0 < n -> is_int32 n ->
  remaining item c n = Z.max 0 (Z.min (c - n) (MaxCount item)).
Proof.
  intros Hc Hpos Hn Hint. unfold remaining.
  destruct (Z.leb_spec n 0); [lia|].
  rewrite FMath_Clamp_spec. unfold sub_int32.
  rewrite wrap_int32_id; [reflexivity|].
  unfold is_int32, MIN_int32, MAX_int32 in *. lia.
Qed.

(** After a removal from a held item the count reads as the count kept, or
    as 0 when the entry went. *)
Lemma RemoveInventoryItem_count (item : UItem) (n c : Z) (s : State) :
  InventoryData (Player s) !! Some item = Some c ->
  0 < c ->
  exists s' : State,
    RemoveInventoryItem (Some item) n s = Returned true s' /\
    default 0 (InventoryData (Player s') !! Some item) = Z.max 0 (remaining item c n) /\
    (remaining item c n <= 0 ->
     InventoryData (Player s') = delete (Some item) (InventoryData (Player s))) /\
    Log s' = Log s.
Proof.
  intros Hc Hpos.
  rewrite (RemoveInventoryItem_held item n c) by assumption.
  eexists. split; [reflexivity|]. simpl.
  destruct (Z.ltb_spec 0 (remaining item c n)) as [Hk|Hk].
  - rewrite lookup_insert_eq. simpl. repeat split; lia.
  - rewrite lookup_delete_eq. simpl. repeat split; lia.
Qed.

(** X4.  An item whose [MaxCount] is 0 or less (the items [AddInventoryItem]
    stores without limit) loses its whole entry at the first removal: for
    every count [c >= 1] held and every [RemoveCount], [RemoveInventoryItem]
    returns true and removes the entry, and so does [UseItem]. *)
Theorem uncapped_item_is_removed_whole (item : UItem) (c : Z) (s : State) :
  MaxCount item <= 0 ->
  InventoryData (Player s) !! Some item = Some c ->
  0 < c ->
  (forall RemoveCount : Z,
     exists s' : State,
       RemoveInventoryItem (Some item) RemoveCount s = Returned true s' /\
       InventoryData (Player s') = delete (Some item) (InventoryData (Player s))) /\
  (exists s' : State,
     UseItem (Some item) s = Returned true s' /\
     InventoryData (Player s') = delete (Some item) (InventoryData (Player s))).
Proof.
  intros Hcap Hc Hpos.
  assert (Hremove : forall RemoveCount : Z,
             exists s' : State,
               RemoveInventoryItem (Some item) RemoveCount s = Returned true s' /\
               InventoryData (Player s') = delete (Some item) (InventoryData (Player s))).
  { intros n.
    destruct (RemoveInventoryItem_count item n c s Hc Hpos) as (s' & Hrun & _ & Hgone & _).
    exists s'. split; [exact Hrun|]. apply Hgone. now apply remaining_uncapped. }
  split; [exact Hremove|].
  destruct (Hremove 1) as (s' & Hrun & Hgone).
  unfold UseItem.
  rewrite (bind_Returned _ _ _ _ _ (GetInventoryItemCount_run _ _)).
  rewrite Hc. simpl.
  destruct (Z.leb_spec c 0); [lia|].
  rewrite (bind_Returned _ _ _ _ _ Hrun).
  eexists. split; [reflexivity|]. exact Hgone.
Qed.

Lemma uncapped_item_is_removed_whole_witness :
  (forall RemoveCount : Z,
     exists s' : State,
       RemoveInventoryItem (Some Sample.pebble) RemoveCount
         (Sample.state_with {[Some Sample.pebble := 40]}) = Returned true s' /\
       InventoryData (Player s') = ∅) /\
  (exists s' : State,
     UseItem (Some Sample.pebble) (Sample.state_with {[Some Sample.pebble := 40]})
       = Returned true s' /\
     InventoryData (Player s') = ∅).
Proof.
  exact (uncapped_item_is_removed_whole Sample.pebble 40
           (Sample.state_with {[Some Sample.pebble := 40]})
           ltac:(discriminate) eq_refl eq_refl).
Defined.

(** ** Inventory: using an item *)

(** X5.  In an inventory that holds nothing under the null item, [UseItem]
    returns true exactly when the count of the item is positive.  It then
    heals and broadcasts [OnPlayerUseItem], in this order, and the count
    reads [max(0, min(c - 1, MaxCount))] afterwards, which is less than
    before.  Otherwise it shows "No Item in Inventory" and changes nothing
    else. *)
Theorem UseItem_spec (Item : UItemPtr) (s : State) :
  InventoryData (Player s) !! None = None ->
  let c := default 0 (InventoryData (Player s) !! Item) in
  (c <= 0 ->
   UseItem Item s = Returned false (logged (AddOnScreenDebugMessage "No Item in Inventory") s)) /\
  (0 < c -> is_int32 c ->
   exists (item : UItem) (s' : State),
     Item = Some item /\
     UseItem Item s = Returned true s' /\
     default 0 (InventoryData (Player s') !! Item) = Z.max 0 (Z.min (c - 1) (MaxCount item)) /\
     default 0 (InventoryData (Player s') !! Item) < c /\
     Log s' = Log s ++ [Heal_HalfMaxHp; OnPlayerUseItem_Broadcast]).
Proof.
  intros Hnull c. subst c. split.
  - intros Hle. unfold UseItem.
    rewrite (bind_Returned _ _ _ _ _ (GetInventoryItemCount_run _ _)).
    destruct (Z.leb_spec (default 0 (InventoryData (Player s) !! Item)) 0); [reflexivity | lia].
  - intros Hpos Hint.
    destruct Item as [item|]; [|rewrite Hnull in Hpos; simpl in Hpos; lia].
    destruct (InventoryData (Player s) !! Some item) as [c|] eqn:Hc; simpl in *; [|lia].
    destruct (RemoveInventoryItem_count item 1 c s Hc Hpos) as (s' & Hrun & Hcount & _ & Hlog).
    rewrite remaining_value in Hcount
      by (assumption || lia || (unfold is_int32, MIN_int32, MAX_int32; lia)).
    exists item. eexists. split; [reflexivity|].
    unfold UseItem.
    rewrite (bind_Returned _ _ _ _ _ (GetInventoryItemCount_run _ _)).
    rewrite Hc. simpl.
    destruct (Z.leb_spec c 0); [lia|].
    rewrite (bind_Returned _ _ _ _ _ Hrun).
    split; [reflexivity|]. simpl.
    split; [lia|]. split; [lia|].
    rewrite Hlog, <- app_assoc. reflexivity.
Qed.

Lemma UseItem_spec_witness :
  exists (item : UItem) (s' : State),
    Some Sample.vinegar = Some item /\
    UseItem (Some Sample.vinegar) (Sample.state_with {[Some Sample.vinegar := 3]})
      = Returned true s' /\
    default 0 (InventoryData (Player s') !! Some Sample.vinegar)
      = Z.max 0 (Z.min (3 - 1) (MaxCount item)) /\
    default 0 (InventoryData (Player s') !! Some Sample.vinegar) < 3 /\
    Log s' = [Heal_HalfMaxHp; OnPlayerUseItem_Broadcast].
Proof.
  assert (Hnull : InventoryData (Player (Sample.state_with {[Some Sample.vinegar := 3]}))
                    !! None = None) by reflexivity.
  destruct (UseItem_spec (Some Sample.vinegar) (Sample.state_with {[Some Sample.vinegar := 3]})
              Hnull) as [_ Hused].
  apply Hused.
  - reflexivity.
  - split; discriminate.
Defined.

(** ** Inventory: the cap *)

Lemma within_caps_insert (item : UItem) (v : Z) (m : gmap UItemPtr Z) :
  within_caps m ->
  (0 < MaxCount item -> v <= MaxCount item) ->
  within_caps (<[Some item := v]> m).
Proof.
  intros Hcaps Hv other c.
  destruct (decide (Some item = Some other)) as [[= ->]|Hne].
  - rewrite lookup_insert_eq. intros [= <-]. exact Hv.
  - rewrite lookup_insert_ne by exact Hne. apply Hcaps.
Qed.

Lemma within_caps_delete (Item : UItemPtr) (m : gmap UItemPtr Z) :
  within_caps m -> within_caps (delete Item m).
Proof.
  intros Hcaps other c.
  destruct (decide (Item = Some other)) as [->|Hne].
  - rewrite lookup_delete_eq. discriminate.
  - rewrite lookup_delete_ne by exact Hne. apply Hcaps.
Qed.

Lemma remaining_within_cap (item : UItem) (c n : Z) :
  0 < remaining item c n -> 0 < MaxCount item -> remaining item c n <= MaxCount item.
Proof.
  unfold remaining. destruct (n <=? 0); [lia|]. rewrite FMath_Clamp_spec. lia.
Qed.

Lemma within_caps_after_removal (item : UItem) (c n : Z) (m : gmap UItemPtr Z) :
  within_caps m ->
  within_caps (if 0 <? remaining item c n
               then <[Some item := remaining item c n]> m
               else delete (Some item) m).
Proof.
  intros Hcaps. destruct (Z.ltb_spec 0 (remaining item c n)) as [Hk|Hk].
  - apply within_caps_insert; [exact Hcaps | now apply remaining_within_cap].
  - now apply within_caps_delete.
Qed.

Lemma run_call_within_caps (c : InventoryCall) (s : State) :
  within_caps (InventoryData (Player s)) ->
  asks_within_cap c ->
  exists (b : bool) (s' : State),
    run_call c s = Returned b s' /\ within_caps (InventoryData (Player s')).
Proof.
  intros Hcaps Hasks.
  destruct c as [[item|] ItemCount | [item|] RemoveCount | Item]; cbn [run_call].
  - destruct (Z_le_gt_dec ItemCount 0) as [Hle|Hgt].
    { rewrite AddInventoryItem_bad_count by exact Hle. eauto. }
    destruct (InventoryData (Player s) !! Some item) as [old|] eqn:Hold.
    + rewrite (AddInventoryItem_existing item ItemCount old) by (assumption || lia).
      do 2 eexists. split; [reflexivity|]. simpl.
      apply within_caps_insert; [exact Hcaps|].
      intros Hcap. rewrite FMath_Clamp_spec.
      destruct (Z.leb_spec (MaxCount item) 0); lia.
    + rewrite AddInventoryItem_new by (assumption || lia).
      do 2 eexists. split; [reflexivity|]. simpl.
      apply within_caps_insert; [exact Hcaps | exact Hasks].
  - rewrite AddInventoryItem_null. eauto.
  - destruct (InventoryData (Player s) !! Some item) as [c|] eqn:Hc.
    2:{ rewrite RemoveInventoryItem_nothing by (rewrite Hc; simpl; lia). eauto. }
    destruct (Z_le_gt_dec c 0) as [Hle|Hgt].
    { rewrite RemoveInventoryItem_nothing by (rewrite Hc; simpl; lia). eauto. }
    rewrite (RemoveInventoryItem_held item RemoveCount c) by (assumption || lia).
    do 2 eexists. split; [reflexivity|]. simpl.
    now apply within_caps_after_removal.
  - rewrite RemoveInventoryItem_null. eauto.
  - unfold UseItem.
    rewrite (bind_Returned _ _ _ _ _ (GetInventoryItemCount_run _ _)).
    destruct (Z.leb_spec (default 0 (InventoryData (Player s) !! Item)) 0) as [Hle|Hgt].
    { eauto. }
    destruct Item as [item|].
    2:{ rewrite (bind_Returned _ _ _ _ _ (RemoveInventoryItem_null 1 s)). simpl. eauto. }
    destruct (InventoryData (Player s) !! Some item) as [c|] eqn:Hc; simpl in Hgt; [|lia].
    rewrite (bind_Returned _ _ _ _ _ (RemoveInventoryItem_held item 1 c s Hc Hgt)).
    do 2 eexists. split; [reflexivity|]. simpl.
    now apply within_caps_after_removal.
Qed.

(** X6.  From an empty inventory, if no [AddInventoryItem] of the sequence
    asks for more of a capped item than its [MaxCount], then after any
    sequence of [AddInventoryItem], [RemoveInventoryItem] and [UseItem] calls
    no stored count of a capped item is above its [MaxCount]. *)
Theorem inventory_within_caps (cs : list InventoryCall) (s : State) :
  InventoryData (Player s) = ∅ ->
  Forall asks_within_cap cs ->
  exists s' : State,
    run_calls cs s = Returned tt s' /\ within_caps (InventoryData (Player s')).
Proof.
  intros Hempty Hasks.
  assert (Hcaps : within_caps (InventoryData (Player s))).
  { intros item c. rewrite Hempty, lookup_empty. discriminate. }
  clear Hempty. revert s Hcaps.
  induction Hasks as [|c cs Hc _ IH]; intros s Hcaps.
  - exists s. split; [reflexivity | exact Hcaps].
  - destruct (run_call_within_caps c s Hcaps Hc) as (b & s1 & Hrun & Hcaps1).
    destruct (IH s1 Hcaps1) as (s' & Hrest & Hcaps').
    exists s'. split; [|exact Hcaps'].
    simpl. rewrite (bind_Returned _ _ _ _ _ Hrun). exact Hrest.
Qed.

Lemma inventory_within_caps_witness :
  exists s' : State,
    run_calls [Call_AddInventoryItem (Some Sample.vinegar) 4;
               Call_AddInventoryItem (Some Sample.vinegar) 4;
               Call_UseItem (Some Sample.vinegar)]
              (Sample.state_with ∅) = Returned tt s' /\
    within_caps (InventoryData (Player s')).
Proof.
  apply (inventory_within_caps
           [Call_AddInventoryItem (Some Sample.vinegar) 4;
            Call_AddInventoryItem (Some Sample.vinegar) 4;
            Call_UseItem (Some Sample.vinegar)] (Sample.state_with ∅)).
  - reflexivity.
  - repeat constructor; intros _; discriminate.
Defined.

(** ** Target lock: what the calls leave alone *)

Lemma lock_members_of_same (p : APlayerCharacter) : lock_members_of p p = p.
Proof. destruct p as [? ? ? ? [? ?] ? ? ? ? ? ? ? ? ? ? ? ? ? ? ? ? ? ?]. reflexivity. Qed.

Lemma same_but_widget_refl (e : AEnemyCharacter) : same_but_widget e e.
Proof. repeat split. Qed.

Lemma same_but_widget_updated (f : AEnemyCharacter -> AEnemyCharacter)
      (es : positive -> AEnemyCharacter) (target id : positive) :
  (forall e, same_but_widget e (f e)) ->
  same_but_widget (es id) ((<[target := f (es target)]> es) id).
Proof.
  intros Hf. destruct (decide (target = id)) as [->|Hne].
  - rewrite fn_lookup_insert. apply Hf.
  - rewrite fn_lookup_insert_ne by exact Hne. apply same_but_widget_refl.
Qed.

Lemma same_but_widget_trans (a b c : AEnemyCharacter) :
  same_but_widget a b -> same_but_widget b c -> same_but_widget a c.
Proof.
  unfold same_but_widget. intros (? & ? & ? & ? & ?) (? & ? & ? & ? & ?).
  repeat split; congruence.
Qed.

Lemma lock_frame_refl (s : State) : lock_frame s s.
Proof.
  split; [symmetry; apply lock_members_of_same|].
  split; [intros id; apply same_but_widget_refl | reflexivity].
Qed.

(** The members of the player outside the lock are those of [Player s]. *)
Ltac player_but_lock s :=
  simpl;
  destruct (Player s) as [? ? ? ? [? ?] ? ? ? ? ? ? ? ? ? ? ? ? ? ? ? ? ? ?];
  reflexivity.

(** The enemies after the widget of [target] was shown or hidden some
    number of times. *)
Ltac enemies_but_target target :=
  let id := fresh "id" in
  intros id; simpl;
  destruct (decide (target = id)) as [<-|?];
  [ rewrite ?fn_lookup_insert; repeat split
  | rewrite ?fn_lookup_insert_ne by assumption; repeat split ].

Lemma UnlockTarget_frame (s s' : State) :
  UnlockTarget s = Returned tt s' -> lock_frame s s'.
Proof.
  unfold UnlockTarget. run_method.
  destruct (LockTargetEnemy (Player s)) as [target|] eqn:Htarget; [|discriminate].
  simpl. intros [= <-].
  split; [reflexivity|]. split.
  - enemies_but_target target.
  - intros id Hold _. simpl. rewrite fn_lookup_insert_ne by congruence. reflexivity.
Qed.

Lemma TryTargetLock_frame (E : Externals) (s s' : State) :
  TryTargetLock E s = Returned tt s' -> lock_frame s s'.
Proof.
  destruct (decide (CurrentAnimationState (Player s) = Unarmed)) as [Hstate|Hstate].
  2:{ rewrite TryTargetLock_not_unarmed by exact Hstate.
      intros [= <-]. apply lock_frame_refl. }
  destruct (IsTargetLocking (Player s)) eqn:Hlock.
  { rewrite TryTargetLock_locked by assumption. apply UnlockTarget_frame. }
  pose proof (SearchEnemyInFront_run E s) as Hsearch.
  match type of Hsearch with _ = Returned ?r _ => destruct r as [IsHit Actor] end.
  unfold TryTargetLock. unfold bind at 1. unfold this at 1.
  rewrite bool_decide_eq_true_2 by exact Hstate. rewrite Hlock.
  cbv beta iota delta [negb].
  rewrite (bind_Returned _ _ _ _ _ Hsearch).
  destruct IsHit; [|intros [= <-]; apply lock_frame_refl].
  run_method.
  destruct (Cast_AEnemyCharacter Actor) as [target|]; simpl; intros [= <-].
  - split; [reflexivity|]. split.
    + enemies_but_target target.
    + intros id _ Hnew. simpl in *. rewrite fn_lookup_insert_ne by congruence. reflexivity.
  - split; [clear; player_but_lock s|].
    split; [intros id; apply same_but_widget_refl | reflexivity].
Qed.

Lemma TryTargetLock_log (E : Externals) (s s' : State) :
  TryTargetLock E s = Returned tt s' -> Log s' = Log s.
Proof.
  destruct (decide (CurrentAnimationState (Player s) = Unarmed)) as [Hstate|Hstate].
  2:{ rewrite TryTargetLock_not_unarmed by exact Hstate. now intros [= <-]. }
  destruct (IsTargetLocking (Player s)) eqn:Hlock.
  { rewrite TryTargetLock_locked by assumption.
    destruct (LockTargetEnemy (Player s)) as [target|] eqn:Htarget.
    - destruct (UnlockTarget_run s target Htarget) as (s1 & Hrun & _ & _ & _ & _ & _ & Hlog).
      rewrite Hrun. now intros [= <-].
    - rewrite UnlockTarget_null by exact Htarget. discriminate. }
  pose proof (SearchEnemyInFront_run E s) as Hsearch.
  match type of Hsearch with _ = Returned ?r _ => destruct r as [IsHit Actor] end.
  unfold TryTargetLock. unfold bind at 1. unfold this at 1.
  rewrite bool_decide_eq_true_2 by exact Hstate. rewrite Hlock.
  cbv beta iota delta [negb].
  rewrite (bind_Returned _ _ _ _ _ Hsearch).
  destruct IsHit; [|now intros [= <-]].
  run_method.
  destruct (Cast_AEnemyCharacter Actor) as [target|]; simpl; now intros [= <-].
Qed.

(** X7.  A call of [TryTargetLock] or [UnlockTarget] that returns changes
    of the player at most [IsTargetLocking], [LockTargetEnemy],
    [bOrientRotationToMovement] and [bUseControllerRotationYaw]; of an
    enemy it changes at most whether its target widget is visible, and only
    of the enemy that was or has become [LockTargetEnemy]; it produces no
    output. *)
Theorem lock_call_frame (E : Externals) (s s' : State) :
  TryTargetLock E s = Returned tt s' \/ UnlockTarget s = Returned tt s' ->
  Player s' = lock_members_of (Player s') (Player s) /\
  (forall id : positive, same_but_widget (Enemies s id) (Enemies s' id)) /\
  (forall id : positive,
     LockTargetEnemy (Player s) <> Some id ->
     LockTargetEnemy (Player s') <> Some id ->
     Enemies s' id = Enemies s id) /\
  Log s' = Log s.
Proof.
  intros [Hrun|Hrun].
  - destruct (TryTargetLock_frame E s s' Hrun) as (Hplayer & Hwidget & Hothers).
    repeat split; try assumption; try apply Hwidget.
    exact (TryTargetLock_log E s s' Hrun).
  - destruct (UnlockTarget_frame s s' Hrun) as (Hplayer & Hwidget & Hothers).
    repeat split; try assumption; try apply Hwidget.
    destruct (LockTargetEnemy (Player s)) as [target|] eqn:Htarget.
    + destruct (UnlockTarget_run s target Htarget) as (s1 & Hrun1 & _ & _ & _ & _ & _ & Hlog).
      rewrite Hrun1 in Hrun. now injection Hrun as <-.
    + rewrite UnlockTarget_null in Hrun by exact Htarget. discriminate.
Qed.

Lemma lock_call_frame_witness :
  exists s' : State,
    TryTargetLock (Sample.world (true, Some (EnemyCharacterActor 7)) false)
      (Sample.state Sample.player) = Returned tt s' /\
    Player s' = lock_members_of (Player s') Sample.player /\
    (forall id : positive, same_but_widget Sample.grunt (Enemies s' id)) /\
    (forall id : positive,
       LockTargetEnemy Sample.player <> Some id ->
       LockTargetEnemy (Player s') <> Some id ->
       Enemies s' id = Sample.grunt) /\
    Log s' = [].
Proof.
  eexists. split; [reflexivity|].
  apply (lock_call_frame (Sample.world (true, Some (EnemyCharacterActor 7)) false)
           (Sample.state Sample.player)).
  left. reflexivity.
Defined.

(** ** Target lock: locking and unlocking *)

(** X8.  Pressing target lock twice: when the first [TryTargetLock] finds an
    enemy and locks on it, the second one (which runs no trace) unlocks
    again.  Afterwards [IsTargetLocking] is false, the enemy's target widget
    is hidden, [bOrientRotationToMovement] is true and
    [bUseControllerRotationYaw] is false, nothing was logged, and
    [LockTargetEnemy] still points to the enemy: unlocking does not clear
    it. *)
Theorem TryTargetLock_twice (E : Externals) (s : State) (id : positive) :
  CurrentAnimationState (Player s) = Unarmed ->
  IsTargetLocking (Player s) = false ->
  SearchEnemyInFront E s = Returned (true, Some (EnemyCharacterActor id)) s ->
  exists s1 s2 : State,
    TryTargetLock E s = Returned tt s1 /\
    IsTargetLocking (Player s1) = true /\
    TargetWidget_IsVisible (Enemies s1 id) = true /\
    TryTargetLock E s1 = Returned tt s2 /\
    IsTargetLocking (Player s2) = false /\
    LockTargetEnemy (Player s2) = Some id /\
    TargetWidget_IsVisible (Enemies s2 id) = false /\
    bOrientRotationToMovement (CharacterMovementComponent (Player s2)) = true /\
    bUseControllerRotationYaw (Player s2) = false /\
    Log s2 = Log s.
Proof.
  intros Hstate Hlock Hsearch.
  destruct (TryTargetLock_search E s true (Some (EnemyCharacterActor id)) Hstate Hlock Hsearch)
    as (s1 & Hrun1 & Hon & Htarget & Henemies & _).
  simpl in Hon, Htarget, Henemies.
  pose proof (TryTargetLock_frame E s s1 Hrun1) as (Hplayer & _).
  assert (Hstate1 : CurrentAnimationState (Player s1) = Unarmed)
    by (rewrite Hplayer; exact Hstate).
  destruct (UnlockTarget_run s1 id Htarget)
    as (s2 & Hrun2 & Hoff & Hkeep & Henemies2 & Horient & Hyaw & Hlog).
  exists s1, s2.
  split; [exact Hrun1|]. split; [exact Hon|].
  split; [rewrite Henemies, fn_lookup_insert; reflexivity|].
  split; [rewrite TryTargetLock_locked by assumption; exact Hrun2|].
  split; [exact Hoff|]. split; [exact Hkeep|].
  split; [rewrite Henemies2, fn_lookup_insert; reflexivity|].
  split; [exact Horient|]. split; [exact Hyaw|].
  rewrite Hlog. exact (TryTargetLock_log E s s1 Hrun1).
Qed.

Lemma TryTargetLock_twice_witness :
  exists s1 s2 : State,
    TryTargetLock (Sample.world (true, Some (EnemyCharacterActor 7)) false)
      (Sample.state Sample.player) = Returned tt s1 /\
    IsTargetLocking (Player s1) = true /\
    TargetWidget_IsVisible (Enemies s1 7%positive) = true /\
    TryTargetLock (Sample.world (true, Some (EnemyCharacterActor 7)) false) s1
      = Returned tt s2 /\
    IsTargetLocking (Player s2) = false /\
    LockTargetEnemy (Player s2) = Some 7%positive /\
    TargetWidget_IsVisible (Enemies s2 7%positive) = false /\
    bOrientRotationToMovement (CharacterMovementComponent (Player s2)) = true /\
    bUseControllerRotationYaw (Player s2) = false /\
    Log s2 = [].
Proof.
  exact (TryTargetLock_twice (Sample.world (true, Some (EnemyCharacterActor 7)) false)
           (Sample.state Sample.player) 7%positive eq_refl eq_refl eq_refl).
Defined.

(** ** Target lock: the tick *)

(** X9.  [Tick] while locked on an enemy: the player stays locked exactly
    when the enemy is not dead; afterwards the enemy's target widget is
    visible exactly when the enemy is neither dead nor executable; the
    control rotation is turned to the enemy when there is a player
    controller, between the base class's tick and the zoom timeline's tick. *)
Theorem Tick_locked_spec (E : Externals) (DeltaSeconds : float) (s : State)
        (target : positive) :
  IsTargetLocking (Player s) = true ->
  LockTargetEnemy (Player s) = Some target ->
  exists s' : State,
    Tick E DeltaSeconds s = Returned tt s' /\
    IsTargetLocking (Player s') = negb (IsDead (Enemies s target)) /\
    TargetWidget_IsVisible (Enemies s' target) =
      (negb (IsDead (Enemies s target)) && negb (IsExecutable (Enemies s target)))%bool /\
    Log s' =
      Log s ++ [Super_Tick DeltaSeconds] ++
      (if PlayerController (Player s)
       then [SetControlRotation
               (FindLookAtRotation E (ActorLocation (Player s))
                                   (EnemyLocation (Enemies s target)))]
       else []) ++
      [GunCameraZoomTimeline_TickTimeline DeltaSeconds].
Proof.
  intros Hlock Htarget. unfold Tick, UnlockTarget. run_method.
  rewrite Hlock, Htarget. simpl.
  destruct (PlayerController (Player s)); simpl;
  destruct (IsExecutable (Enemies s target)) eqn:Hexe;
  destruct (TargetWidget_IsVisible (Enemies s target)) eqn:Hvis; simpl;
  repeat (rewrite ?fn_lookup_insert, ?Hexe, ?Hvis, ?Htarget; simpl);
  destruct (IsDead (Enemies s target)) eqn:Hdead; simpl;
  repeat (rewrite ?fn_lookup_insert, ?Hexe, ?Hvis, ?Htarget; simpl);
  (eexists; split; [reflexivity|]; simpl;
   rewrite ?fn_lookup_insert; simpl; rewrite <- ?app_assoc; simpl;
   repeat split; assumption || reflexivity).
Qed.

Lemma Tick_locked_spec_witness :
  exists s' : State,
    Tick (Sample.world (false, None) false) 0 (Sample.state Sample.locked_player)
      = Returned tt s' /\
    IsTargetLocking (Player s') = true /\
    TargetWidget_IsVisible (Enemies s' 7%positive) = true /\
    Log s' = [Super_Tick 0; SetControlRotation Sample.level;
              GunCameraZoomTimeline_TickTimeline 0].
Proof.
  exact (Tick_locked_spec (Sample.world (false, None) false) 0
           (Sample.state Sample.locked_player) 7%positive eq_refl eq_refl).
Defined.

(** ** Fist attack: combos and executions *)

Lemma OnPlayMontageNotifyBegin_Execute (s : State) (target : positive) :
  ExecutingTarget (Player s) = Some target ->
  OnPlayMontageNotifyBegin "Execute" s =
    Returned tt (logged (ApplyDamage target (MaxHp (Enemies s target))) s).
Proof.
  intros Htarget. unfold OnPlayMontageNotifyBegin.
  change (FName_eq "Execute" "ComboContinue") with false.
  change (FName_eq "Execute" "Execute") with true.
  change (FName_eq "Execute" "BeginPush") with false.
  run_method. rewrite andb_false_r. rewrite Htarget. reflexivity.
Qed.

(** X10.  A buffered attack input continues the combo through one
    "ComboContinue" notify and no further: after [TryFistAttack] has set the
    flag, the next "ComboContinue" leaves the montage playing and the one
    after it stops the montage. *)
Theorem buffered_input_continues_once (E : Externals) (s : State) :
  FistAttackMontages (Player s) <> [] ->
  InFrontExecutable E s = None ->
  IsPlayingFistAttackMontage E s = true ->
  exists s1 s2 s3 : State,
    TryFistAttack E s = Returned tt s1 /\
    OnPlayMontageNotifyBegin "ComboContinue" s1 = Returned tt s2 /\
    Log s2 = Log s /\
    OnPlayMontageNotifyBegin "ComboContinue" s2 = Returned tt s3 /\
    Log s3 = Log s ++ [Montage_Stop 0x1.666666p-2] /\
    IsMeleeAttackInputReceived (Player s3) = false.
Proof.
  intros Hmontages Hnone Hplaying.
  rewrite TryFistAttack_buffers by assumption.
  eexists. eexists. eexists. split; [reflexivity|].
  rewrite OnPlayMontageNotifyBegin_ComboContinue. simpl.
  split; [reflexivity|]. split; [reflexivity|].
  rewrite OnPlayMontageNotifyBegin_ComboContinue. simpl.
  split; [reflexivity|]. split; reflexivity.
Qed.

Lemma buffered_input_continues_once_witness :
  exists s1 s2 s3 : State,
    TryFistAttack (Sample.world (false, None) true) (Sample.state Sample.player)
      = Returned tt s1 /\
    OnPlayMontageNotifyBegin "ComboContinue" s1 = Returned tt s2 /\
    Log s2 = [] /\
    OnPlayMontageNotifyBegin "ComboContinue" s2 = Returned tt s3 /\
    Log s3 = [Montage_Stop 0x1.666666p-2] /\
    IsMeleeAttackInputReceived (Player s3) = false.
Proof.
  apply (buffered_input_continues_once (Sample.world (false, None) true)
           (Sample.state Sample.player)).
  - discriminate.
  - reflexivity.
  - reflexivity.
Defined.

(** X11.  An execution: when [TryFistAttack] finds an executable enemy in
    reach it records it as [ExecutingTarget] and starts the execution
    montage; the "Execute" notify that follows then has a target (no null
    dereference) and applies damage equal to that enemy's [MaxHp] to it.
    The combo flag is not touched. *)
Theorem execution_applies_MaxHp (E : Externals) (s : State) (id : positive) :
  FistAttackMontages (Player s) <> [] ->
  InFrontExecutable E s = Some id ->
  exists s1 s2 : State,
    TryFistAttack E s = Returned tt s1 /\
    ExecutingTarget (Player s1) = Some id /\
    OnPlayMontageNotifyBegin "Execute" s1 = Returned tt s2 /\
    Log s2 = Log s ++ [Montage_Play (ExecutePunchAttackMontage (Player s)) 1;
                       ApplyDamage id (MaxHp (Enemies s id))] /\
    IsMeleeAttackInputReceived (Player s2) = IsMeleeAttackInputReceived (Player s) /\
    IsExecutable (Enemies s id) = true /\
    (DistanceToPlayer (Enemies s id) <=? 130)%float = true.
Proof.
  intros Hmontages Hsome.
  rewrite (TryFistAttack_executes E s id) by assumption.
  eexists. eexists. split; [reflexivity|]. split; [reflexivity|].
  rewrite (OnPlayMontageNotifyBegin_Execute _ id) by reflexivity.
  split; [reflexivity|]. simpl.
  split; [rewrite <- app_assoc; reflexivity|]. split; [reflexivity|].
  unfold InFrontExecutable in Hsome. rewrite SearchEnemyInFront_run in Hsome.
  destruct (SphereTraceSingleForObjects E s _) as [[|] Actor]; [|discriminate].
  destruct (Cast_AEnemyCharacter Actor) as [id'|]; [|discriminate].
  destruct (DistanceToPlayer (Enemies s id') <=? 130)%float eqn:Hnear;
    destruct (IsExecutable (Enemies s id')) eqn:Hexe; try discriminate.
  injection Hsome as <-. split; assumption.
Qed.

Lemma execution_applies_MaxHp_witness :
  exists s1 s2 : State,
    TryFistAttack (Sample.world (true, Some (EnemyCharacterActor 7)) true)
      (Sample.arena Sample.staggered Sample.player) = Returned tt s1 /\
    ExecutingTarget (Player s1) = Some 7%positive /\
    OnPlayMontageNotifyBegin "Execute" s1 = Returned tt s2 /\
    Log s2 = [Montage_Play (Sample.montage "ExecutePunch") 1; ApplyDamage 7 100] /\
    IsMeleeAttackInputReceived (Player s2) = false /\
    IsExecutable Sample.staggered = true /\
    (DistanceToPlayer Sample.staggered <=? 130)%float = true.
Proof.
  apply (execution_applies_MaxHp (Sample.world (true, Some (EnemyCharacterActor 7)) true)
           (Sample.arena Sample.staggered Sample.player) 7%positive).
  - discriminate.
  - reflexivity.
Defined.

(** The "Execute" notify without a target is a null dereference. *)
Example Execute_notify_needs_target :
  OnPlayMontageNotifyBegin "Execute" (Sample.state Sample.player) = Crashed NullDereference.
Proof. reflexivity. Qed.

(** X12.  When no execution takes place and no fist-attack montage is
    playing, [TryFistAttack] starts exactly one montage, the one of
    [FistAttackMontages] at the index [RandRange(0, Num - 1)] gives, and
    leaves the members of the player as they are; an index outside the array
    ends the call in a failed bounds check.  With an empty
    [FistAttackMontages] it only reports the problem with the name of the
    character (on screen and in the log) and starts nothing, whatever the
    world looks like. *)
Theorem TryFistAttack_starts_montage (E : Externals) (s : State) :
  let Num := Z.of_nat (length (FistAttackMontages (Player s))) in
  let RandomIndex := RandRange E s 0 (Num - 1) in
  (FistAttackMontages (Player s) = [] ->
   TryFistAttack E s =
     Returned tt
       (logged (UE_LOG_Error
                  (String.append "FistAttackMontages is empty! "
                                 (UObject_GetName E (Player s))))
          (logged (AddOnScreenDebugMessage
                     (String.append "FistAttackMontages is empty, "
                                    (UObject_GetName E (Player s)))) s))) /\
  (FistAttackMontages (Player s) <> [] ->
   InFrontExecutable E s = None ->
   IsPlayingFistAttackMontage E s = false ->
   (0 <= RandomIndex <= Num - 1 ->
    exists m : UAnimMontage,
      FistAttackMontages (Player s) !! Z.to_nat RandomIndex = Some m /\
      TryFistAttack E s = Returned tt (logged (Montage_Play m 1) s)) /\
   (RandomIndex < 0 \/ Num - 1 < RandomIndex ->
    TryFistAttack E s = Crashed CheckFailed)).
Proof.
  intros Num RandomIndex. split.
  - intros Hempty. unfold TryFistAttack. unfold bind at 1. unfold this at 1.
    rewrite Hempty. reflexivity.
  - intros Hmontages Hnone Hplaying.
    assert (Hrun : TryFistAttack E s =
                   (m <- TArray_at (FistAttackMontages (Player s)) RandomIndex ;;
                    call (Montage_Play m 1)) s).
    { unfold TryFistAttack. unfold bind at 1. unfold this at 1.
      destruct (FistAttackMontages (Player s)) as [|m ms] eqn:Hlist; [congruence|].
      rewrite (bind_Returned _ _ _ _ _ (TryFistAttack_execute_none E s Hnone)).
      cbv beta iota. unfold bind at 1. unfold query at 1.
      rewrite Hplaying. cbv beta iota delta [negb].
      unfold bind at 1. unfold query at 1.
      reflexivity. }
    rewrite Hrun. unfold TArray_at. split.
    + intros [Hlo Hhi].
      destruct (Z.ltb_spec RandomIndex 0); [lia|].
      destruct (FistAttackMontages (Player s) !! Z.to_nat RandomIndex) as [m|] eqn:Hm.
      * exists m. split; reflexivity.
      * apply lookup_ge_None in Hm. subst Num. lia.
    + intros Hout.
      destruct (Z.ltb_spec RandomIndex 0); [reflexivity|].
      destruct (FistAttackMontages (Player s) !! Z.to_nat RandomIndex) as [m|] eqn:Hm.
      * apply lookup_lt_Some in Hm. subst Num. lia.
      * reflexivity.
Qed.

Lemma TryFistAttack_starts_montage_witness :
  TryFistAttack (Sample.world (false, None) false)
    (Sample.state Sample.unprepared)
  = Returned tt
      (logged (UE_LOG_Error "FistAttackMontages is empty! BP_PlayerCharacter_C_0")
         (logged (AddOnScreenDebugMessage "FistAttackMontages is empty, BP_PlayerCharacter_C_0")
            (Sample.state Sample.unprepared))) /\
  exists m : UAnimMontage,
    FistAttackMontages Sample.player !! Z.to_nat 0 = Some m /\
    TryFistAttack (Sample.world (false, None) false) (Sample.state Sample.player)
      = Returned tt (logged (Montage_Play m 1) (Sample.state Sample.player)).
Proof.
  split.
  - destruct (TryFistAttack_starts_montage (Sample.world (false, None) false)
                (Sample.state Sample.unprepared)) as [Hempty _].
    exact (Hempty eq_refl).
  - destruct (TryFistAttack_starts_montage (Sample.world (false, None) false)
                (Sample.state Sample.player)) as [_ Hstarts].
    destruct (Hstarts ltac:(discriminate) eq_refl eq_refl) as [Hin _].
    apply Hin. split; discriminate.
Defined.

(** ** Using the slot item *)

Ltac run_action :=
  repeat (unfold mbind, Action_bind, mret, Action_ret, lift, player, rest, ask, emit,
            assign_rest, super, fail, skip; simpl).

Lemma with_Core_same (w : World) : with_Core (Core w) w = w.
Proof. destruct w. reflexivity. Qed.

Lemma UseItem_held (item : UItem) (c : Z) (s : State) :
  InventoryData (Player s) !! Some item = Some c ->
  0 < c ->
  exists s' : State, UseItem (Some item) s = Returned true s'.
Proof.
  intros Hc Hpos.
  destruct (RemoveInventoryItem_count item 1 c s Hc Hpos) as (s' & Hrun & _).
  unfold UseItem.
  rewrite (bind_Returned _ _ _ _ _ (GetInventoryItemCount_run _ _)).
  rewrite Hc. simpl. destruct (Z.leb_spec c 0); [lia|].
  rewrite (bind_Returned _ _ _ _ _ Hrun). eauto.
Qed.

(** X13.  [CanUseItem] changes nothing, and its test [InventoryData.Num() > 0]
    is implied by [HasItem(CurrentSlotItem)]: it is true exactly when the
    base class allows it, the slot item is held and the player is not
    crouching.  In an inventory as the code builds it (counts at least 1,
    nothing under the null item), [UseSlotItem] succeeds whenever
    [CanUseItem] holds. *)
Theorem CanUseItem_then_UseSlotItem (E : RestExternals) (w : World) :
  counts_positive (InventoryData (Player (Core w))) ->
  InventoryData (Player (Core w)) !! None = None ->
  exists can : bool,
    CanUseItem E w = Done can w /\
    can = (Super_CanUseItem E w
           && bool_decide (is_Some (InventoryData (Player (Core w)) !! CurrentSlotItem (Rest w)))
           && negb (IsCrouching (Player (Core w))))%bool /\
    (can = true ->
     exists w' : World,
       UseSlotItem w = Done true w' /\ Rest w' = Rest w /\ Calls w' = Calls w).
Proof.
  intros Hcounts Hnull.
  eexists. split; [|split].
  - unfold CanUseItem. run_action. rewrite with_Core_same. reflexivity.
  - destruct (bool_decide (is_Some (InventoryData (Player (Core w)) !! CurrentSlotItem (Rest w))))
      eqn:Hhas; [|now rewrite !andb_false_r].
    apply bool_decide_eq_true in Hhas.
    apply map_size_ne_0_lookup_2 in Hhas.
    destruct (Z.ltb_spec 0 (Z.of_nat (size (InventoryData (Player (Core w)))))); [|lia].
    now rewrite andb_true_r.
  - intros Hcan.
    destruct (bool_decide (is_Some (InventoryData (Player (Core w)) !! CurrentSlotItem (Rest w))))
      eqn:Hhas; [|now rewrite !andb_false_r in Hcan].
    apply bool_decide_eq_true in Hhas. destruct Hhas as [c Hc].
    destruct (CurrentSlotItem (Rest w)) as [item|] eqn:Hslot; [|congruence].
    destruct (UseItem_held item c (Core w) Hc ltac:(specialize (Hcounts _ _ Hc); lia))
      as (s' & Hrun).
    unfold UseSlotItem. run_action. rewrite Hslot, Hrun.
    eexists. split; [reflexivity|]. split; reflexivity.
Qed.

Lemma CanUseItem_then_UseSlotItem_witness :
  exists can : bool,
    CanUseItem (SampleRest.externals [])
      (SampleRest.world_of (Sample.state_with {[Some Sample.vinegar := 2]}))
      = Done can (SampleRest.world_of (Sample.state_with {[Some Sample.vinegar := 2]})) /\
    can = true /\
    (can = true ->
     exists w' : World,
       UseSlotItem (SampleRest.world_of (Sample.state_with {[Some Sample.vinegar := 2]}))
         = Done true w' /\
       Rest w' = SampleRest.members /\ Calls w' = []).
Proof.
  destruct (CanUseItem_then_UseSlotItem (SampleRest.externals [])
              (SampleRest.world_of (Sample.state_with {[Some Sample.vinegar := 2]})))
    as (can & Hrun & Hcan & Huse).
  - intros Item c Hc.
    change (({[Some Sample.vinegar := 2]} : gmap UItemPtr Z) !! Item = Some c) in Hc.
    apply lookup_singleton_Some in Hc as [_ <-]. discriminate.
  - reflexivity.
  - exists can. split; [exact Hrun|]. split; [rewrite Hcan; reflexivity | exact Huse].
Defined.

(** ** Crouching *)

(** What a call of [TryCrouch] does: nothing, or crouch, or stand up. *)
Lemma TryCrouch_cases (E : RestExternals) (w : World) :
  exists w' : World,
    TryCrouch E w = Done tt w' /\
    (w' = w \/
     (IsCrouching (Player (Core w)) = false /\
      Core w' = with_Player (set_IsCrouching true
                  (with_MaxWalkSpeed (CrouchSpeed (Rest w)) (Player (Core w)))) (Core w) /\
      Rest w' = Rest w /\ Calls w' = Calls w ++ [Crouch]) \/
     (IsCrouching (Player (Core w)) = true /\
      LineTraceUp_bBlockingHit E w = false /\
      Core w' = with_Player (set_IsCrouching false
                  (with_MaxWalkSpeed (WalkSpeed (Player (Core w))) (Player (Core w)))) (Core w) /\
      Rest w' = Rest w /\ Calls w' = Calls w ++ [UnCrouch])).
Proof.
  unfold TryCrouch, CanCrouch, CanUncrouch. run_action. unfold query. simpl.
  rewrite ?with_Core_same.
  destruct (CanMove (Base E) (Core w)); simpl;
    [|eexists; split; [reflexivity|]; left; destruct w; reflexivity].
  destruct (IsJumping (Base E) (Core w)) eqn:Hjump; simpl;
    [eexists; split; [reflexivity|]; left; destruct w; reflexivity|].
  destruct (IsCrouching (Player (Core w))) eqn:Hcrouch; simpl.
  - destruct (LineTraceUp_bBlockingHit E w) eqn:Habove; simpl; rewrite ?Hjump; simpl.
    + eexists. split; [reflexivity|]. left. destruct w; reflexivity.
    + eexists. split; [reflexivity|]. right. right. repeat split.
  - eexists. split; [reflexivity|]. right. left. repeat split.
Qed.

(** X14.  Crouching and standing up again: when a [TryCrouch] makes the
    standing player crouch and a later [TryCrouch] makes it stand up, the
    player is as before the two calls except that [MaxWalkSpeed] is
    [WalkSpeed] (in between it was [CrouchSpeed]); the engine was asked to
    [Crouch] and then to [UnCrouch], and nothing was above the player. *)
Theorem TryCrouch_twice (E : RestExternals) (w w1 w2 : World) :
  IsCrouching (Player (Core w)) = false ->
  TryCrouch E w = Done tt w1 ->
  IsCrouching (Player (Core w1)) = true ->
  TryCrouch E w1 = Done tt w2 ->
  IsCrouching (Player (Core w2)) = false ->
  MaxWalkSpeed (CharacterMovementComponent (Player (Core w1))) = CrouchSpeed (Rest w) /\
  Player (Core w2) =
    set_IsCrouching false (with_MaxWalkSpeed (WalkSpeed (Player (Core w))) (Player (Core w))) /\
  Enemies (Core w2) = Enemies (Core w) /\
  Log (Core w2) = Log (Core w) /\
  Rest w2 = Rest w /\
  Calls w2 = Calls w ++ [Crouch; UnCrouch] /\
  LineTraceUp_bBlockingHit E w1 = false.
Proof.
  intros Hup Hrun1 Hdown Hrun2 Hup2.
  destruct (TryCrouch_cases E w) as (w1' & Hrun1' & Hcase1).
  rewrite Hrun1 in Hrun1'. injection Hrun1' as <-.
  destruct Hcase1 as [-> | [(_ & Hcore1 & Hrest1 & Hcalls1) | (Hwas & _)]];
    [congruence | | congruence].
  destruct (TryCrouch_cases E w1) as (w2' & Hrun2' & Hcase2).
  rewrite Hrun2 in Hrun2'. injection Hrun2' as <-.
  destruct Hcase2 as [-> | [(Hwas & _) | (_ & Habove & Hcore2 & Hrest2 & Hcalls2)]];
    [congruence | congruence |].
  rewrite Hcore2, Hrest2, Hcalls2, Hcore1, Hrest1, Hcalls1, <- app_assoc.
  repeat split. exact Habove.
Qed.

Lemma TryCrouch_twice_witness :
  exists w1 w2 : World,
    TryCrouch (SampleRest.externals []) (SampleRest.world_of (Sample.state Sample.player))
      = Done tt w1 /\
    TryCrouch (SampleRest.externals []) w1 = Done tt w2 /\
    MaxWalkSpeed (CharacterMovementComponent (Player (Core w1))) = 200%float /\
    Player (Core w2) = set_IsCrouching false (with_MaxWalkSpeed 500 Sample.player) /\
    Calls w2 = [Crouch; UnCrouch].
Proof.
  do 2 eexists. split; [reflexivity|]. split; [reflexivity|].
  destruct (TryCrouch_twice (SampleRest.externals [])
              (SampleRest.world_of (Sample.state Sample.player)) _ _
              eq_refl eq_refl eq_refl eq_refl eq_refl)
    as (Hspeed & Hplayer & _ & _ & _ & Hcalls & _).
  split; [exact Hspeed|]. split; [exact Hplayer | exact Hcalls].
Defined.

(** ** Sprinting and crouching *)

Lemma OnSprintStart_cases (E : Externals) (s : State) :
  exists s' : State,
    OnSprintStart E s = Returned tt s' /\
    (s' = s \/
     (IsSprinting (Player s) = false /\ IsCrouching (Player s) = false /\
      Player s' = with_MaxWalkSpeed (SprintSpeed (Player s)) (set_IsSprinting true (Player s)) /\
      Enemies s' = Enemies s /\ Log s' = Log s ++ [WeaponSystem_StartSprint])).
Proof.
  unfold OnSprintStart, CanSprint. run_method.
  destruct (IsSprinting (Player s)) eqn:Hsprint; [eauto|].
  destruct (CanMove E s); simpl; [|eauto].
  destruct (IsCrouching (Player s)) eqn:Hcrouch; simpl; [eauto|].
  destruct (IsJumping E s); simpl; [eauto|].
  eexists. split; [reflexivity|]. right. repeat split.
Qed.

(** X15.  Sprinting and crouching share [MaxWalkSpeed] without knowing of
    each other.  When a walking, standing player starts to sprint and then
    crouches, it is crouching at [CrouchSpeed] with [IsSprinting] still
    set; releasing sprint then leaves it crouching at [WalkSpeed], and
    standing up instead leaves it with [IsSprinting] set at [WalkSpeed]. *)
Theorem sprint_then_crouch (E : RestExternals) (w w1 w2 : World) :
  IsSprinting (Player (Core w)) = false ->
  lift (OnSprintStart (Base E)) w = Done tt w1 ->
  IsSprinting (Player (Core w1)) = true ->
  TryCrouch E w1 = Done tt w2 ->
  IsCrouching (Player (Core w2)) = true ->
  IsSprinting (Player (Core w2)) = true /\
  MaxWalkSpeed (CharacterMovementComponent (Player (Core w2))) = CrouchSpeed (Rest w) /\
  (exists w3 : World,
     lift OnSprintEnd w2 = Done tt w3 /\
     IsCrouching (Player (Core w3)) = true /\
     IsSprinting (Player (Core w3)) = false /\
     MaxWalkSpeed (CharacterMovementComponent (Player (Core w3))) = WalkSpeed (Player (Core w))) /\
  (forall w3 : World,
     TryCrouch E w2 = Done tt w3 ->
     IsCrouching (Player (Core w3)) = false ->
     IsSprinting (Player (Core w3)) = true /\
     MaxWalkSpeed (CharacterMovementComponent (Player (Core w3))) = WalkSpeed (Player (Core w))).
Proof.
  intros Hwalk Hrun1 Hsprint Hrun2 Hcrouch.
  destruct (OnSprintStart_cases (Base E) (Core w)) as (s1 & Hstart & Hcase).
  unfold lift in Hrun1. rewrite Hstart in Hrun1. injection Hrun1 as <-.
  simpl in *.
  destruct Hcase as [-> | (_ & Hstanding & Hplayer1 & _)]; [congruence|].
  destruct (TryCrouch_cases E (with_Core s1 w)) as (w2' & Hrun2' & Hcase2).
  rewrite Hrun2 in Hrun2'. injection Hrun2' as <-.
  simpl in Hcase2. rewrite Hplayer1 in Hcase2. simpl in Hcase2.
  destruct Hcase2 as [-> | [(_ & Hcore2 & Hrest2 & _) | (Hwas & _)]];
    [simpl in Hcrouch; rewrite Hplayer1 in Hcrouch; simpl in Hcrouch; congruence
    | | congruence].
  rewrite Hcore2. simpl.
  split; [reflexivity|]. split; [reflexivity|]. split.
  - unfold lift, OnSprintEnd. run_method. rewrite Hcore2. simpl.
    eexists. split; [reflexivity|]. simpl. repeat split.
  - intros w3 Hrun3 Hup.
    destruct (TryCrouch_cases E w2) as (w3' & Hrun3' & Hcase3).
    rewrite Hrun3 in Hrun3'. injection Hrun3' as <-.
    rewrite Hcore2 in Hcase3. simpl in Hcase3.
    destruct Hcase3 as [-> | [(Hwas & _) | (_ & _ & Hcore3 & _)]];
      [rewrite Hcore2 in Hup; simpl in Hup; congruence | congruence |].
    rewrite Hcore3. simpl. split; reflexivity.
Qed.

Lemma sprint_then_crouch_witness :
  exists w1 w2 w3 : World,
    lift (OnSprintStart (Base (SampleRest.externals [])))
         (SampleRest.world_of (Sample.state Sample.player)) = Done tt w1 /\
    TryCrouch (SampleRest.externals []) w1 = Done tt w2 /\
    IsSprinting (Player (Core w2)) = true /\
    MaxWalkSpeed (CharacterMovementComponent (Player (Core w2))) = 200%float /\
    lift OnSprintEnd w2 = Done tt w3 /\
    IsCrouching (Player (Core w3)) = true /\
    MaxWalkSpeed (CharacterMovementComponent (Player (Core w3))) = 500%float.
Proof.
  destruct (sprint_then_crouch (SampleRest.externals [])
              (SampleRest.world_of (Sample.state Sample.player)) _ _
              eq_refl eq_refl eq_refl eq_refl eq_refl)
    as (Hsprint & Hspeed & (w3 & Hend & Hcrouch & _ & Hwalk) & _).
  do 2 eexists. exists w3.
  split; [reflexivity|]. split; [reflexivity|].
  split; [exact Hsprint|]. split; [exact Hspeed|].
  split; [exact Hend|]. split; [exact Hcrouch | exact Hwalk].
Defined.

(** ** Attacking *)

(** X16.  [TryAttack] does nothing when the base class forbids attacking or
    the player is sprinting.  Unarmed it never fires: it is [TryFistAttack]
    when punching is allowed and the player is not crouching, and nothing
    otherwise.  Armed it never starts a fist attack: when firing is allowed
    (while crouching: only if the player does not move) it broadcasts
    [OnPlayerFire] and then asks the weapon system to fire, and nothing
    otherwise. *)
Theorem TryAttack_spec (E : RestExternals) (w : World) :
  let p := Player (Core w) in
  (Super_CanAttack E w = false \/ IsSprinting p = true -> TryAttack E w = Done tt w) /\
  (Super_CanAttack E w = true -> IsSprinting p = false ->
   (CurrentAnimationState p = Unarmed ->
    (Super_CanPunch E w = false \/ IsCrouching p = true -> TryAttack E w = Done tt w) /\
    (Super_CanPunch E w = true -> IsCrouching p = false ->
     TryAttack E w = lift (TryFistAttack (Base E)) w)) /\
   (CurrentAnimationState p <> Unarmed ->
    (Super_CanFire E w = false \/ (IsCrouching p = true /\ IsMoving E w = true) ->
     TryAttack E w = Done tt w) /\
    (Super_CanFire E w = true -> (IsCrouching p = false \/ IsMoving E w = false) ->
     TryAttack E w = Done tt (called WeaponSystem_TryFire (called OnPlayerFire_Broadcast w))))).
Proof.
  intros p. subst p. split.
  - intros Hno. unfold TryAttack, CanAttack. run_action.
    destruct Hno as [-> | ->]; [reflexivity | now rewrite andb_false_r].
  - intros Hcan Hwalk. split.
    + intros Hstate. split.
      * intros Hno. unfold TryAttack, CanAttack, CanPunch. run_action.
        rewrite Hcan, Hwalk. simpl.
        rewrite bool_decide_eq_true_2 by exact Hstate.
        destruct Hno as [-> | ->]; [reflexivity | now rewrite andb_false_r].
      * intros Hpunch Hstand. unfold TryAttack, CanAttack, CanPunch. run_action.
        rewrite Hcan, Hwalk. simpl.
        rewrite bool_decide_eq_true_2 by exact Hstate.
        rewrite Hpunch, Hstand. reflexivity.
    + intros Hstate. split.
      * intros Hno. unfold TryAttack, CanAttack, CanFire. run_action.
        rewrite Hcan, Hwalk. simpl.
        rewrite bool_decide_eq_false_2 by exact Hstate.
        destruct Hno as [Hfire | [Hcrouch Hmove]].
        -- destruct (IsCrouching (Player (Core w))); simpl; rewrite Hfire; reflexivity.
        -- rewrite Hcrouch. simpl. rewrite Hmove, andb_false_r. reflexivity.
      * intros Hfire Hok. unfold TryAttack, CanAttack, CanFire. run_action.
        rewrite Hcan, Hwalk. simpl.
        rewrite bool_decide_eq_false_2 by exact Hstate.
        destruct (IsCrouching (Player (Core w))) eqn:Hcrouch; simpl; rewrite Hfire; simpl.
        -- destruct Hok as [Hstand | Hstill]; [discriminate|]. rewrite Hstill. reflexivity.
        -- reflexivity.
Qed.

Lemma TryAttack_spec_witness :
  TryAttack (SampleRest.externals [])
    (SampleRest.world_of (Sample.state (set_CurrentAnimationState Pistol Sample.player)))
  = Done tt (called WeaponSystem_TryFire (called OnPlayerFire_Broadcast
      (SampleRest.world_of (Sample.state (set_CurrentAnimationState Pistol Sample.player))))).
Proof.
  destruct (TryAttack_spec (SampleRest.externals [])
              (SampleRest.world_of (Sample.state (set_CurrentAnimationState Pistol Sample.player))))
    as [_ Harmed].
  destruct (Harmed eq_refl eq_refl) as [_ Hfire].
  destruct (Hfire ltac:(discriminate)) as [_ Hshot].
  apply Hshot; [reflexivity | left; reflexivity].
Defined.

(** ** What crouching rules out *)

(** X17.  While the player is crouching it cannot start to sprint, jump,
    punch, guard, use the slot item or Osu: [OnSprintStart], [TryJump],
    [TryGuard] and the unarmed [TryAttack] change nothing at all, and
    [CanUseItem] and [CanOsu] are false. *)
Theorem crouching_rules_out (E : RestExternals) (w : World) :
  IsCrouching (Player (Core w)) = true ->
  lift (OnSprintStart (Base E)) w = Done tt w /\
  TryJump E w = Done tt w /\
  TryGuard E w = Done tt w /\
  (CurrentAnimationState (Player (Core w)) = Unarmed -> TryAttack E w = Done tt w) /\
  CanUseItem E w = Done false w /\
  CanOsu E w = Done false w.
Proof.
  intros Hcrouch. repeat split.
  - unfold lift, OnSprintStart, CanSprint. run_method.
    destruct (IsSprinting (Player (Core w))); [now rewrite with_Core_same|].
    rewrite Hcrouch, andb_false_r. simpl. now rewrite with_Core_same.
  - unfold TryJump, CanCharacterJump. run_action. unfold query.
    rewrite Hcrouch, andb_false_r. simpl. now rewrite with_Core_same.
  - unfold TryGuard, CanGuard. run_action. rewrite Hcrouch, andb_false_r. reflexivity.
  - intros Hstate. unfold TryAttack, CanAttack, CanPunch. run_action.
    destruct (Super_CanAttack E w && negb (IsSprinting (Player (Core w))))%bool;
      [|reflexivity].
    simpl. rewrite bool_decide_eq_true_2 by exact Hstate.
    rewrite Hcrouch, andb_false_r. reflexivity.
  - unfold CanUseItem. run_action. rewrite Hcrouch, andb_false_r.
    now rewrite with_Core_same.
  - unfold CanOsu. run_action. rewrite Hcrouch, andb_false_r. reflexivity.
Qed.

Lemma crouching_rules_out_witness :
  TryJump (SampleRest.externals [])
    (SampleRest.world_of (Sample.state (set_IsCrouching true Sample.player)))
  = Done tt (SampleRest.world_of (Sample.state (set_IsCrouching true Sample.player))).
Proof.
  destruct (crouching_rules_out (SampleRest.externals [])
              (SampleRest.world_of (Sample.state (set_IsCrouching true Sample.player)))
              eq_refl) as (_ & Hjump & _).
  exact Hjump.
Defined.

(** ** The crosshair *)

Lemma SetAnimationState_run (E : RestExternals) (New : EAnimationState) (w : World) :
  let w1 := Super_SetAnimationState E New w in
  let armed := negb (bool_decide (CurrentAnimationState (Player (Core w1)) = Unarmed)) in
  SetAnimationState E New w =
    match CrosshairWidget (Rest w1) with
    | None => Failed NullDereference
    | Some _ =>
        Done tt
          (with_Rest (set_CrosshairWidget (Some (if armed then Visible else Hidden)) (Rest w1))
             (with_Core
                (with_Player
                   (set_bUseControllerRotationYaw armed
                      (set_CharacterMovementComponent
                         (set_bOrientRotationToMovement (negb armed)
                            (CharacterMovementComponent (Player (Core w1))))
                         (Player (Core w1))))
                   (Core w1)) w1))
    end.
Proof.
  intros w1 armed. subst armed. unfold SetAnimationState, ShowCrosshair, HideCrosshair.
  run_action. fold w1.
  destruct (CurrentAnimationState (Player (Core w1))) eqn:Hstate; simpl;
    destruct (CrosshairWidget (Rest w1)); reflexivity.
Qed.

(** X18.  [SetAnimationState] first runs the base class's method; by the
    animation state that leaves, it then sets [bOrientRotationToMovement]
    (true only when unarmed), [bUseControllerRotationYaw] (true only when
    armed) and the crosshair (visible only when armed).  It does not touch
    [IsTargetLocking].  It reads the crosshair widget without a null test:
    with no widget the call ends in a null dereference, whatever the state. *)
Theorem SetAnimationState_spec (E : RestExternals) (New : EAnimationState) (w : World) :
  let w1 := Super_SetAnimationState E New w in
  let armed := negb (bool_decide (CurrentAnimationState (Player (Core w1)) = Unarmed)) in
  (CrosshairWidget (Rest w1) = None -> SetAnimationState E New w = Failed NullDereference) /\
  (CrosshairWidget (Rest w1) <> None ->
   exists w' : World,
     SetAnimationState E New w = Done tt w' /\
     bOrientRotationToMovement (CharacterMovementComponent (Player (Core w'))) = negb armed /\
     bUseControllerRotationYaw (Player (Core w')) = armed /\
     CrosshairWidget (Rest w') = Some (if armed then Visible else Hidden) /\
     IsTargetLocking (Player (Core w')) = IsTargetLocking (Player (Core w1)) /\
     CurrentAnimationState (Player (Core w')) = CurrentAnimationState (Player (Core w1)) /\
     Calls w' = Calls w1).
Proof.
  intros w1 armed. rewrite SetAnimationState_run. fold w1. fold armed. split.
  - intros ->. reflexivity.
  - intros Hwidget. destruct (CrosshairWidget (Rest w1)); [|congruence].
    eexists. split; [reflexivity|]. repeat split.
Qed.

Lemma SetAnimationState_spec_witness :
  exists w' : World,
    SetAnimationState (SampleRest.externals []) Rifle
      (SampleRest.world_of (Sample.state Sample.player)) = Done tt w' /\
    bOrientRotationToMovement (CharacterMovementComponent (Player (Core w'))) = false /\
    bUseControllerRotationYaw (Player (Core w')) = true /\
    CrosshairWidget (Rest w') = Some Visible.
Proof.
  destruct (SetAnimationState_spec (SampleRest.externals []) Rifle
              (SampleRest.world_of (Sample.state Sample.player))) as [_ Hsets].
  destruct (Hsets ltac:(discriminate)) as (w' & Hrun & Horient & Hyaw & Hwidget & _).
  exists w'. split; [exact Hrun|]. split; [exact Horient|]. split; [exact Hyaw | exact Hwidget].
Defined.

(** X19.  [SetupCrosshairWidget] never fails.  Without a widget class it
    only shows a message and leaves [CrosshairWidget] as it is; with one it
    stores what [CreateWidget] returns and, when that is a widget, adds it
    to the viewport and hides it.  A [SetAnimationState] right after it (as
    in [BeginPlay]) whose base-class part keeps the widget pointer ends in a
    null dereference exactly when [CrosshairWidget] is null after the
    setup. *)
Theorem SetupCrosshairWidget_spec (E : RestExternals) (w : World) :
  exists w' : World,
    SetupCrosshairWidget E w = Done tt w' /\
    (CrosshairWidgetClass (Rest w) = false ->
     CrosshairWidget (Rest w') = CrosshairWidget (Rest w) /\
     Calls w' = Calls w /\
     Log (Core w') = Log (Core w) ++ [AddOnScreenDebugMessage "CrosshairWidgetClass is null"]) /\
    (CrosshairWidgetClass (Rest w) = true ->
     Core w' = Core w /\
     (CreateWidget E w = None -> CrosshairWidget (Rest w') = None /\ Calls w' = Calls w) /\
     (CreateWidget E w <> None ->
      CrosshairWidget (Rest w') = Some Hidden /\
      Calls w' = Calls w ++ [CrosshairWidget_AddToViewport])) /\
    (forall New : EAnimationState,
       CrosshairWidget (Rest (Super_SetAnimationState E New w')) = CrosshairWidget (Rest w') ->
       (SetAnimationState E New w' = Failed NullDereference <-> CrosshairWidget (Rest w') = None)).
Proof.
  assert (Hafter : forall w' : World, forall New : EAnimationState,
             CrosshairWidget (Rest (Super_SetAnimationState E New w')) = CrosshairWidget (Rest w') ->
             (SetAnimationState E New w' = Failed NullDereference <->
              CrosshairWidget (Rest w') = None)).
  { intros w' New Hkeep. rewrite SetAnimationState_run. rewrite Hkeep.
    destruct (CrosshairWidget (Rest w')); split; congruence. }
  unfold SetupCrosshairWidget, HideCrosshair. run_action.
  destruct (CrosshairWidgetClass (Rest w)) eqn:Hclass; simpl.
  - destruct (CreateWidget E w) as [v|] eqn:Hcreate; simpl.
    + eexists. split; [reflexivity|]. split; [discriminate|].
      split; [|apply Hafter].
      intros _. split; [reflexivity|]. split; [discriminate|].
      intros _. split; reflexivity.
    + eexists. split; [reflexivity|]. split; [discriminate|].
      split; [|apply Hafter].
      intros _. split; [reflexivity|]. split; [|congruence].
      intros _. split; reflexivity.
  - eexists. split; [reflexivity|]. split; [|split; [discriminate | apply Hafter]].
    intros _. repeat split.
Qed.

(** A fresh player without a widget class: the setup reports it, and the
    [SetAnimationState(Unarmed)] that follows crashes. *)
Example SetAnimationState_after_failed_setup :
  exists w' : World,
    SetupCrosshairWidget (SampleRest.externals [])
      (with_Rest (set_CrosshairWidget None
                    {| Controller := true; GameInstance := true; CrouchSpeed := 200;
                       CurrentSlotItem := None; IsGunZooming := false;
                       IsMovingInputPressing := false; CrosshairWidgetClass := false;
                       CrosshairWidget := None; BlockMontage := Sample.montage "Block";
                       BlockMontagePlayRate := 1; FocusActor := None; CloseActors := [] |})
         (SampleRest.world_of (Sample.state Sample.player))) = Done tt w' /\
    SetAnimationState (SampleRest.externals []) Unarmed w' = Failed NullDereference.
Proof. eexists. split; reflexivity. Qed.

(** ** Zooming with a gun *)

Lemma TryGuardOrZoom_armed (E : RestExternals) (w : World) :
  CurrentAnimationState (Player (Core w)) <> Unarmed ->
  TryGuardOrZoom E w =
    if IsGunZooming (Rest w) then Done tt w
    else
      let w' := with_Rest (set_IsGunZooming true (Rest w)) (called GunCameraZoomTimeline_Stop w) in
      Done tt
        (called OnGunZoomIn_Broadcast
           (called (GunCameraZoomTimeline_SetPlaybackPosition
                      (GunCameraZoomTimeline_GetPlaybackPosition E w') true)
              (called GunCameraZoomTimeline_PlayFromStart w'))).
Proof.
  intros Hstate. unfold TryGuardOrZoom, GunZoomInCamera. run_action.
  rewrite bool_decide_eq_false_2 by exact Hstate.
  destruct (IsGunZooming (Rest w)); reflexivity.
Qed.

Lemma TryZoomOut_armed (E : RestExternals) (w : World) :
  CurrentAnimationState (Player (Core w)) <> Unarmed ->
  TryZoomOut E w =
    if IsGunZooming (Rest w) then
      let w' := with_Rest (set_IsGunZooming false (Rest w)) (called GunCameraZoomTimeline_Stop w) in
      Done tt
        (called OnGunZoomOut_Broadcast
           (called (GunCameraZoomTimeline_SetPlaybackPosition
                      (GunCameraZoomTimeline_GetPlaybackPosition E w') true)
              (called GunCameraZoomTimeline_ReverseFromEnd w')))
    else Done tt w.
Proof.
  intros Hstate. unfold TryZoomOut, GunZoomOutCamera. run_action.
  rewrite bool_decide_eq_false_2 by exact Hstate.
  destruct (IsGunZooming (Rest w)); reflexivity.
Qed.

(** X20.  With a gun in hand and not zooming, [TryGuardOrZoom] sets
    [IsGunZooming] and calls, in this order, [Stop], [PlayFromStart],
    [SetPlaybackPosition] with the position [GetPlaybackPosition] gave
    after the stop, and the [OnGunZoomIn] broadcast; pressed again while
    zooming it does nothing.  [TryZoomOut] then clears [IsGunZooming] with
    [Stop], [ReverseFromEnd], [SetPlaybackPosition] with the position read
    after its stop, and the [OnGunZoomOut] broadcast, and does nothing when
    pressed again.  What the timeline does to the camera on these calls is
    the engine's and no part of the statement. *)
Theorem zoom_in_and_out (E : RestExternals) (w : World) :
  CurrentAnimationState (Player (Core w)) <> Unarmed ->
  IsGunZooming (Rest w) = false ->
  let position1 :=
    GunCameraZoomTimeline_GetPlaybackPosition E
      (with_Rest (set_IsGunZooming true (Rest w)) (called GunCameraZoomTimeline_Stop w)) in
  exists w1 : World,
    TryGuardOrZoom E w = Done tt w1 /\
    IsGunZooming (Rest w1) = true /\
    Calls w1 = Calls w ++
      [GunCameraZoomTimeline_Stop; GunCameraZoomTimeline_PlayFromStart;
       GunCameraZoomTimeline_SetPlaybackPosition position1 true; OnGunZoomIn_Broadcast] /\
    TryGuardOrZoom E w1 = Done tt w1 /\
    let position2 :=
      GunCameraZoomTimeline_GetPlaybackPosition E
        (with_Rest (set_IsGunZooming false (Rest w1)) (called GunCameraZoomTimeline_Stop w1)) in
    exists w2 : World,
      TryZoomOut E w1 = Done tt w2 /\
      IsGunZooming (Rest w2) = false /\
      Calls w2 = Calls w1 ++
        [GunCameraZoomTimeline_Stop; GunCameraZoomTimeline_ReverseFromEnd;
         GunCameraZoomTimeline_SetPlaybackPosition position2 true; OnGunZoomOut_Broadcast] /\
      TryZoomOut E w2 = Done tt w2.
Proof.
  intros Hstate Hzoom position1.
  pose proof (TryGuardOrZoom_armed E w Hstate) as Hin. rewrite Hzoom in Hin.
  cbv zeta in Hin.
  match type of Hin with _ = Done tt ?x => set (w1 := x) in * end.
  assert (Hstate1 : CurrentAnimationState (Player (Core w1)) <> Unarmed) by exact Hstate.
  pose proof (TryZoomOut_armed E w1 Hstate1) as Hout.
  change (IsGunZooming (Rest w1)) with true in Hout. cbv iota zeta in Hout.
  match type of Hout with _ = Done tt ?x => set (w2 := x) in * end.
  assert (Hstate2 : CurrentAnimationState (Player (Core w2)) <> Unarmed) by exact Hstate.
  exists w1.
  split; [exact Hin|]. split; [reflexivity|].
  split; [subst w1 position1; simpl; rewrite <- !app_assoc; reflexivity|].
  split; [rewrite (TryGuardOrZoom_armed E w1 Hstate1); reflexivity|].
  intros position2. exists w2.
  split; [exact Hout|]. split; [reflexivity|].
  split; [subst w2 position2; simpl; rewrite <- !app_assoc; reflexivity|].
  rewrite (TryZoomOut_armed E w2 Hstate2). reflexivity.
Qed.

Lemma zoom_in_and_out_witness :
  exists w1 w2 : World,
    TryGuardOrZoom (SampleRest.externals [])
      (SampleRest.world_of (Sample.state (set_CurrentAnimationState Pistol Sample.player)))
      = Done tt w1 /\
    IsGunZooming (Rest w1) = true /\
    TryGuardOrZoom (SampleRest.externals []) w1 = Done tt w1 /\
    TryZoomOut (SampleRest.externals []) w1 = Done tt w2 /\
    IsGunZooming (Rest w2) = false /\
    TryZoomOut (SampleRest.externals []) w2 = Done tt w2 /\
    Calls w2 =
      [GunCameraZoomTimeline_Stop; GunCameraZoomTimeline_PlayFromStart;
       GunCameraZoomTimeline_SetPlaybackPosition 0 true; OnGunZoomIn_Broadcast;
       GunCameraZoomTimeline_Stop; GunCameraZoomTimeline_ReverseFromEnd;
       GunCameraZoomTimeline_SetPlaybackPosition 0 true; OnGunZoomOut_Broadcast].
Proof.
  destruct (zoom_in_and_out (SampleRest.externals [])
              (SampleRest.world_of (Sample.state (set_CurrentAnimationState Pistol Sample.player)))
              ltac:(discriminate) eq_refl)
    as (w1 & Hin & Hzoom1 & Hcalls1 & Hagain1 & w2 & Hout & Hzoom2 & Hcalls2 & Hagain2).
  exists w1, w2.
  split; [exact Hin|]. split; [exact Hzoom1|]. split; [exact Hagain1|].
  split; [exact Hout|]. split; [exact Hzoom2|]. split; [exact Hagain2|].
  rewrite Hcalls2, Hcalls1. reflexivity.
Defined.

(** Unarmed, the zoom keys do not zoom: [TryZoomOut] does nothing at all. *)
Example TryZoomOut_unarmed :
  TryZoomOut (SampleRest.externals [])
    (with_Rest (set_IsGunZooming true SampleRest.members)
               (SampleRest.world_of (Sample.state Sample.player)))
  = Done tt (with_Rest (set_IsGunZooming true SampleRest.members)
               (SampleRest.world_of (Sample.state Sample.player))).
Proof. reflexivity. Qed.

(** ** The closest interactable object *)

Ltac fold_Pos_compare :=
  repeat match goal with
         | |- context [Pos.compare_cont Eq ?x ?y] =>
             change (Pos.compare_cont Eq x y) with (Pos.compare x y)
         end.

Lemma SFltb_trans (a b c : spec_float) :
  SFltb a b = true -> SFltb b c = true -> SFltb a c = true.
Proof.
  unfold SFltb, SFcompare.
  destruct a as [sa|sa| |sa ma ea], b as [sb|sb| |sb mb eb], c as [sc|sc| |sc mc ec];
    try discriminate;
    repeat match goal with s : bool |- _ => destruct s end;
    try discriminate; try reflexivity;
    fold_Pos_compare;
    repeat match goal with
           | |- context [Z.compare ?x ?y] => destruct (Z.compare_spec x y)
           | |- context [Pos.compare ?x ?y] => destruct (Pos.compare_spec x y)
           end; simpl; try discriminate; try reflexivity; intros; try lia.
Qed.

Lemma SFltb_irrefl (a : spec_float) : SFltb a a = false.
Proof.
  unfold SFltb, SFcompare.
  destruct a as [sa|sa| |sa ma ea]; try reflexivity.
  - destruct sa; reflexivity.
  - destruct sa; rewrite Z.compare_refl; fold_Pos_compare;
      rewrite Pos.compare_refl; reflexivity.
Qed.

(** [<] on floats is transitive and irreflexive (a NaN is below nothing and
    nothing is below it). *)
Lemma float_ltb_trans (a b c : float) :
  (a <? b)%float = true -> (b <? c)%float = true -> (a <? c)%float = true.
Proof. rewrite !ltb_spec. apply SFltb_trans. Qed.

Lemma float_ltb_irrefl (a : float) : (a <? a)%float = false.
Proof. rewrite ltb_spec. apply SFltb_irrefl. Qed.

Lemma float_not_ltb_below (a b c : float) :
  (a <? c)%float = false -> (b <? c)%float = true -> (a <? b)%float = false.
Proof.
  intros Hac Hbc. destruct (a <? b)%float eqn:Hab; [|reflexivity].
  rewrite (float_ltb_trans a b c Hab Hbc) in Hac. discriminate.
Qed.

Lemma closer_keeps_closest (E : RestExternals) (w : World) (l : list AActor)
      (r : float * AActorPtr) (x : AActor) :
  is_closest (GetDistanceTo E w) l r ->
  is_closest (GetDistanceTo E w) (l ++ [x]) (closer E w r x).
Proof.
  unfold is_closest, closer. destruct r as [m [a|]]; simpl.
  - intros (Hin & -> & Hnear & Hmin).
    destruct (GetDistanceTo E w x <? GetDistanceTo E w a)%float eqn:Hlt; simpl.
    + split; [apply elem_of_app; right; apply list_elem_of_singleton; reflexivity|].
      split; [reflexivity|].
      split; [exact (float_ltb_trans _ _ _ Hlt Hnear)|].
      intros b [Hb | Hb%list_elem_of_singleton]%elem_of_app.
      * exact (float_not_ltb_below _ _ _ (Hmin b Hb) Hlt).
      * subst b. apply float_ltb_irrefl.
    + split; [apply elem_of_app; left; exact Hin|].
      split; [reflexivity|]. split; [exact Hnear|].
      intros b [Hb | Hb%list_elem_of_singleton]%elem_of_app.
      * exact (Hmin b Hb).
      * subst b. exact Hlt.
  - intros (-> & Hfar).
    destruct (GetDistanceTo E w x <? 1000000)%float eqn:Hlt; simpl.
    + split; [apply elem_of_app; right; apply list_elem_of_singleton; reflexivity|].
      split; [reflexivity|]. split; [exact Hlt|].
      intros b [Hb | Hb%list_elem_of_singleton]%elem_of_app.
      * exact (float_not_ltb_below _ _ _ (Hfar b Hb) Hlt).
      * subst b. apply float_ltb_irrefl.
    + split; [reflexivity|].
      intros b [Hb | Hb%list_elem_of_singleton]%elem_of_app.
      * exact (Hfar b Hb).
      * subst b. exact Hlt.
Qed.

Lemma foldl_closer_closest (E : RestExternals) (w : World) (rest done : list AActor)
      (r : float * AActorPtr) :
  is_closest (GetDistanceTo E w) done r ->
  is_closest (GetDistanceTo E w) (done ++ rest) (foldl (closer E w) r rest).
Proof.
  revert done r. induction rest as [|x rest IH]; intros done r Hr; simpl.
  - now rewrite app_nil_r.
  - replace (done ++ x :: rest) with ((done ++ [x]) ++ rest) by (now rewrite <- app_assoc).
    apply IH. now apply closer_keeps_closest.
Qed.

Lemma closest_is_closest (E : RestExternals) (w : World) (actors : list AActor) :
  is_closest (GetDistanceTo E w) actors (closest E w actors).
Proof.
  apply (foldl_closer_closest E w actors [] (1000000%float, None)).
  split; [reflexivity|]. intros b Hb. inversion Hb.
Qed.

(** X21.  [FindAndHighlightInteractableObjectNearPlayer] never fails and
    stores the actors the overlap found in [CloseActors].  When the overlap
    reports a hit, [FocusActor] becomes an actor of them that is nearer than
    1000000 and that none of them is nearer than, or null when none of them
    is nearer than 1000000; the outline is switched on for no actor but
    [FocusActor].  Without a hit [FocusActor] stays what it was. *)
Theorem FindAndHighlight_focuses_closest (E : RestExternals) (w : World) :
  let found := SphereOverlapActors E w in
  let w1 := with_Rest (set_CloseActors (snd found) (Rest w)) w in
  let d := GetDistanceTo E w1 in
  exists w' : World,
    FindAndHighlightInteractableObjectNearPlayer E w = Done tt w' /\
    Core w' = Core w /\
    CloseActors (Rest w') = snd found /\
    (fst found = false -> w' = w1) /\
    (fst found = true ->
     match FocusActor (Rest w') with
     | Some a =>
         a ∈ snd found /\ (d a <? 1000000)%float = true /\
         (forall b : AActor, b ∈ snd found -> (d b <? d a)%float = false) /\
         (Calls w' = Calls w \/
          Calls w' = Calls w ++ [Execute_ToggleOutline a true;
                                 Execute_StartCheckAndUpdateWidgetVisibleTimer a])
     | None =>
         (forall b : AActor, b ∈ snd found -> (d b <? 1000000)%float = false) /\
         Calls w' = Calls w
     end).
Proof.
  intros found w1 d. subst found d.
  unfold FindAndHighlightInteractableObjectNearPlayer. run_action.
  destruct (SphereOverlapActors E w) as [[|] actors] eqn:Hfound; simpl in *.
  2:{ eexists. split; [reflexivity|]. repeat split. discriminate. }
  fold w1.
  pose proof (closest_is_closest E w1 actors) as Hclosest.
  unfold is_closest in Hclosest.
  destruct (closest E w1 actors) as [m [a|]]; simpl in *.
  - destruct Hclosest as (Hin & _ & Hnear & Hmin).
    destruct (Cast_IInteractableInterface E a); simpl;
      [destruct (Execute_IsInteractiveHUDVisible E _ a); simpl;
       [|destruct (Execute_IsEnable E _ a); simpl]|];
      (eexists; split; [reflexivity|]; simpl;
       split; [reflexivity|]; split; [reflexivity|]; split; [discriminate|];
       intros _; split; [exact Hin|]; split; [exact Hnear|]; split; [exact Hmin|]).
    + left. reflexivity.
    + right. rewrite <- app_assoc. reflexivity.
    + left. reflexivity.
    + left. reflexivity.
  - destruct Hclosest as (_ & Hfar).
    eexists. split; [reflexivity|]. simpl.
    split; [reflexivity|]. split; [reflexivity|]. split; [discriminate|].
    intros _. split; [exact Hfar | reflexivity].
Qed.

Example FindAndHighlight_picks_chest :
  exists w' : World,
    FindAndHighlightInteractableObjectNearPlayer
      (SampleRest.externals [SampleRest.door; SampleRest.chest; SampleRest.lever])
      (SampleRest.world_of (Sample.state Sample.player)) = Done tt w' /\
    FocusActor (Rest w') = Some SampleRest.chest /\
    Calls w' = [Execute_ToggleOutline SampleRest.chest true;
                Execute_StartCheckAndUpdateWidgetVisibleTimer SampleRest.chest].
Proof. eexists. split; [vm_compute; reflexivity|]. split; reflexivity. Qed.

(** X22.  The focus can go stale: when the overlap reports no hit,
    [FindAndHighlightInteractableObjectNearPlayer] replaces [CloseActors]
    and keeps the old [FocusActor], and [Interact] then still interacts
    with that actor if it is enabled. *)
Theorem Interact_reaches_stale_focus (E : RestExternals) (w : World) (a : AActor) :
  fst (SphereOverlapActors E w) = false ->
  FocusActor (Rest w) = Some a ->
  Cast_IInteractableInterface E a = true ->
  exists w1 : World,
    FindAndHighlightInteractableObjectNearPlayer E w = Done tt w1 /\
    CloseActors (Rest w1) = snd (SphereOverlapActors E w) /\
    FocusActor (Rest w1) = Some a /\
    (Execute_IsEnable E w1 a = true ->
     Interact E w1 = Done tt (called (Execute_Interact a) w1)) /\
    (Execute_IsEnable E w1 a = false -> Interact E w1 = Done tt w1).
Proof.
  intros Hmiss Hfocus Hcast.
  unfold FindAndHighlightInteractableObjectNearPlayer. run_action.
  destruct (SphereOverlapActors E w) as [[|] actors]; [discriminate|]. simpl.
  eexists. split; [reflexivity|]. simpl.
  split; [reflexivity|]. split; [exact Hfocus|].
  unfold Interact. run_action. rewrite Hfocus, Hcast.
  split; intros ->; reflexivity.
Qed.

Lemma Interact_reaches_stale_focus_witness :
  exists w1 : World,
    FindAndHighlightInteractableObjectNearPlayer (SampleRest.externals [])
      (with_Rest (set_FocusActor (Some SampleRest.chest) SampleRest.members)
                 (SampleRest.world_of (Sample.state Sample.player))) = Done tt w1 /\
    CloseActors (Rest w1) = [] /\
    FocusActor (Rest w1) = Some SampleRest.chest /\
    Interact (SampleRest.externals []) w1
    = Done tt (called (Execute_Interact SampleRest.chest) w1).
Proof.
  destruct (Interact_reaches_stale_focus (SampleRest.externals [])
              (with_Rest (set_FocusActor (Some SampleRest.chest) SampleRest.members)
                         (SampleRest.world_of (Sample.state Sample.player)))
              SampleRest.chest eq_refl eq_refl eq_refl)
    as (w1 & Hrun & Hclose & Hfocus & Hinteract & _).
  exists w1. split; [exact Hrun|]. split; [exact Hclose|]. split; [exact Hfocus|].
  apply Hinteract.
  reflexivity.
Defined.

(** ** Moving and dodging *)

Lemma TryDodgeRoll_locked_run (E : Externals) (s : State) :
  CanDodgeRoll E s = true ->
  IsDodging E s = false ->
  IsTargetLocking (Player s) = true ->
  TryDodgeRoll E s =
    Returned tt
      (logged
         (Montage_Play
            (DodgeMontage (Player s)
               (if (0 <? FVector2D.X (CurrentMovementVector (Player s)))%float then RollRight
                else if (FVector2D.X (CurrentMovementVector (Player s)) <? 0)%float then RollLeft
                else if (FVector2D.Y (CurrentMovementVector (Player s)) <? 0)%float
                then RollBackward else RollForward)) 1) s).
Proof.
  intros Hcan Hdodging Hlock. unfold TryDodgeRoll. run_method.
  rewrite Hcan. simpl. rewrite Hdodging, Hlock. simpl.
  destruct (0 <? FVector2D.X (CurrentMovementVector (Player s)))%float; [reflexivity|].
  destruct (FVector2D.X (CurrentMovementVector (Player s)) <? 0)%float; [reflexivity|].
  destruct (FVector2D.Y (CurrentMovementVector (Player s)) <? 0)%float; reflexivity.
Qed.

(** X23.  [Move] changes nothing when [CanMove] fails.  Otherwise it stores
    the input vector and, with a controller, feeds its Y as forward and its
    X as rightward movement input, each rounded to single precision, along
    the axes of the control rotation's yaw.  The vector stored (unrounded)
    is the one a dodge roll while target-locked goes by: to the right for a
    positive X, to the left for a negative X, otherwise backward for a
    negative Y and forward else. *)
Theorem Move_then_TryDodgeRoll (E : RestExternals) (Value : FVector2D.t) (w : World) :
  (CanMove (Base E) (Core w) = false -> Move E Value w = Done tt w) /\
  (CanMove (Base E) (Core w) = true ->
   exists w1 : World,
     Move E Value w = Done tt w1 /\
     Core w1 = with_Player (set_CurrentMovementVector Value (Player (Core w))) (Core w) /\
     Rest w1 = Rest w /\
     (Controller (Rest w) = false -> Calls w1 = Calls w) /\
     (Controller (Rest w) = true ->
      let Rotation :=
        GetControlRotation E
          (with_Core (with_Player (set_CurrentMovementVector Value (Player (Core w))) (Core w)) w) in
      Calls w1 = Calls w ++
        [AddMovementInput (GetUnitAxis_X E (FRotator.mk 0 (FRotator.Yaw Rotation) 0))
                          (double_to_float (FVector2D.Y Value));
         AddMovementInput (GetUnitAxis_Y E (FRotator.mk 0 (FRotator.Yaw Rotation) 0))
                          (double_to_float (FVector2D.X Value))]) /\
     (IsTargetLocking (Player (Core w)) = true ->
      CanDodgeRoll (Base E) (Core w1) = true ->
      IsDodging (Base E) (Core w1) = false ->
      TryDodgeRoll (Base E) (Core w1) =
        Returned tt
          (logged
             (Montage_Play
                (DodgeMontage (Player (Core w))
                   (if (0 <? FVector2D.X Value)%float then RollRight
                    else if (FVector2D.X Value <? 0)%float then RollLeft
                    else if (FVector2D.Y Value <? 0)%float then RollBackward
                    else RollForward)) 1) (Core w1)))).
Proof.
  split.
  - intros Hcannot. unfold Move. run_action. unfold query. rewrite Hcannot. simpl.
    now rewrite with_Core_same.
  - intros Hcan. unfold Move. run_action. unfold query, assign. rewrite Hcan. simpl.
    destruct (Controller (Rest w)) eqn:Hcontroller; simpl;
      (eexists; split; [reflexivity|]; simpl;
       split; [reflexivity|]; split; [reflexivity|]).
    + split; [discriminate|]. split.
      * intros _. rewrite <- app_assoc. reflexivity.
      * intros Hlock Hdodge Hnot.
        rewrite TryDodgeRoll_locked_run by assumption. reflexivity.
    + split; [reflexivity|]. split; [discriminate|].
      intros Hlock Hdodge Hnot.
      rewrite TryDodgeRoll_locked_run by assumption. reflexivity.
Qed.

Lemma Move_then_TryDodgeRoll_witness :
  exists w1 : World,
    Move (SampleRest.externals []) (FVector2D.mk (-0x1.999999999999ap-4) 0)
         (SampleRest.world_of (Sample.state Sample.locked_player)) = Done tt w1 /\
    CurrentMovementVector (Player (Core w1)) = FVector2D.mk (-0x1.999999999999ap-4) 0 /\
    Calls w1 = [AddMovementInput (FVector.mk 1 0 0) 0;
                AddMovementInput (FVector.mk 0 1 0) (-0x1.99999ap-4)] /\
    TryDodgeRoll (Base (SampleRest.externals [])) (Core w1)
    = Returned tt (logged (Montage_Play (Sample.montage "DodgeRollLeft") 1) (Core w1)).
Proof.
  destruct (Move_then_TryDodgeRoll (SampleRest.externals []) (FVector2D.mk (-0x1.999999999999ap-4) 0)
              (SampleRest.world_of (Sample.state Sample.locked_player))) as [_ Hmoves].
  destruct (Hmoves eq_refl) as (w1 & Hrun & Hcore & _ & _ & Hcalls & Hdodge).
  exists w1. split; [exact Hrun|].
  split; [rewrite Hcore; reflexivity|].
  split; [rewrite (Hcalls eq_refl); reflexivity|].
  apply Hdodge; reflexivity.
Defined.

(** Narrowing to single precision: a tenth, a tie (to even) and a value
    beyond the range. *)
Example double_to_float_examples :
  double_to_float 0x1.999999999999ap-4 = 0x1.99999ap-4%float /\
  double_to_float 0x1.000001p0 = 1%float /\
  double_to_float 0x1p128 = infinity /\
  double_to_float 1 = 1%float.
Proof. repeat split. Qed.
